(** * NYC congestion audit 2025: the ETL pipeline of [ingest.py] and
    [pipeline.py], embedded and verified.

    The program is a Polars query: [ingest_and_unify] scans the monthly Parquet
    files of the two taxi classes and stacks them under one schema, and
    [run_pipeline] derives the trip features, splits ghost from clean trips
    and reduces the clean trips to the audit tables.

    A data frame is a list of rows, a row a record with one field per column, a
    nullable column an [option].  Float64 columns are binary64 numbers
    ([PrimFloat]), Int64 columns are [Z] with the wrap-around written where the
    engine wraps.  A lazy frame is modelled by the rows it yields when it is
    collected, or the error raised instead. *)

From Stdlib Require Import String.
From Stdlib Require Import ZArith List Bool Lia Floats Uint63 QArith.
From Stdlib Require Import Permutation Sorted FinFun DecimalString.
Import ListNotations.
Open Scope Z_scope.

(** ** The engine's operators, as the pipeline uses them *)
Module Polars.

(** Errors raised by the engine when a query is built or collected. *)
Inductive result (A : Type) : Type :=
| Ok (a : A)
| ComputeError   (* a scan with no source, a column that cannot be resolved *)
| ShapeError.    (* columns of a frame with different heights *)
Arguments Ok {A} a.
Arguments ComputeError {A}.
Arguments ShapeError {A}.

Definition bind {A B} (r : result A) (k : A -> result B) : result B :=
  match r with
  | Ok a => k a
  | ComputeError => ComputeError
  | ShapeError => ShapeError
  end.

(** Element-wise operators propagate nulls. *)
Definition lift1 {A B} (f : A -> B) (x : option A) : option B :=
  match x with Some a => Some (f a) | None => None end.

Definition lift2 {A B C} (f : A -> B -> C) (x : option A) (y : option B)
  : option C :=
  match x, y with Some a, Some b => Some (f a b) | _, _ => None end.

(** [fill_null v]. *)
Definition fill_null {A} (v : A) (x : option A) : option A :=
  match x with Some a => Some a | None => Some v end.

(** Boolean columns follow Kleene's three-valued logic. *)
Definition and3 (x y : option bool) : option bool :=
  match x, y with
  | Some false, _ | _, Some false => Some false
  | Some true, Some true => Some true
  | _, _ => None
  end.

Definition or3 (x y : option bool) : option bool :=
  match x, y with
  | Some true, _ | _, Some true => Some true
  | Some false, Some false => Some false
  | _, _ => None
  end.

Definition not3 (x : option bool) : option bool := lift1 negb x.

(** Float comparisons use the engine's total order: all NaNs are equal and
    NaN is greater than every other value. *)
Definition tot_eq (a b : float) : bool :=
  if PrimFloat.is_nan a then PrimFloat.is_nan b else PrimFloat.eqb a b.
Definition tot_ge (a b : float) : bool :=
  PrimFloat.is_nan a || PrimFloat.leb b a.
Definition tot_lt (a b : float) : bool := negb (tot_ge a b).
Definition tot_gt (a b : float) : bool := tot_lt b a.

(** Int64 arithmetic wraps. *)
Definition wrap64 (z : Z) : Z := (z + 2 ^ 63) mod 2 ^ 64 - 2 ^ 63.

(** Cast of an Int64 to Float64 (round to nearest, ties to even), for values
    of magnitude below 2^63, as a count of minutes is. *)
Definition i64_to_f64 (z : Z) : float :=
  if z <? 0 then PrimFloat.opp (PrimFloat.of_uint63 (Uint63.of_Z (- z)))
  else PrimFloat.of_uint63 (Uint63.of_Z z).

(** Time units of the Datetime and Duration types. *)
Inductive TimeUnit : Type := Nanoseconds | Microseconds | Milliseconds.

Definition ticks_per_second (tu : TimeUnit) : Z :=
  match tu with
  | Nanoseconds => 1000000000
  | Microseconds => 1000000
  | Milliseconds => 1000
  end.

Definition ticks_per_minute (tu : TimeUnit) : Z := ticks_per_second tu * 60.
Definition ticks_per_hour (tu : TimeUnit) : Z := ticks_per_second tu * 3600.
Definition ticks_per_day (tu : TimeUnit) : Z := ticks_per_second tu * 86400.

(** [a - b] on two Datetime values: a Duration in the same unit. *)
Definition datetime_sub (a b : Z) : Z := wrap64 (a - b).

(** [dt.total_minutes()]: whole minutes, the division truncating. *)
Definition total_minutes (tu : TimeUnit) (d : Z) : Z :=
  Z.quot d (ticks_per_minute tu).

(** [dt.date()]: days since 1970-01-01, the division rounding down.  The
    engine keeps a Date in 32 bits and answers null for a day number beyond
    them, which only a timestamp millions of years away can reach; no such
    date is a day of 2025. *)
Definition dt_date (tu : TimeUnit) (t : Z) : Z := t / ticks_per_day tu.

(** [dt.hour()], for a timestamp within the engine's calendar; the engine
    answers null beyond it, hundreds of thousands of years away. *)
Definition dt_hour (tu : TimeUnit) (t : Z) : Z :=
  (t mod ticks_per_day tu) / ticks_per_hour tu.

(** [dt.weekday()]: ISO weekday, Monday = 1 ... Sunday = 7; day 0 of the
    epoch was a Thursday.  Within the engine's calendar, as [dt_hour]. *)
Definition dt_weekday (tu : TimeUnit) (t : Z) : Z :=
  (dt_date tu t + 3) mod 7 + 1.

(** [is_in] against a list of integer literals. *)
Definition is_in (x : option Z) (l : list Z) : option bool :=
  lift1 (fun z => existsb (Z.eqb z) l) x.

(** [filter] keeps the rows whose predicate is true; false and null drop. *)
Definition keep (b : option bool) : bool :=
  match b with Some true => true | _ => false end.

Definition filter {A} (p : A -> option bool) (l : list A) : list A :=
  List.filter (fun a => keep (p a)) l.

(** Group keys: null is a key of its own. *)
Definition key_eqb (a b : option Z) : bool :=
  match a, b with
  | Some x, Some y => Z.eqb x y
  | None, None => true
  | _, _ => false
  end.

(** [group_by]: the groups, here in order of first appearance (the engine
    fixes no order). *)
Fixpoint insert_group {A} (k : option Z) (x : A)
         (gs : list (option Z * list A)) : list (option Z * list A) :=
  match gs with
  | [] => [(k, [x])]
  | (k', xs) :: gs' =>
      if key_eqb k k' then (k', xs ++ [x]) :: gs'
      else (k', xs) :: insert_group k x gs'
  end.

Definition group_by {A} (key : A -> option Z) (l : list A)
  : list (option Z * list A) :=
  fold_left (fun gs x => insert_group (key x) x gs) l [].

(** [limit n]. *)
Definition limit {A} (n : nat) (l : list A) : list A := firstn n l.

(** Inner join on one key column: null keys match nothing. *)
Definition join_eqb (a b : option Z) : bool :=
  match a, b with
  | Some x, Some y => Z.eqb x y
  | _, _ => false
  end.

Definition join_inner {L R} (lkey : L -> option Z) (rkey : R -> option Z)
           (left : list L) (right : list R) : list (L * R) :=
  flat_map
    (fun l => map (fun r => (l, r))
                  (List.filter (fun r => join_eqb (lkey l) (rkey r)) right))
    left.

End Polars.
Import Polars.

(** ** ingest.py *)

(** A row of a yellow-taxi file, with the columns the projection reads. *)
Module Yellow.
Record t : Type := mk {
  tpep_pickup_datetime : option Z;
  tpep_dropoff_datetime : option Z;
  PULocationID : option Z;
  DOLocationID : option Z;
  trip_distance : option float;
  fare_amount : option float;
  total_amount : option float;
  congestion_surcharge : option float;
  VendorID : option Z
}.
End Yellow.

(** A row of a green-taxi file: the same columns under the [lpep_] names. *)
Module Green.
Record t : Type := mk {
  lpep_pickup_datetime : option Z;
  lpep_dropoff_datetime : option Z;
  PULocationID : option Z;
  DOLocationID : option Z;
  trip_distance : option float;
  fare_amount : option float;
  total_amount : option float;
  congestion_surcharge : option float;
  VendorID : option Z
}.
End Green.

(** A row of the unified relation. *)
Record Row : Type := mkRow {
  pickup_time : option Z;
  dropoff_time : option Z;
  pickup_loc : option Z;
  dropoff_loc : option Z;
  trip_distance : option float;
  fare : option float;
  total_amount : option float;
  congestion_surcharge : option float;
  VendorID : option Z
}.

(** The column names of the unified relation, in projection order. *)
Definition unified_columns : list string :=
  ["pickup_time"; "dropoff_time"; "pickup_loc"; "dropoff_loc";
   "trip_distance"; "fare"; "total_amount"; "congestion_surcharge";
   "VendorID"]%string.

(** What [download_file] finds for each month: the file's rows when the file
    is on disk or its download succeeds, nothing otherwise.  A file is a
    Parquet file of its class here; a path that holds anything else makes
    the scan raise. *)
Record Sources : Type := mkSources {
  yellow_tripdata : nat -> option (list Yellow.t);
  green_tripdata : nat -> option (list Green.t)
}.

(** The download loop over [range(1, 13)]: a month's file joins the list when
    [download_file] answers true. *)
Definition months : list nat := seq 1 12.

Definition downloaded {A} (file : nat -> option (list A)) : list (list A) :=
  flat_map (fun m => match file m with Some f => [f] | None => [] end) months.

Definition yellow_files (s : Sources) : list (list Yellow.t) :=
  downloaded (yellow_tripdata s).

Definition green_files (s : Sources) : list (list Green.t) :=
  downloaded (green_tripdata s).

(** [pl.scan_parquet(files)]: the rows of the files in order.  A scan needs at
    least one source to resolve its columns from. *)
Definition scan_parquet {A} (files : list (list A)) : result (list A) :=
  match files with
  | [] => ComputeError
  | _ :: _ => Ok (concat files)
  end.

Definition select_yellow (y : Yellow.t) : Row :=
  {| pickup_time := Yellow.tpep_pickup_datetime y;
     dropoff_time := Yellow.tpep_dropoff_datetime y;
     pickup_loc := Yellow.PULocationID y;
     dropoff_loc := Yellow.DOLocationID y;
     trip_distance := Yellow.trip_distance y;
     fare := Yellow.fare_amount y;
     total_amount := Yellow.total_amount y;
     congestion_surcharge := fill_null 0%float (Yellow.congestion_surcharge y);
     VendorID := Yellow.VendorID y |}.

Definition select_green (g : Green.t) : Row :=
  {| pickup_time := Green.lpep_pickup_datetime g;
     dropoff_time := Green.lpep_dropoff_datetime g;
     pickup_loc := Green.PULocationID g;
     dropoff_loc := Green.DOLocationID g;
     trip_distance := Green.trip_distance g;
     fare := Green.fare_amount g;
     total_amount := Green.total_amount g;
     congestion_surcharge := fill_null 0%float (Green.congestion_surcharge g);
     VendorID := Green.VendorID g |}.

Definition q_yellow (s : Sources) : result (list Row) :=
  bind (scan_parquet (yellow_files s)) (fun rows => Ok (map select_yellow rows)).

Definition q_green (s : Sources) : result (list Row) :=
  bind (scan_parquet (green_files s)) (fun rows => Ok (map select_green rows)).

(** [pl.concat([q_yellow, q_green])]. *)
Definition ingest_and_unify (s : Sources) : result (list Row) :=
  bind (q_yellow s) (fun y => bind (q_green s) (fun g => Ok (y ++ g))).

(** ** pipeline.py *)

(** Manhattan zone ids south of 60th St. *)
Definition CONGESTION_ZONES : list Z :=
  [12; 13; 43; 45; 48; 50; 68; 79; 87; 88; 90; 100; 107; 113; 114; 116; 120;
   125; 137; 140; 141; 142; 143; 144; 148; 151; 158; 161; 162; 163; 164; 166;
   170; 186; 209; 211; 224; 229; 230; 231; 232; 233; 234; 236; 237; 238; 239;
   243; 244; 246; 249; 261; 262; 263].

(** *** Calendar arithmetic behind [datetime(y, m, d)] and the Date type *)

(** Days from 1970-01-01 to the proleptic Gregorian date [y]-[m]-[d]. *)
Definition days_from_civil (y m d : Z) : Z :=
  let y' := if m <=? 2 then y - 1 else y in
  let era := y' / 400 in
  let yoe := y' - era * 400 in
  let mp := (m + 9) mod 12 in
  let doy := (153 * mp + 2) / 5 + d - 1 in
  let doe := yoe * 365 + yoe / 4 - yoe / 100 + doy in
  era * 146097 + doe - 719468.

(** The calendar year of a day number. *)
Definition year_of_days (n : Z) : Z :=
  let z := n + 719468 in
  let era := z / 146097 in
  let doe := z - era * 146097 in
  let yoe := (doe - doe / 1460 + doe / 36524 - doe / 146096) / 365 in
  let doy := doe - (365 * yoe + yoe / 4 - yoe / 100) in
  let mp := (5 * doy + 2) / 153 in
  let m := if mp <? 10 then mp + 3 else mp - 9 in
  if m <=? 2 then yoe + era * 400 + 1 else yoe + era * 400.

(** [datetime(y, m, d)] as a Datetime value at midnight. *)
Definition datetime (tu : TimeUnit) (y m d : Z) : Z :=
  days_from_civil y m d * ticks_per_day tu.

(** [pl.datetime_range(start, stop, "1d", eager=True)]: both ends closed. *)
Definition datetime_range_1d (tu : TimeUnit) (start stop : Z) : list Z :=
  if stop <? start then []
  else map (fun k => start + Z.of_nat k * ticks_per_day tu)
           (seq 0 (S (Z.to_nat ((stop - start) / ticks_per_day tu)))).

(** *** fetch_weather *)

Record WeatherRow : Type := mkWeatherRow {
  w_date : option Z;
  precipitation_mm : float
}.

(** The date column: every day from 2025-01-01 to 2025-12-31, cast to Date. *)
Definition weather_dates : list (option Z) :=
  map (fun t => Some (dt_date Microseconds t))
      (datetime_range_1d Microseconds (datetime Microseconds 2025 1 1)
                         (datetime Microseconds 2025 12 31)).

(** [fetch_weather], given the values the archive answered with: the frame
    needs both columns to have one height. *)
Definition fetch_weather (values : list float) : result (list WeatherRow) :=
  if Nat.eqb (length weather_dates) (length values)
  then Ok (map (fun dv => mkWeatherRow (fst dv) (snd dv))
               (combine weather_dates values))
  else ShapeError.

(** *** Feature engineering *)

(** After the first [with_columns]. *)
Record Timed : Type := mkTimed {
  base : Row;
  duration_min : option Z;
  date : option Z;
  hour : option Z;
  weekday : option Z
}.

(** After the second [with_columns]. *)
Record Trip : Type := mkTrip {
  timed : Timed;
  speed_mph : option float
}.

Definition row (t : Trip) : Row := base (timed t).

Definition calendar_columns : list string :=
  ["duration_min"; "date"; "hour"; "weekday"]%string.

Definition speed_columns : list string := ["speed_mph"]%string.

(** The column names after [with_columns]: a new name is appended, a name the
    frame already has is replaced in place. *)
Definition with_columns_schema (schema new : list string) : list string :=
  schema ++ List.filter (fun n => negb (existsb (String.eqb n) schema)) new.

Definition replaced_columns (schema new : list string) : list string :=
  List.filter (fun n => existsb (String.eqb n) schema) new.

Section Features.
Variable tu : TimeUnit.

Definition add_calendar (r : Row) : Timed :=
  {| base := r;
     duration_min :=
       lift1 (total_minutes tu)
             (lift2 datetime_sub (dropoff_time r) (pickup_time r));
     date := lift1 (dt_date tu) (pickup_time r);
     hour := lift1 (dt_hour tu) (pickup_time r);
     weekday := lift1 (dt_weekday tu) (pickup_time r) |}.

Definition add_speed (t : Timed) : Trip :=
  {| timed := t;
     speed_mph :=
       lift2 PrimFloat.div
             (trip_distance (base t))
             (lift1 (fun m => PrimFloat.div (i64_to_f64 m) 60%float)
                    (duration_min t)) |}.

Definition derive (r : Row) : Trip := add_speed (add_calendar r).

Definition with_features (q : list Row) : list Trip :=
  map add_speed (map add_calendar q).

End Features.

(** *** The ghost trip audit *)

Definition ghost_criteria (t : Trip) : option bool :=
  or3 (or3 (lift1 (fun s => tot_gt s 65%float) (speed_mph t))
           (and3 (lift1 (fun d => d <? 1) (duration_min (timed t)))
                 (lift1 (fun f => tot_gt f 20%float) (fare (row t)))))
      (and3 (lift1 (fun d => tot_eq d 0%float) (trip_distance (row t)))
            (lift1 (fun f => tot_gt f 0%float) (fare (row t)))).

Definition ghost_trips (q : list Trip) : list Trip :=
  Polars.filter ghost_criteria q.

(** [ghost_stats]: vendor and count. *)
Definition ghost_stats (q : list Trip) : list (option Z * nat) :=
  map (fun g => (fst g, length (snd g)))
      (group_by (fun t => VendorID (row t)) (ghost_trips q)).

Definition q_clean (q : list Trip) : list Trip :=
  Polars.filter (fun t => not3 (ghost_criteria t)) q.

(** *** Aggregations over the clean trips *)

(** A. Leakage: starts outside the zone, ends inside. *)
Definition leakage_filter (t : Trip) : option bool :=
  and3 (not3 (is_in (pickup_loc (row t)) CONGESTION_ZONES))
       (is_in (dropoff_loc (row t)) CONGESTION_ZONES).

Record LeakageRow : Type := mkLeakageRow {
  l_pickup_loc : option Z;
  total_trips : nat;
  missing_surcharge_count : nat
}.

(** [(pl.col("congestion_surcharge") == 0).sum()]: the rows where the
    comparison is true; a null comparison adds nothing. *)
Definition surcharge_is_zero (t : Trip) : option bool :=
  lift1 (fun s => tot_eq s 0%float) (congestion_surcharge (row t)).

Definition leakage_row (g : option Z * list Trip) : LeakageRow :=
  {| l_pickup_loc := fst g;
     total_trips := length (snd g);
     missing_surcharge_count := length (Polars.filter surcharge_is_zero (snd g)) |}.

Definition leakage_groups (clean : list Trip) : list LeakageRow :=
  map leakage_row
      (group_by (fun t => pickup_loc (row t))
                (Polars.filter leakage_filter clean)).

(** [sort("missing_surcharge_count", descending=True)], here by insertion:
    a row moves behind the rows with a strictly larger count only, so equal
    counts stay in their input order.  The engine promises no order among
    the groups nor among equal counts; [is_leakage_agg] below covers every
    order it may choose, and nothing is claimed of the order of ties. *)
Fixpoint insert_desc (x : LeakageRow) (l : list LeakageRow) : list LeakageRow :=
  match l with
  | [] => [x]
  | y :: l' =>
      if (missing_surcharge_count x <? missing_surcharge_count y)%nat
      then y :: insert_desc x l'
      else x :: y :: l'
  end.

Definition sort_desc (l : list LeakageRow) : list LeakageRow :=
  fold_right insert_desc [] l.

Definition leakage_agg (clean : list Trip) : list LeakageRow :=
  limit 10 (sort_desc (leakage_groups clean)).

(** The order of groups and of equal counts being the engine's to choose, a
    leakage table is any top ten of the groups under some descending order. *)
Definition non_increasing (l : list LeakageRow) : Prop :=
  StronglySorted
    (fun a b => (missing_surcharge_count b <= missing_surcharge_count a)%nat) l.

Definition is_leakage_agg (clean : list Trip) (out : list LeakageRow) : Prop :=
  exists sorted,
    Permutation sorted (leakage_groups clean) /\
    non_increasing sorted /\
    out = limit 10 sorted.

(** B. Velocity: the rows the heat map averages [speed_mph] over. *)
Definition velocity_rows (clean : list Trip) : list Trip :=
  Polars.filter (fun t => is_in (pickup_loc (row t)) CONGESTION_ZONES) clean.

(** D. Daily trip counts. *)
Record DailyCount : Type := mkDailyCount {
  d_date : option Z;
  trip_count : nat
}.

Definition daily_counts (clean : list Trip) : list DailyCount :=
  map (fun g => mkDailyCount (fst g) (length (snd g)))
      (group_by (fun t => date (timed t)) clean).

(** *** The weather join *)

Record ElasticityRow : Type := mkElasticityRow {
  e_date : option Z;
  e_precipitation_mm : float;
  e_trip_count : nat
}.

(** [weather_df.join(trips_df, on="date", how="inner")]. *)
Definition weather_join (weather_df : list WeatherRow)
           (trips_df : list DailyCount) : list ElasticityRow :=
  map (fun p => mkElasticityRow (w_date (fst p)) (precipitation_mm (fst p))
                                (trip_count (snd p)))
      (join_inner w_date d_date weather_df trips_df).

(** *** run_pipeline *)

(** What the run reads: the monthly files and the archive's daily values. *)
Record World : Type := mkWorld {
  sources : Sources;
  precipitation_sum : list float
}.

(** The tables written, of those the properties below speak about
    ([velocity_heatmap.csv] and [economics.csv] are float means over the clean
    trips). *)
Record Outputs : Type := mkOutputs {
  ghost_audit : list (option Z * nat);
  leakage_audit : list LeakageRow;
  weather_elasticity : list ElasticityRow
}.

(** The run, with the timestamps of the files in unit [tu], as a function to
    the three tables above.  An error of the ingestion surfaces at the first
    [collect], one of the weather frame after the first four tables are
    written; either way the run raises.  The collects of the velocity and
    economics tables are not part of it: the engine can fail in the latter
    on a date beyond its calendar, so that an answer here says what the
    tables are when the run in the code completes. *)
Definition run_pipeline (tu : TimeUnit) (w : World) : result Outputs :=
  bind (ingest_and_unify (sources w)) (fun q0 =>
  let q := with_features tu q0 in
  let clean := q_clean q in
  bind (fetch_weather (precipitation_sum w)) (fun weather_df =>
  Ok {| ghost_audit := ghost_stats q;
        leakage_audit := leakage_agg clean;
        weather_elasticity := weather_join weather_df (daily_counts clean) |})).

(** ** Notions the properties are stated with *)

(** The ghost predicate has a value, true or false. *)
Definition decided (b : option bool) : bool :=
  match b with Some _ => true | None => false end.

(** The fields the ghost predicate reads are all present. *)
Definition complete (r : Row) : Prop :=
  pickup_time r <> None /\ dropoff_time r <> None /\
  trip_distance r <> None /\ fare r <> None.

(** The exact timestamp difference, in minutes. *)
Definition exact_minutes (tu : TimeUnit) (pickup dropoff : Z) : Q :=
  Qmake (dropoff - pickup) (Z.to_pos (ticks_per_minute tu)).

(** ** Sample inputs *)


(** 2025-01-01 13:00:00 in microseconds, and one minute. *)
Definition jan1_1pm : Z := 1735736400000000.
Definition us_minute : Z := 60000000.

(** A trip with every field present. *)
Definition trip_row (pickup dropoff pu_loc do_loc : Z)
           (distance fare_amt surcharge : float) : Row :=
  {| pickup_time := Some pickup;
     dropoff_time := Some dropoff;
     pickup_loc := Some pu_loc;
     dropoff_loc := Some do_loc;
     trip_distance := Some distance;
     fare := Some fare_amt;
     total_amount := Some fare_amt;
     congestion_surcharge := Some surcharge;
     VendorID := Some 1 |}.

(** A trip of ninety seconds. *)
Definition ninety_seconds : Row :=
  trip_row jan1_1pm (jan1_1pm + 90000000) 7 161 0.25 6 0.

(** Timestamps at the two ends of the Int64 range, five minutes more than
    2^63 microseconds apart. *)
Definition far_apart : Row :=
  trip_row (- 2 ^ 62) (2 ^ 62 + 5 * us_minute) 7 161 3 15 0.

(** A green file with one row whose surcharge is null, and a yellow one. *)
Definition green_null_surcharge : Green.t :=
  {| Green.lpep_pickup_datetime := Some jan1_1pm;
     Green.lpep_dropoff_datetime := Some (jan1_1pm + 30 * us_minute);
     Green.PULocationID := Some 7;
     Green.DOLocationID := Some 161;
     Green.trip_distance := Some 3%float;
     Green.fare_amount := Some 15%float;
     Green.total_amount := Some 18%float;
     Green.congestion_surcharge := None;
     Green.VendorID := Some 2 |}.

Definition yellow_paid : Yellow.t :=
  {| Yellow.tpep_pickup_datetime := Some jan1_1pm;
     Yellow.tpep_dropoff_datetime := Some (jan1_1pm + 20 * us_minute);
     Yellow.PULocationID := Some 8;
     Yellow.DOLocationID := Some 12;
     Yellow.trip_distance := Some 2%float;
     Yellow.fare_amount := Some 12%float;
     Yellow.total_amount := Some 16%float;
     Yellow.congestion_surcharge := Some 2.5%float;
     Yellow.VendorID := Some 1 |}.

(** Every yellow download fails; January's green file is there. *)
Definition green_only : Sources :=
  {| yellow_tripdata := fun _ => None;
     green_tripdata := fun m => if Nat.eqb m 1 then Some [green_null_surcharge]
                                else None |}.

(** January of both classes. *)
Definition january : Sources :=
  {| yellow_tripdata := fun m => if Nat.eqb m 1 then Some [yellow_paid] else None;
     green_tripdata := fun m => if Nat.eqb m 1 then Some [green_null_surcharge]
                                else None |}.

(** A zero-distance trip of ten minutes whose fare is null. *)
Definition null_fare : Row :=
  {| pickup_time := Some jan1_1pm;
     dropoff_time := Some (jan1_1pm + 10 * us_minute);
     pickup_loc := Some 7;
     dropoff_loc := Some 161;
     trip_distance := Some 0%float;
     fare := None;
     total_amount := Some 0%float;
     congestion_surcharge := Some 0%float;
     VendorID := Some 1 |}.

(** Ten miles in five minutes, and three miles in half an hour. *)
Definition too_fast : Row :=
  trip_row jan1_1pm (jan1_1pm + 5 * us_minute) 7 161 10 30 0.
Definition plain_trip : Row :=
  trip_row jan1_1pm (jan1_1pm + 30 * us_minute) 7 161 3 15 0.

(** The velocity the heat map averages is a number: neither an infinity nor
    NaN. *)
Definition finite_speed (t : Trip) : Prop :=
  forall s, speed_mph t = Some s -> PrimFloat.is_finite s = true.

(** Zero duration over a negative distance, and a minute backwards over a
    distance near the top of the float range. *)
Definition negative_distance : Row :=
  trip_row jan1_1pm jan1_1pm 7 161 (-1) 5 0.
Definition huge_distance : Row :=
  trip_row jan1_1pm (jan1_1pm - us_minute) 161 161 0x1p+1023 5 0.

(** A location is one of the congestion zones. *)
Definition in_zone (loc : option Z) : Prop :=
  exists z, loc = Some z /\ In z CONGESTION_ZONES.

(** The clean rows a leakage group of pickup location [p] is made of. *)
Definition leakage_members (clean : list Trip) (p : option Z) : list Trip :=
  List.filter (fun t => key_eqb (pickup_loc (row t)) p)
              (Polars.filter leakage_filter clean).

(** The surcharge of a row is the float zero (of either sign). *)
Definition unpaid (t : Trip) : bool :=
  match congestion_surcharge (row t) with
  | Some s => PrimFloat.eqb s 0%float
  | None => false
  end.

(** Trips from zones 7 and 8 into the zone, one of them paid, one trip inside
    the zone, and one that is too fast. *)
Definition sample_trips : list Row :=
  [ trip_row jan1_1pm (jan1_1pm + 30 * us_minute) 7 161 3 15 0;
    trip_row jan1_1pm (jan1_1pm + 30 * us_minute) 7 161 3 15 2.5;
    trip_row jan1_1pm (jan1_1pm + 30 * us_minute) 8 161 3 15 0;
    trip_row jan1_1pm (jan1_1pm + 30 * us_minute) 161 161 3 15 0;
    trip_row (jan1_1pm + 1440 * us_minute) (jan1_1pm + 1470 * us_minute)
             7 12 3 15 0;
    too_fast ].

(** A year of dry days, and a run over January's two files. *)
Definition dry_year : list float := repeat 0%float 365.

Definition january_world : World :=
  {| sources := january; precipitation_sum := dry_year |}.

Definition january_rows : list Row :=
  [select_yellow yellow_paid; select_green green_null_surcharge].

Definition january_weather : list WeatherRow :=
  map (fun d => mkWeatherRow d 0%float) weather_dates.

Definition january_outputs : Outputs :=
  {| ghost_audit := [];
     leakage_audit := [mkLeakageRow (Some 7) 1 1; mkLeakageRow (Some 8) 1 0];
     weather_elasticity := [mkElasticityRow (Some 20089) 0%float 2] |}.

(** ** Further notions *)

(** A Date value is a day of 2025. *)
Definition in_2025 (d : option Z) : bool :=
  match d with
  | Some n => (days_from_civil 2025 1 1 <=? n) && (n <=? days_from_civil 2025 12 31)
  | None => false
  end.

(** The rows a class contributes: those of its months that are there, in
    month order. *)
Definition month_rows {A} (file : nat -> option (list A)) : list A :=
  flat_map (fun m => match file m with Some f => f | None => [] end) months.

Definition has_month {A} (file : nat -> option (list A)) : Prop :=
  exists m, In m months /\ file m <> None.

(** ** The range of the calendar columns *)

(** A row whose pickup time, if it has one, lies between 1970-01-01 and the
    end of year 9999.  There the engine's [dt.date()], [dt.hour()],
    [dt.weekday()] and [dt.truncate("1mo")] are the calendar arithmetic of
    [dt_date], [dt_hour], [dt_weekday] and [truncate_1mo].  Far beyond it
    the engine answers a null hour or date, or fails to truncate (a Date is
    a 32-bit day number, and the engine's calendar ends), which those
    definitions do not show: what is said of the calendar columns is said of
    rows in this range. *)
Definition in_calendar_range (tu : TimeUnit) (r : Row) : bool :=
  match pickup_time r with
  | Some p => (0 <=? p) && (p <? datetime tu 10000 1 1)
  | None => true
  end.

(** A row whose date, if it has one, is a 32-bit day number. *)
Definition date_fits (tu : TimeUnit) (r : Row) : bool :=
  match pickup_time r with
  | Some p => (- 2 ^ 31 <=? dt_date tu p) && (dt_date tu p <? 2 ^ 31)
  | None => true
  end.

(** ** Listed files that cannot be read *)

(** What a listed path holds: a Parquet file of its class with its rows, or
    bytes that are no Parquet file.  [download_file] answers true for every
    path that exists, so a file that a broken download left behind is
    listed by the next run. *)
Inductive Listed (A : Type) : Type :=
| Parquet (rows : list A)
| NotParquet.

Arguments Parquet {A} rows.
Arguments NotParquet {A}.

(** The paths the download loop lists, by class and month. *)
Record Listing : Type := mkListing {
  yellow_paths : nat -> option (Listed Yellow.t);
  green_paths : nat -> option (Listed Green.t)
}.

Definition listed {A} (file : nat -> option (Listed A)) : list (Listed A) :=
  flat_map (fun m => match file m with Some f => [f] | None => [] end) months.

(** Reading the files of a scan in order: one that is no Parquet file
    raises. *)
Fixpoint read_parquet {A} (files : list (Listed A)) : result (list A) :=
  match files with
  | [] => Ok []
  | Parquet rows :: files' =>
      bind (read_parquet files') (fun rest => Ok (rows ++ rest))
  | NotParquet :: _ => ComputeError
  end.

(** [pl.scan_parquet(files)] once collected, over listed files. *)
Definition scan_parquet_files {A} (files : list (Listed A)) : result (list A) :=
  match files with
  | [] => ComputeError
  | _ :: _ => read_parquet files
  end.

(** [ingest_and_unify] over the listed files. *)
Definition ingest_and_unify_files (l : Listing) : result (list Row) :=
  bind (bind (scan_parquet_files (listed (yellow_paths l)))
             (fun rows => Ok (map select_yellow rows)))
       (fun y =>
          bind (bind (scan_parquet_files (listed (green_paths l)))
                     (fun rows => Ok (map select_green rows)))
               (fun g => Ok (y ++ g))).

Definition is_listed {A} (file : nat -> option (Listed A)) : Prop :=
  exists m, In m months /\ file m <> None.

Definition readable {A} (file : nat -> option (Listed A)) : Prop :=
  forall m, In m months -> file m <> Some NotParquet.

(** The rows of the listed files that are Parquet files. *)
Definition rows_of {A} (file : nat -> option (Listed A)) (m : nat)
  : option (list A) :=
  match file m with
  | Some (Parquet rows) => Some rows
  | _ => None
  end.

Definition sources_of (l : Listing) : Sources :=
  {| yellow_tripdata := rows_of (yellow_paths l);
     green_tripdata := rows_of (green_paths l) |}.

(** January of both classes, and January with a yellow file that a broken
    download left. *)
Definition january_listing : Listing :=
  {| yellow_paths := fun m => if Nat.eqb m 1 then Some (Parquet [yellow_paid])
                              else None;
     green_paths := fun m => if Nat.eqb m 1
                             then Some (Parquet [green_null_surcharge])
                             else None |}.

Definition january_broken : Listing :=
  {| yellow_paths := fun m => if Nat.eqb m 1 then Some NotParquet else None;
     green_paths := green_paths january_listing |}.

(** ** The velocity and economics tables *)

(** [group_by] on several key columns: the groups in order of first
    appearance, for any key type with its equality test. *)
Fixpoint insert_group_with {K A} (eqb : K -> K -> bool) (k : K) (x : A)
         (gs : list (K * list A)) : list (K * list A) :=
  match gs with
  | [] => [(k, [x])]
  | (k', xs) :: gs' =>
      if eqb k k' then (k', xs ++ [x]) :: gs'
      else (k', xs) :: insert_group_with eqb k x gs'
  end.

Definition group_by_with {K A} (eqb : K -> K -> bool) (key : A -> K)
           (l : list A) : list (K * list A) :=
  fold_left (fun gs x => insert_group_with eqb (key x) x gs) l [].

Definition key2_eqb (a b : option Z * option Z) : bool :=
  key_eqb (fst a) (fst b) && key_eqb (snd a) (snd b).

(** The civil date (year, month, day) of a day number. *)
Definition civil_from_days (n : Z) : Z * Z * Z :=
  let z := n + 719468 in
  let era := z / 146097 in
  let doe := z - era * 146097 in
  let yoe := (doe - doe / 1460 + doe / 36524 - doe / 146096) / 365 in
  let doy := doe - (365 * yoe + yoe / 4 - yoe / 100) in
  let mp := (5 * doy + 2) / 153 in
  let d := doy - (153 * mp + 2) / 5 + 1 in
  let m := if mp <? 10 then mp + 3 else mp - 9 in
  (if m <=? 2 then yoe + era * 400 + 1 else yoe + era * 400, m, d).

(** [dt.truncate("1mo")] on a Date: the first day of its month. *)
Definition truncate_1mo (n : Z) : Z :=
  let '(y, m, _) := civil_from_days n in days_from_civil y m 1.

Record VelocityRow : Type := mkVelocityRow {
  v_weekday : option Z;
  v_hour : option Z;
  avg_speed : option float
}.

Record EconomicsRow : Type := mkEconomicsRow {
  month : option Z;
  avg_surcharge : option float;
  avg_tip_amt : option float
}.

(** The values of a column that are not null. *)
Definition drop_nulls {A} (col : list (option A)) : list A :=
  flat_map (fun o => match o with Some v => [v] | None => [] end) col.

Section Means.

(** The engine's mean of a non-empty list of floats; the order in which it
    adds them up is its own. *)
Variable mean : list float -> float.

(** [.mean()] of a column: nulls are skipped, and the mean of no value is
    null. *)
Definition col_mean (col : list (option float)) : option float :=
  match drop_nulls col with
  | [] => None
  | v :: vs => Some (mean (v :: vs))
  end.

(** B. Velocity heat map. *)
Definition velocity_agg (clean : list Trip) : list VelocityRow :=
  map (fun g => {| v_weekday := fst (fst g);
                   v_hour := snd (fst g);
                   avg_speed := col_mean (map speed_mph (snd g)) |})
      (group_by_with key2_eqb
                     (fun t => (weekday (timed t), hour (timed t)))
                     (velocity_rows clean)).

(** C. Economics: surcharge and the approximate tip by month; the table of
    a collect that succeeds (see [economics_collect]). *)
Definition economics_agg (clean : list Trip) : list EconomicsRow :=
  map (fun g =>
         {| month := fst g;
            avg_surcharge :=
              col_mean (map (fun t => congestion_surcharge (row t)) (snd g));
            avg_tip_amt :=
              col_mean (map (fun t => lift2 PrimFloat.sub (total_amount (row t))
                                            (fare (row t)))
                            (snd g)) |})
      (group_by (fun t => lift1 truncate_1mo (date (timed t))) clean).

(** Whether the engine's [dt.truncate("1mo")] answers on a Date: it fails on
    a date beyond the engine's calendar. *)
Variable truncates : Z -> bool.

(** [economics_agg.collect()]: no table when a date cannot be truncated. *)
Definition economics_collect (clean : list Trip) : option (list EconomicsRow) :=
  if forallb (fun t => match date (timed t) with
                       | Some d => truncates d
                       | None => true
                       end) clean
  then Some (economics_agg clean)
  else None.

End Means.

(** A check of [f] on the [p] integers from [start] on. *)
Fixpoint all_from (p : positive) (start : Z) (f : Z -> bool) : bool :=
  match p with
  | xH => f start
  | xO p' => all_from p' start f && all_from p' (start + Z.pos p') f
  | xI p' => f start && all_from p' (start + 1) f
             && all_from p' (start + 1 + Z.pos p') f
  end.

(** Within a 400-year era that starts on a 1 March: the year of a day of the
    era, the first day of a year, and month (counted from March, and civil)
    and day of a day of the year. *)
Definition era_year (doe : Z) : Z :=
  (doe - doe / 1460 + doe / 36524 - doe / 146096) / 365.

Definition year_start (yoe : Z) : Z := 365 * yoe + yoe / 4 - yoe / 100.

Definition year_parts (doy : Z) : Z * Z * Z :=
  let mp := (5 * doy + 2) / 153 in
  (mp, if mp <? 10 then mp + 3 else mp - 9, doy - (153 * mp + 2) / 5 + 1).

(** The facts checked year by year and day by day. *)
Definition era_year_ok (y : Z) : bool :=
  (era_year (year_start y) =? y) &&
  (era_year (year_start (y + 1) - 1) =? y) &&
  (year_start (y + 1) - year_start y <=? 366) &&
  (year_start y <=? year_start (y + 1)).

Definition year_day_ok (doy : Z) : bool :=
  let '(mp, m, d) := year_parts doy in
  let '(mp1, m1, d1) := year_parts (doy - (d - 1)) in
  (0 <=? mp) && (mp <=? 11) && (1 <=? d) && (d <=? 31) &&
  ((m + 9) mod 12 =? mp) && (1 <=? m) && (m <=? 12) &&
  (mp1 =? mp) && (d1 =? 1) && (doy - (d - 1) =? (153 * mp + 2) / 5).

(** ** download_file and the download loop *)

(** What the network answers to [requests.get(url, stream=True)]: a status
    code and a body that streams its chunks and then ends or breaks, or no
    answer at all (the request raises). *)
Inductive Response : Type :=
| Answer (status_code : Z) (chunks : list string) (breaks : bool)
| RequestRaises.

(** The outside of the program: the network, and whether a path can be
    opened for writing. *)
Record Outside : Type := mkOutside {
  http_get : string -> Response;
  can_open : string -> bool
}.

(** The lines the ingestion prints. *)
Inductive Line : Type :=
| Phase1                       (* --- Phase 1: Automated Ingestion --- *)
| Downloading (url : string)   (* [Downloading] url ... *)
| DownloadError (url : string) (* [Error] Failed to download url: ... *)
| DecemberMissing.             (* Dec 2025 missing. ... *)

(** The machine: the files on disk, the requests sent and the lines
    printed, oldest first. *)
Record Machine : Type := mkMachine {
  files : string -> option string;
  requests : list string;
  console : list Line
}.

(** [os.path.exists]. *)
Definition path_exists (st : Machine) (path : string) : bool :=
  match files st path with Some _ => true | None => false end.

Definition print (l : Line) (st : Machine) : Machine :=
  {| files := files st; requests := requests st;
     console := console st ++ [l] |}.

Definition send (url : string) (st : Machine) : Machine :=
  {| files := files st; requests := requests st ++ [url];
     console := console st |}.

(** The file after [open(path, "wb")] and the writes of the chunks. *)
Definition write_file (path content : string) (st : Machine) : Machine :=
  {| files := fun p => if String.eqb p path then Some content else files st p;
     requests := requests st; console := console st |}.

Definition download_file (out : Outside) (url local_path : string)
           (st : Machine) : bool * Machine :=
  if path_exists st local_path then (true, st)
  else
    let st1 := send url (print (Downloading url) st) in
    match http_get out url with
    | RequestRaises => (false, print (DownloadError url) st1)
    | Answer status_code chunks breaks =>
        if status_code =? 200 then
          if can_open out local_path then
            let st2 := write_file local_path (String.concat "" chunks) st1 in
            if breaks then (false, print (DownloadError url) st2)
            else (true, st2)
          else (false, print (DownloadError url) st1)
        else (false, st1)
    end.

Definition DATA_DIR : string := "./data".
Definition BASE_URL : string := "https://d37ci6vzurychx.cloudfront.net/trip-data".

(** [f"{month:02d}"]. *)
Definition month_str (month : nat) : string :=
  let s := NilEmpty.string_of_uint (Nat.to_uint month) in
  if (String.length s <? 2)%nat then ("0" ++ s)%string else s.

Definition y_name (month : nat) : string :=
  ("yellow_tripdata_2025-" ++ month_str month ++ ".parquet")%string.

Definition g_name (month : nat) : string :=
  ("green_tripdata_2025-" ++ month_str month ++ ".parquet")%string.

Definition url_of (name : string) : string := (BASE_URL ++ "/" ++ name)%string.
Definition path_of (name : string) : string := (DATA_DIR ++ "/" ++ name)%string.

(** One turn of the download loop, on the two path lists and the machine. *)
Definition download_month (out : Outside) (month : nat)
           (acc : list string * list string * Machine)
  : list string * list string * Machine :=
  let '(ys, gs, st) := acc in
  let '(y_ok, st1) :=
    download_file out (url_of (y_name month)) (path_of (y_name month)) st in
  let ys' := if y_ok then ys ++ [path_of (y_name month)] else ys in
  let '(g_ok, st2) :=
    download_file out (url_of (g_name month)) (path_of (g_name month)) st1 in
  let gs' := if g_ok then gs ++ [path_of (g_name month)] else gs in
  let st3 :=
    if Nat.eqb month 12 && negb (path_exists st2 (path_of (y_name month)))
    then print DecemberMissing st2 else st2 in
  (ys', gs', st3).

(** The loop of [ingest_and_unify]: the paths to scan, and the machine
    after it. *)
Definition download_loop (out : Outside) (st : Machine)
  : list string * list string * Machine :=
  fold_left (fun acc month => download_month out month acc) months
            ([], [], print Phase1 st).

(** A file is there for the loop: on disk already, or its download answers
    200, streams to the end and can be written. *)
Definition downloads (out : Outside) (name : string) : bool :=
  match http_get out (url_of name) with
  | Answer status_code _ breaks =>
      (status_code =? 200) && can_open out (path_of name) && negb breaks
  | RequestRaises => false
  end.

Definition available (out : Outside) (st : Machine) (name : string) : bool :=
  path_exists st (path_of name) || downloads out name.

(** The names of the loop, in the order it visits them. *)
Definition loop_names : list string :=
  flat_map (fun month => [y_name month; g_name month]) months.

(** A sample outside: January's yellow file streams half and breaks. *)
Definition broken_january : Outside :=
  {| http_get := fun url =>
       if String.eqb url (url_of (y_name 1)) then Answer 200 ["PAR1"%string] true
       else Answer 404 [] false;
     can_open := fun _ => true |}.

Definition empty_machine : Machine :=
  {| files := fun _ => None; requests := []; console := [] |}.

(** The strings of a list are pairwise different. *)
Fixpoint distinct (l : list string) : bool :=
  match l with
  | [] => true
  | s :: l' => negb (existsb (String.eqb s) l') && distinct l'
  end.

(** ** The output files and the dashboard *)

(** A table as it is written to, and read from, its CSV file. *)
Inductive Frame : Type :=
| GhostFrame (t : list (option Z * nat))
| LeakageFrame (t : list LeakageRow)
| VelocityFrame (t : list VelocityRow)
| EconomicsFrame (t : list EconomicsRow)
| WeatherFrame (t : list ElasticityRow).

(** The CSV files of the output directory, by the path the programs use for
    them.  What a run writes elsewhere (the Parquet files under [DATA_DIR],
    the cache of the weather session) is not part of it. *)
Definition OutDir : Type := string -> option Frame.

Definition OUTPUT_DIR : string := "./outputs".

Definition output_path (name : string) : string :=
  (OUTPUT_DIR ++ "/" ++ name)%string.

(** [write_csv]: the file is created or overwritten. *)
Definition write_csv (path : string) (f : Frame) (dir : OutDir) : OutDir :=
  fun p => if String.eqb p path then Some f else dir p.

(** The five files of a run, in the order it writes them. *)
Definition OUTPUT_FILES : list string :=
  ["ghost_audit.csv"; "leakage_audit.csv"; "velocity_heatmap.csv";
   "economics.csv"; "weather_elasticity.csv"]%string.

(** How a run ends: at its last line, or where it raises. *)
Inductive Ending : Type :=
| PipelineComplete
| ScanRaises       (* the first collect: a class without a file, or a file
                      that is no Parquet file *)
| TruncateRaises   (* the economics collect: a date that cannot be truncated *)
| WeatherRaises.   (* fetch_weather: no answer of the archive, or a column
                      of another length than the dates *)

Section Run.
Variable mean : list float -> float.
Variable truncates : Z -> bool.

(** [run_pipeline] with its writes to the output directory: the four tables
    of the trips are collected and written one after the other, then the
    weather is fetched and the joined table written.  An error ends the run
    where it is raised.  [archive] is what the weather archive answers, if
    it answers.  The tables are written in the row order of this
    development; the engine's order among groups, equal counts and joined
    rows is its own. *)
Definition run_pipeline_files (tu : TimeUnit) (l : Listing)
           (archive : option (list float)) (dir : OutDir)
  : Ending * OutDir :=
  match ingest_and_unify_files l with
  | Ok q0 =>
      let q := with_features tu q0 in
      let clean := q_clean q in
      let dir1 := write_csv (output_path "ghost_audit.csv")
                            (GhostFrame (ghost_stats q)) dir in
      let dir2 := write_csv (output_path "leakage_audit.csv")
                            (LeakageFrame (leakage_agg clean)) dir1 in
      let dir3 := write_csv (output_path "velocity_heatmap.csv")
                            (VelocityFrame (velocity_agg mean clean)) dir2 in
      match economics_collect mean truncates clean with
      | Some economics =>
          let dir4 := write_csv (output_path "economics.csv")
                                (EconomicsFrame economics) dir3 in
          match archive with
          | Some values =>
              match fetch_weather values with
              | Ok weather_df =>
                  (PipelineComplete,
                   write_csv (output_path "weather_elasticity.csv")
                             (WeatherFrame
                                (weather_join weather_df (daily_counts clean)))
                             dir4)
              | _ => (WeatherRaises, dir4)
              end
          | None => (WeatherRaises, dir4)
          end
      | None => (TruncateRaises, dir3)
      end
  | _ => (ScanRaises, dir)
  end.

End Run.

(** A file holds a table of the run, up to the order of its rows. *)
Definition holds_ghost (file : option Frame) (q : list Trip) : Prop :=
  exists g, file = Some (GhostFrame g) /\ Permutation g (ghost_stats q).

Definition holds_leakage (file : option Frame) (clean : list Trip) : Prop :=
  exists lk, file = Some (LeakageFrame lk) /\ is_leakage_agg clean lk.

Definition holds_velocity (mean : list float -> float) (file : option Frame)
           (clean : list Trip) : Prop :=
  exists v, file = Some (VelocityFrame v) /\
            Permutation v (velocity_agg mean clean).

Definition holds_economics (mean : list float -> float) (file : option Frame)
           (clean : list Trip) : Prop :=
  exists e, file = Some (EconomicsFrame e) /\
            Permutation e (economics_agg mean clean).

Definition holds_weather (file : option Frame) (values : list float)
           (clean : list Trip) : Prop :=
  exists weather_df w,
    fetch_weather values = Ok weather_df /\
    file = Some (WeatherFrame w) /\
    Permutation w (weather_join weather_df (daily_counts clean)).

(** dashboard.py: the body of [load_data] answers the five frames, or five
    times None when a file is not found. *)
Definition Frames : Type :=
  (option Frame * option Frame * option Frame * option Frame * option Frame)%type.

Definition load_data (dir : OutDir) : Frames :=
  match dir "./outputs/leakage_audit.csv"%string,
        dir "./outputs/velocity_heatmap.csv"%string,
        dir "./outputs/weather_elasticity.csv"%string,
        dir "./outputs/economics.csv"%string,
        dir "./outputs/ghost_audit.csv"%string with
  | Some leakage, Some velocity, Some weather, Some economics, Some ghost =>
      (Some leakage, Some velocity, Some weather, Some economics, Some ghost)
  | _, _, _, _, _ => (None, None, None, None, None)
  end.

(** [@st.cache_data]: the answer of the first call is kept by the server and
    given again to every later call. *)
Definition load_data_cached (cache : option Frames) (dir : OutDir)
  : Frames * option Frames :=
  match cache with
  | Some kept => (kept, cache)
  | None => (load_data dir, Some (load_data dir))
  end.

(** What the page shows: the error and a stop when [leakage_df] is None, the
    four tabs over the five frames otherwise; the tabs need every frame. *)
Inductive Page : Type :=
| DataNotFound
| Tabs (leakage velocity weather economics ghost : Frame)
| TabFails.

Definition render (loaded : Frames) : Page :=
  match loaded with
  | (None, _, _, _, _) => DataNotFound
  | (Some leakage, Some velocity, Some weather, Some economics, Some ghost) =>
      Tabs leakage velocity weather economics ghost
  | _ => TabFails
  end.

(** A view of the page by a server with the given cache. *)
Definition view (cache : option Frames) (dir : OutDir) : Page * option Frames :=
  (render (fst (load_data_cached cache dir)), snd (load_data_cached cache dir)).

(** The first view of a server. *)
Definition dashboard (dir : OutDir) : Page := fst (view None dir).

(** The banner under the rain elasticity score. *)
Inductive Banner : Type :=
| InelasticDemand   (* st.info: people keep riding taxis even when it rains *)
| ElasticDemand.    (* st.warning: rain significantly changes ridership *)

Definition elasticity_banner (corr : float) : Banner :=
  if PrimFloat.ltb (PrimFloat.abs corr) 0x1.3333333333333p-2%float
  then InelasticDemand else ElasticDemand.

(** An empty output directory. *)
Definition no_outputs : OutDir := fun _ => None.

(** ** Ingestion *)

Lemma scan_parquet_empty {A} : @scan_parquet A [] = ComputeError.
Proof. reflexivity. Qed.

Lemma scan_parquet_ok {A} (files : list (list A)) :
  files <> [] -> scan_parquet files = Ok (concat files).
Proof. destruct files; [congruence | reflexivity]. Qed.

(** With files of both classes the unified relation is the yellow projection
    followed by the green one. *)
Lemma ingest_and_unify_ok (s : Sources) :
  yellow_files s <> [] -> green_files s <> [] ->
  ingest_and_unify s =
  Ok (map select_yellow (concat (yellow_files s)) ++
      map select_green (concat (green_files s))).
Proof.
  intros Hy Hg. unfold ingest_and_unify, q_yellow, q_green.
  rewrite (scan_parquet_ok _ Hy), (scan_parquet_ok _ Hg). reflexivity.
Qed.

(** With no file of one class the query raises, whatever the other class
    holds. *)
Lemma ingest_and_unify_no_yellow (s : Sources) :
  yellow_files s = [] -> ingest_and_unify s = ComputeError.
Proof.
  intros Hy. unfold ingest_and_unify, q_yellow. rewrite Hy. reflexivity.
Qed.

Lemma ingest_and_unify_no_green (s : Sources) :
  green_files s = [] -> ingest_and_unify s = ComputeError.
Proof.
  intros Hg. unfold ingest_and_unify, q_yellow, q_green. rewrite Hg.
  destruct (yellow_files s); reflexivity.
Qed.

(** Every row of a successful ingestion is a projected source row. *)
Lemma ingest_and_unify_rows (s : Sources) (q : list Row) :
  ingest_and_unify s = Ok q ->
  forall r, In r q ->
    (exists y, r = select_yellow y) \/ (exists g, r = select_green g).
Proof.
  unfold ingest_and_unify, q_yellow, q_green. intros H r Hr.
  destruct (scan_parquet (yellow_files s)) as [ys| |]; simpl in H; try discriminate.
  destruct (scan_parquet (green_files s)) as [gs| |]; simpl in H; try discriminate.
  injection H as <-. apply in_app_or in Hr as [Hr|Hr];
    apply in_map_iff in Hr as [x [<- _]]; eauto.
Qed.

(** C5 (the code departs from the claim): with every yellow download failing
    and a green file present, the yellow file list is empty, the green one is
    not, and the unified query raises instead of yielding the green rows. *)
Theorem ingest_empty_class_raises :
  yellow_files green_only = [] /\
  green_files green_only = [[green_null_surcharge]] /\
  q_green green_only = Ok [select_green green_null_surcharge] /\
  ingest_and_unify green_only = ComputeError.
Proof. repeat split; reflexivity. Qed.

(** C7: a null congestion_surcharge in a source row of either class becomes
    0.0 in the projection, a present one is kept, and so every row of the
    unified relation, and every row the feature step hands on, has a
    congestion_surcharge that is not null. *)
Theorem surcharge_null_coalesced (tu : TimeUnit) (s : Sources) (q : list Row) :
  ingest_and_unify s = Ok q ->
  (forall y, congestion_surcharge (select_yellow y) =
             match Yellow.congestion_surcharge y with
             | Some v => Some v | None => Some 0%float end) /\
  (forall g, congestion_surcharge (select_green g) =
             match Green.congestion_surcharge g with
             | Some v => Some v | None => Some 0%float end) /\
  (forall r, In r q -> congestion_surcharge r <> None) /\
  (forall t, In t (with_features tu q) ->
             congestion_surcharge (row t) <> None).
Proof.
  intros H.
  assert (Hq : forall r, In r q -> congestion_surcharge r <> None).
  { intros r Hr. destruct (ingest_and_unify_rows s q H r Hr) as [[y ->]|[g ->]]; simpl.
    - destruct (Yellow.congestion_surcharge y); discriminate.
    - destruct (Green.congestion_surcharge g); discriminate. }
  split; [|split; [|split]].
  - intros y. reflexivity.
  - intros g. reflexivity.
  - exact Hq.
  - intros t Ht. unfold with_features in Ht.
    apply in_map_iff in Ht as [t' [<- Ht']].
    apply in_map_iff in Ht' as [r [<- Hr]]. simpl. apply Hq, Hr.
Qed.

Lemma surcharge_null_coalesced_witness :
  ingest_and_unify january = Ok [select_yellow yellow_paid;
                                 select_green green_null_surcharge] /\
  congestion_surcharge (select_green green_null_surcharge) = Some 0%float.
Proof.
  split; [reflexivity|].
  pose proof (surcharge_null_coalesced Microseconds january _ eq_refl)
    as [_ [Hg _]].
  exact (Hg green_null_surcharge).
Defined.

(** ** Feature engineering *)

Lemma ticks_per_minute_pos (tu : TimeUnit) : 0 < ticks_per_minute tu.
Proof. destruct tu; reflexivity. Qed.

Lemma wrap64_small (z : Z) : - 2 ^ 63 <= z < 2 ^ 63 -> wrap64 z = z.
Proof.
  intros H. unfold wrap64. rewrite Z.mod_small; lia.
Qed.

Lemma with_features_map (tu : TimeUnit) (q : list Row) :
  with_features tu q = map (derive tu) q.
Proof. unfold with_features, derive. apply map_map. Qed.

Lemma in_with_features (tu : TimeUnit) (q : list Row) (t : Trip) :
  In t (with_features tu q) <-> exists r, In r q /\ t = derive tu r.
Proof.
  rewrite with_features_map, in_map_iff. split; intros [r [H1 H2]]; eauto.
Qed.

Lemma duration_min_derive (tu : TimeUnit) (r : Row) :
  duration_min (timed (derive tu r)) =
  match dropoff_time r, pickup_time r with
  | Some d, Some p => Some (Z.quot (wrap64 (d - p)) (ticks_per_minute tu))
  | _, _ => None
  end.
Proof.
  simpl. destruct (dropoff_time r), (pickup_time r); reflexivity.
Qed.

Lemma exact_minutes_whole (tu : TimeUnit) (p d m : Z) :
  inject_Z m == exact_minutes tu p d <-> m * ticks_per_minute tu = d - p.
Proof.
  unfold exact_minutes, Qeq. simpl.
  rewrite Z2Pos.id by apply ticks_per_minute_pos. lia.
Qed.

(** C2, as the claim states it, fails: a trip of ninety seconds gets
    duration_min = 1, and one and a half minutes is the exact difference. *)
Lemma duration_min_not_exact :
  duration_min (timed (derive Microseconds ninety_seconds)) = Some 1 /\
  exact_minutes Microseconds jan1_1pm (jan1_1pm + 90000000) == 3 # 2 /\
  ~ inject_Z 1 == exact_minutes Microseconds jan1_1pm (jan1_1pm + 90000000).
Proof.
  split; [reflexivity|]. split; [reflexivity|].
  rewrite exact_minutes_whole. vm_compute. discriminate.
Qed.

Lemma wrap64_spec (z : Z) :
  - 2 ^ 63 <= wrap64 z < 2 ^ 63 /\ exists k, wrap64 z = z + k * 2 ^ 64.
Proof.
  unfold wrap64.
  pose proof (Z.mod_pos_bound (z + 2 ^ 63) (2 ^ 64) ltac:(lia)) as Hb.
  split; [lia|]. exists (- ((z + 2 ^ 63) / 2 ^ 64)).
  pose proof (Z.div_mod (z + 2 ^ 63) (2 ^ 64) ltac:(lia)). lia.
Qed.

(** The subtraction is Int64's: timestamps more than 2^63 ticks apart give a
    duration_min of the wrong sign. *)
Lemma duration_min_wraps :
  duration_min (timed (derive Microseconds far_apart)) = Some (-153722867275) /\
  0 < (2 ^ 62 + 5 * us_minute) - (- 2 ^ 62).
Proof. split; reflexivity. Qed.

(** C2, amended: for a row with both timestamps, duration_min is their
    difference as Int64 computes it (the value in the Int64 range that
    differs from the true difference by a multiple of 2^64; the true
    difference itself whenever that fits), truncated toward zero to whole
    minutes.  When the true difference fits in Int64, duration_min is
    therefore that difference truncated toward zero: it has the sign of the
    difference, differs from it by less than a minute, and is the exact
    difference precisely when that is a whole number of minutes.  Zero and
    negative differences are kept. *)
Theorem duration_min_truncated (tu : TimeUnit) (r : Row) (p d : Z) :
  pickup_time r = Some p -> dropoff_time r = Some d ->
  (exists diff,
     duration_min (timed (derive tu r)) =
       Some (Z.quot diff (ticks_per_minute tu)) /\
     - 2 ^ 63 <= diff < 2 ^ 63 /\
     (exists k, diff = d - p + k * 2 ^ 64) /\
     (- 2 ^ 63 <= d - p < 2 ^ 63 -> diff = d - p)) /\
  (- 2 ^ 63 <= d - p < 2 ^ 63 ->
   exists m,
     duration_min (timed (derive tu r)) = Some m /\
     m = Z.quot (d - p) (ticks_per_minute tu) /\
     0 <= m * (d - p) /\
     Z.abs (d - p - m * ticks_per_minute tu) < ticks_per_minute tu /\
     (inject_Z m == exact_minutes tu p d <->
      Z.rem (d - p) (ticks_per_minute tu) = 0)).
Proof.
  intros Hp Hd.
  pose proof (ticks_per_minute_pos tu) as Hpos.
  split.
  { exists (wrap64 (d - p)).
    rewrite duration_min_derive, Hp, Hd.
    split; [reflexivity|].
    destruct (wrap64_spec (d - p)) as [Hb Hk].
    split; [exact Hb|]. split; [exact Hk|]. apply wrap64_small. }
  intros Hr.
  exists (Z.quot (d - p) (ticks_per_minute tu)).
  rewrite duration_min_derive, Hp, Hd, (wrap64_small _ Hr).
  set (a := d - p) in *. set (b := ticks_per_minute tu) in *.
  pose proof (Z.quot_rem' a b) as Hqr.
  pose proof (Z.rem_bound_abs a b ltac:(lia)) as Hab.
  split; [reflexivity|]. split; [reflexivity|].
  split; [|split].
  - destruct (Z.le_gt_cases 0 a) as [Ha|Ha].
    + apply Z.mul_nonneg_nonneg; [apply Z.quot_pos|]; lia.
    + assert (Z.quot a b <= 0).
      { rewrite <- (Z.opp_involutive a), Z.quot_opp_l by lia.
        pose proof (Z.quot_pos (- a) b ltac:(lia) ltac:(lia)). lia. }
      nia.
  - replace (a - Z.quot a b * b) with (Z.rem a b) by lia. lia.
  - rewrite exact_minutes_whole. fold a b. lia.
Qed.

Lemma duration_min_truncated_witness :
  exists m,
    duration_min (timed (derive Microseconds ninety_seconds)) = Some m /\
    m = 1.
Proof.
  destruct (duration_min_truncated Microseconds ninety_seconds
              jan1_1pm (jan1_1pm + 90000000) eq_refl eq_refl)
    as [_ H].
  destruct H as [m [H1 [H2 _]]].
  - vm_compute. split; [discriminate | reflexivity].
  - exists m. split; [exact H1|]. rewrite H2. reflexivity.
Defined.

(** A null timestamp gives a null duration_min. *)
Lemma duration_min_null (tu : TimeUnit) (r : Row) :
  pickup_time r = None \/ dropoff_time r = None ->
  duration_min (timed (derive tu r)) = None.
Proof.
  rewrite duration_min_derive. intros [H|H]; rewrite H;
    destruct (dropoff_time r); reflexivity.
Qed.

(** C8: the feature step works row by row: it neither drops nor adds a row,
    each output row carries its input row unchanged, depends on that row alone,
    and the five added column names replace no column of the unified
    relation. *)
Theorem with_features_frame (tu : TimeUnit) (q q' : list Row) :
  with_features tu q = map (derive tu) q /\
  length (with_features tu q) = length q /\
  map row (with_features tu q) = q /\
  with_features tu (q ++ q') = with_features tu q ++ with_features tu q' /\
  replaced_columns unified_columns calendar_columns = [] /\
  replaced_columns (with_columns_schema unified_columns calendar_columns)
                   speed_columns = [] /\
  with_columns_schema (with_columns_schema unified_columns calendar_columns)
                      speed_columns =
  (unified_columns ++ calendar_columns ++ speed_columns)%list.
Proof.
  split; [apply with_features_map|].
  split; [unfold with_features; now rewrite !length_map|].
  split.
  - rewrite with_features_map, map_map. unfold row, derive. simpl.
    apply map_id.
  - split; [rewrite !with_features_map; apply map_app|].
    repeat split; reflexivity.
Qed.

(** ** The ghost / clean split *)

Lemma keep_true (b : option bool) : keep b = true <-> b = Some true.
Proof. destruct b as [[|]|]; simpl; split; congruence. Qed.

Lemma keep_not3 (b : option bool) : keep (not3 b) = true <-> b = Some false.
Proof. destruct b as [[|]|]; simpl; split; congruence. Qed.

Lemma in_filter {A} (p : A -> option bool) (l : list A) (a : A) :
  In a (Polars.filter p l) <-> In a l /\ p a = Some true.
Proof.
  unfold Polars.filter. rewrite filter_In, keep_true. reflexivity.
Qed.

Lemma in_ghost_trips (q : list Trip) (t : Trip) :
  In t (ghost_trips q) <-> In t q /\ ghost_criteria t = Some true.
Proof. apply in_filter. Qed.

Lemma in_q_clean (q : list Trip) (t : Trip) :
  In t (q_clean q) <-> In t q /\ ghost_criteria t = Some false.
Proof.
  unfold q_clean. rewrite in_filter.
  destruct (ghost_criteria t) as [[|]|]; simpl; intuition congruence.
Qed.

(** Filtering on a predicate and on its negation splits the rows on which the
    predicate is not null. *)
Lemma filter_split {A} (p : A -> option bool) (l : list A) :
  Permutation (Polars.filter p l ++ Polars.filter (fun a => not3 (p a)) l)
              (List.filter (fun a => decided (p a)) l).
Proof.
  unfold Polars.filter. induction l as [|a l IH]; simpl; [constructor|].
  destruct (p a) as [[|]|]; simpl.
  - now constructor.
  - apply Permutation_sym, Permutation_cons_app, Permutation_sym, IH.
  - exact IH.
Qed.

Lemma filter_all {A} (f : A -> bool) (l : list A) :
  (forall a, In a l -> f a = true) -> List.filter f l = l.
Proof.
  induction l as [|a l IH]; simpl; intros H; [reflexivity|].
  rewrite (H a (or_introl eq_refl)), IH; auto.
Qed.

(** On a row with its timestamps, distance and fare present the predicate is
    the plain disjunction of the three tests. *)
Lemma ghost_criteria_complete (tu : TimeUnit) (r : Row) (p d : Z) (td f : float) :
  pickup_time r = Some p -> dropoff_time r = Some d ->
  trip_distance r = Some td -> fare r = Some f ->
  let m := total_minutes tu (datetime_sub d p) in
  let speed := PrimFloat.div td (PrimFloat.div (i64_to_f64 m) 60%float) in
  duration_min (timed (derive tu r)) = Some m /\
  speed_mph (derive tu r) = Some speed /\
  ghost_criteria (derive tu r) =
  Some (tot_gt speed 65%float
        || (m <? 1) && tot_gt f 20%float
        || tot_eq td 0%float && tot_gt f 0%float).
Proof.
  intros Hp Hd Htd Hf. unfold ghost_criteria, row. simpl.
  rewrite Hp, Hd, Htd, Hf. simpl.
  repeat split.
  destruct (tot_gt _ 65%float), (_ <? 1), (tot_gt f 20%float),
    (tot_eq td 0%float), (tot_gt f 0%float); reflexivity.
Qed.

Lemma complete_decided (tu : TimeUnit) (r : Row) :
  complete r -> decided (ghost_criteria (derive tu r)) = true.
Proof.
  intros (Hp & Hd & Htd & Hf).
  destruct (pickup_time r) as [p|] eqn:Ep; [|congruence].
  destruct (dropoff_time r) as [d|] eqn:Ed; [|congruence].
  destruct (trip_distance r) as [td|] eqn:Etd; [|congruence].
  destruct (fare r) as [f|] eqn:Ef; [|congruence].
  destruct (ghost_criteria_complete tu r p d td f Ep Ed Etd Ef) as (_ & _ & ->).
  reflexivity.
Qed.

(** C1, as the claim states it, fails: the zero-distance trip with a null fare
    makes the predicate null, and the row is in neither subset. *)
Lemma null_fare_in_neither :
  In (derive Microseconds null_fare) (with_features Microseconds [null_fare]) /\
  ghost_criteria (derive Microseconds null_fare) = None /\
  ghost_trips (with_features Microseconds [null_fare]) = [] /\
  q_clean (with_features Microseconds [null_fare]) = [].
Proof.
  split; [left; reflexivity|]. repeat split; reflexivity.
Qed.

(** C1, amended: the ghost subset holds the rows on which the predicate is
    true, the clean subset those on which it is false; the two are disjoint
    for every input, and together they are exactly the rows on which the
    predicate is not null.  When every row has its timestamps, trip_distance
    and fare, the predicate is the disjunction of the three tests and the two
    subsets together are the full row set. *)
Theorem ghost_clean_partition (tu : TimeUnit) (q : list Row) :
  (forall t, In t (ghost_trips (with_features tu q)) <->
             In t (with_features tu q) /\ ghost_criteria t = Some true) /\
  (forall t, In t (q_clean (with_features tu q)) <->
             In t (with_features tu q) /\ ghost_criteria t = Some false) /\
  (forall t, In t (ghost_trips (with_features tu q)) ->
             ~ In t (q_clean (with_features tu q))) /\
  Permutation
    (ghost_trips (with_features tu q) ++ q_clean (with_features tu q))
    (List.filter (fun t => decided (ghost_criteria t)) (with_features tu q)) /\
  (Forall complete q ->
   Permutation
     (ghost_trips (with_features tu q) ++ q_clean (with_features tu q))
     (with_features tu q)).
Proof.
  split; [intros t; apply in_ghost_trips|].
  split; [intros t; apply in_q_clean|].
  split.
  - intros t Hg Hc. apply in_ghost_trips in Hg as [_ Hg].
    apply in_q_clean in Hc as [_ Hc]. congruence.
  - split; [apply filter_split|].
    intros Hq. eapply Permutation_trans; [apply filter_split|].
    rewrite filter_all; [apply Permutation_refl|].
    intros t Ht. apply in_with_features in Ht as [r [Hr ->]].
    apply complete_decided. rewrite Forall_forall in Hq. auto.
Qed.

Lemma ghost_clean_partition_witness :
  Forall complete [too_fast; plain_trip] /\
  Permutation
    (ghost_trips (with_features Microseconds [too_fast; plain_trip]) ++
     q_clean (with_features Microseconds [too_fast; plain_trip]))
    (with_features Microseconds [too_fast; plain_trip]).
Proof.
  assert (H : Forall complete [too_fast; plain_trip]).
  { repeat constructor; simpl; discriminate. }
  split; [exact H|].
  apply (ghost_clean_partition Microseconds [too_fast; plain_trip]), H.
Defined.

(** ** Zero duration and the speed test *)

Lemma zero_duration_divisor :
  PrimFloat.div (i64_to_f64 0) 60%float = 0%float.
Proof. reflexivity. Qed.

(** Dividing a distance that is not below zero by +0.0 gives +infinity or
    NaN. *)
Lemma div_zero_classes (td : float) :
  PrimFloat.ltb td 0%float = false ->
  Prim2SF (PrimFloat.div td 0%float) = S754_infinity false \/
  Prim2SF (PrimFloat.div td 0%float) = S754_nan.
Proof.
  rewrite FloatAxioms.ltb_spec, FloatAxioms.div_spec.
  change (Prim2SF 0%float) with (S754_zero false).
  destruct (Prim2SF td) as [s|s| |s m e]; simpl; auto;
    destruct s; simpl; auto; discriminate.
Qed.

Lemma SFcompare_refl (x : spec_float) :
  x <> S754_nan -> SFcompare x x = Some Eq.
Proof.
  destruct x as [s|s| |s m e]; simpl; intros H; try congruence.
  - destruct s; reflexivity.
  - rewrite Z.compare_refl, Pos.compare_cont_refl. destruct s; reflexivity.
Qed.

Lemma is_nan_spec (x : float) :
  PrimFloat.is_nan x = true <-> Prim2SF x = S754_nan.
Proof.
  unfold PrimFloat.is_nan. rewrite FloatAxioms.eqb_spec. unfold SFeqb. split.
  - intros H. destruct (Prim2SF x) eqn:E; try reflexivity;
      rewrite SFcompare_refl in H by discriminate; discriminate.
  - intros ->. reflexivity.
Qed.

Lemma infinity_spec (x : float) :
  x = infinity <-> Prim2SF x = S754_infinity false.
Proof.
  split; [intros ->; reflexivity|].
  intros H. apply Prim2SF_inj. rewrite H. reflexivity.
Qed.

(** +infinity and NaN are above every finite bound in the engine's order. *)
Lemma tot_gt_top (x bound : float) :
  PrimFloat.is_finite bound = true ->
  x = infinity \/ PrimFloat.is_nan x = true ->
  tot_gt x bound = true.
Proof.
  unfold PrimFloat.is_finite, PrimFloat.is_infinity.
  rewrite negb_true_iff, orb_false_iff. intros [Hn Hi] Hx.
  unfold tot_gt, tot_lt, tot_ge. rewrite Hn. simpl.
  rewrite negb_true_iff, FloatAxioms.leb_spec.
  assert (Hb : Prim2SF bound <> S754_nan).
  { intros E. apply is_nan_spec in E. congruence. }
  assert (Hb' : Prim2SF bound <> S754_infinity false).
  { intros E. apply infinity_spec in E. subst bound. discriminate. }
  destruct Hx as [Hx|Hx].
  - apply infinity_spec in Hx. rewrite Hx. unfold SFleb.
    destruct (Prim2SF bound) as [s|s| |s m e]; simpl; try reflexivity.
    destruct s; [reflexivity | congruence].
  - apply is_nan_spec in Hx. rewrite Hx. reflexivity.
Qed.

Lemma speed_test_top (t : Trip) (s : float) :
  speed_mph t = Some s ->
  s = infinity \/ PrimFloat.is_nan s = true ->
  ghost_criteria t = Some true.
Proof.
  intros Hs Hx. unfold ghost_criteria. rewrite Hs. simpl.
  rewrite (tot_gt_top s 65%float eq_refl Hx). reflexivity.
Qed.

Lemma in_velocity_rows (clean : list Trip) (t : Trip) :
  In t (velocity_rows clean) -> In t clean.
Proof. unfold velocity_rows. rewrite in_filter. tauto. Qed.

(** A row of zero duration whose distance is not below zero has speed
    +infinity or NaN. *)
Lemma zero_duration_speed (t0 : Timed) (td : float) :
  duration_min t0 = Some 0 ->
  trip_distance (base t0) = Some td ->
  PrimFloat.ltb td 0%float = false ->
  exists s, speed_mph (add_speed t0) = Some s /\
            (s = infinity \/ PrimFloat.is_nan s = true).
Proof.
  intros Hd Htd Hneg. unfold add_speed. cbn [speed_mph].
  rewrite Hd, Htd. cbn [lift1 lift2]. rewrite zero_duration_divisor. eexists. split; [reflexivity|].
  destruct (div_zero_classes td Hneg) as [H|H].
  - left. now apply infinity_spec.
  - right. now apply is_nan_spec.
Qed.

(** C3, as the claim states it, fails.  A row of zero duration and negative
    distance has speed -infinity, fails all three tests and is a clean row
    with a speed that is not finite.  So is a row whose distance, not
    negative, overflows the division by a negative duration; with its pickup
    inside the zone it is among the rows the velocity mean reads. *)
Lemma clean_row_not_finite :
  (duration_min (timed (derive Microseconds negative_distance)) = Some 0 /\
   speed_mph (derive Microseconds negative_distance) = Some neg_infinity /\
   ghost_criteria (derive Microseconds negative_distance) = Some false /\
   In (derive Microseconds negative_distance)
      (q_clean (with_features Microseconds [negative_distance])) /\
   ~ finite_speed (derive Microseconds negative_distance)) /\
  (speed_mph (derive Microseconds huge_distance) = Some neg_infinity /\
   In (derive Microseconds huge_distance)
      (velocity_rows (q_clean (with_features Microseconds [huge_distance]))) /\
   ~ finite_speed (derive Microseconds huge_distance)).
Proof.
  split.
  - split; [reflexivity|]. split; [reflexivity|]. split; [reflexivity|].
    split; [left; reflexivity|].
    intros H. specialize (H neg_infinity eq_refl). discriminate.
  - split; [reflexivity|]. split; [left; reflexivity|].
    intros H. specialize (H neg_infinity eq_refl). discriminate.
Qed.

(** C3, amended: a row of zero duration whose trip_distance is present and
    not below zero has speed_mph +infinity or NaN, which the engine's order
    puts above 65, so the row satisfies the ghost predicate and is no clean
    row; and no clean row, so no row the velocity mean reads, has speed_mph
    +infinity or NaN. *)
Theorem zero_duration_is_ghost (tu : TimeUnit) (q : list Row) (t : Trip) :
  In t (with_features tu q) ->
  (forall td,
     duration_min (timed t) = Some 0 ->
     trip_distance (row t) = Some td ->
     PrimFloat.ltb td 0%float = false ->
     (exists s, speed_mph t = Some s /\
                (s = infinity \/ PrimFloat.is_nan s = true)) /\
     ghost_criteria t = Some true /\
     In t (ghost_trips (with_features tu q)) /\
     ~ In t (q_clean (with_features tu q))) /\
  (In t (q_clean (with_features tu q)) ->
   forall s, speed_mph t = Some s ->
             s <> infinity /\ PrimFloat.is_nan s = false) /\
  (In t (velocity_rows (q_clean (with_features tu q))) ->
   forall s, speed_mph t = Some s ->
             s <> infinity /\ PrimFloat.is_nan s = false).
Proof.
  intros Ht.
  assert (Hclean : In t (q_clean (with_features tu q)) ->
                   forall s, speed_mph t = Some s ->
                             s <> infinity /\ PrimFloat.is_nan s = false).
  { intros Hc s Hs. apply in_q_clean in Hc as [_ Hc].
    split.
    - intros ->. rewrite (speed_test_top t _ Hs) in Hc by auto. discriminate.
    - destruct (PrimFloat.is_nan s) eqn:E; [|reflexivity].
      rewrite (speed_test_top t _ Hs) in Hc by auto. discriminate. }
  split; [|split; [exact Hclean|]].
  - intros td Hd Htd Hneg.
    pose proof Ht as Ht'.
    unfold with_features in Ht'. apply in_map_iff in Ht' as [t0 [<- _]].
    destruct (zero_duration_speed t0 td Hd Htd Hneg) as [s [Hs Hx]].
    pose proof (speed_test_top _ s Hs Hx) as Hg.
    split; [eauto|]. split; [exact Hg|].
    split; [apply in_ghost_trips; auto|].
    intros Hc. apply in_q_clean in Hc as [_ Hc]. congruence.
  - intros Hv. apply Hclean, in_velocity_rows, Hv.
Qed.

Lemma zero_duration_is_ghost_witness :
  ghost_criteria
    (derive Microseconds (trip_row jan1_1pm jan1_1pm 7 161 2 5 0)) = Some true.
Proof.
  pose (r := trip_row jan1_1pm jan1_1pm 7 161 2 5 0).
  destruct (zero_duration_is_ghost Microseconds [r] (derive Microseconds r))
    as [H _].
  - left. reflexivity.
  - destruct (H 2%float eq_refl eq_refl eq_refl) as [_ [Hg _]]. exact Hg.
Defined.

(** ** Grouping *)

Lemma key_eqb_eq (a b : option Z) : key_eqb a b = true <-> a = b.
Proof.
  destruct a as [x|], b as [y|]; simpl; try (split; congruence).
  rewrite Z.eqb_eq. split; congruence.
Qed.

Lemma key_eqb_refl (a : option Z) : key_eqb a a = true.
Proof. now apply key_eqb_eq. Qed.

Lemma group_by_snoc {A} (key : A -> option Z) (l : list A) (x : A) :
  group_by key (l ++ [x]) = insert_group (key x) x (group_by key l).
Proof. unfold group_by. now rewrite fold_left_app. Qed.

Lemma insert_group_keys {A} (k : option Z) (x : A) gs :
  In k (map fst gs) /\ map fst (insert_group k x gs) = map fst gs \/
  ~ In k (map fst gs) /\ map fst (insert_group k x gs) = map fst gs ++ [k].
Proof.
  induction gs as [|[k' xs] gs IH]; simpl.
  - right. split; [tauto | reflexivity].
  - destruct (key_eqb k k') eqn:E.
    + apply key_eqb_eq in E. subst k'. left. simpl. auto.
    + assert (k' <> k).
      { intros ->. rewrite key_eqb_refl in E. discriminate. }
      destruct IH as [[Hin Hm]|[Hnin Hm]]; [left | right]; simpl;
        rewrite Hm; split; auto; tauto.
Qed.

Lemma insert_group_in {A} (k : option Z) (x : A) gs k' xs' :
  NoDup (map fst gs) ->
  In (k', xs') (insert_group k x gs) ->
  (k' <> k /\ In (k', xs') gs) \/
  (k' = k /\ exists xs, In (k, xs) gs /\ xs' = xs ++ [x]) \/
  (k' = k /\ xs' = [x] /\ ~ In k (map fst gs)).
Proof.
  induction gs as [|[k0 xs0] gs IH]; simpl; intros Hnd Hin.
  - destruct Hin as [Hin|[]]. injection Hin as <- <-. right. right. tauto.
  - inversion Hnd as [|? ? Hk0 Hnd']; subst.
    destruct (key_eqb k k0) eqn:E.
    + apply key_eqb_eq in E. subst k0.
      destruct Hin as [Hin|Hin].
      * injection Hin as <- <-. right. left. split; [reflexivity|].
        exists xs0. auto.
      * left. split; [|auto]. intros ->. apply Hk0.
        change k with (fst (k, xs')). now apply in_map.
    + assert (Hne : k0 <> k).
      { intros ->. rewrite key_eqb_refl in E. discriminate. }
      destruct Hin as [Hin|Hin].
      * injection Hin as <- <-. left. auto.
      * destruct (IH Hnd' Hin) as [[H1 H2]|[[H1 [xs [H2 H3]]]|[H1 [H2 H3]]]].
        -- left. auto.
        -- right. left. split; [exact H1|]. exists xs. auto.
        -- right. right. repeat split; auto. intros [H|H]; auto.
Qed.

Lemma filter_none {A} (f : A -> bool) (l : list A) :
  (forall a, In a l -> f a = false) -> List.filter f l = [].
Proof.
  induction l as [|a l IH]; simpl; intros H; [reflexivity|].
  rewrite (H a (or_introl eq_refl)). auto.
Qed.

(** The groups have distinct keys; a group holds, in input order, exactly the
    rows with its key, and is not empty; every row's key has a group. *)
Lemma group_by_spec {A} (key : A -> option Z) (l : list A) :
  NoDup (map fst (group_by key l)) /\
  (forall k xs, In (k, xs) (group_by key l) ->
     xs = List.filter (fun x => key_eqb (key x) k) l /\ xs <> []) /\
  (forall x, In x l -> In (key x) (map fst (group_by key l))).
Proof.
  induction l as [|x l IH] using rev_ind.
  - split; [constructor|]. split; [intros k xs []| intros x []].
  - destruct IH as (Hnd & Hgrp & Hkey). rewrite group_by_snoc.
    pose proof (insert_group_keys (key x) x (group_by key l)) as Hk.
    split; [|split].
    + destruct Hk as [[_ ->]|[Hnin ->]]; [exact Hnd|].
      apply NoDup_rev in Hnd. rewrite <- (rev_involutive (_ ++ _)).
      apply NoDup_rev. rewrite rev_app_distr. simpl. constructor; auto.
      now rewrite <- in_rev.
    + intros k xs Hin. rewrite filter_app. simpl.
      apply insert_group_in in Hin; [|exact Hnd].
      destruct Hin as [[H1 H2]|[[H1 [xs0 [H2 H3]]]|[H1 [H2 H3]]]].
      * destruct (Hgrp _ _ H2) as [-> Hne].
        destruct (key_eqb (key x) k) eqn:E.
        -- apply key_eqb_eq in E. congruence.
        -- rewrite app_nil_r. auto.
      * subst k xs. destruct (Hgrp _ _ H2) as [-> _].
        rewrite key_eqb_refl. split; [reflexivity|].
        intros E. apply app_eq_nil in E as [_ E]. discriminate.
      * subst k xs. rewrite key_eqb_refl. rewrite filter_none.
        -- split; [reflexivity | discriminate].
        -- intros a Ha. destruct (key_eqb (key a) (key x)) eqn:E; [|reflexivity].
           apply key_eqb_eq in E. exfalso. apply H3. rewrite <- E. auto.
    + intros y Hy. apply in_app_or in Hy as [Hy|[<-|[]]].
      * destruct Hk as [[_ ->]|[_ ->]]; [|apply in_or_app; left]; auto.
      * destruct Hk as [[Hin ->]|[_ ->]]; [exact Hin|].
        apply in_or_app. right. now left.
Qed.

(** ** The leakage table *)

Lemma is_in_spec (loc : option Z) (l : list Z) :
  is_in loc l = Some true <-> exists z, loc = Some z /\ In z l.
Proof.
  unfold is_in. destruct loc as [z|]; simpl.
  - split.
    + intros H. injection H as H. apply existsb_exists in H as [y [Hy E]].
      apply Z.eqb_eq in E. subst y. eauto.
    + intros [y [E Hy]]. injection E as <-. f_equal.
      apply existsb_exists. exists z. split; [exact Hy | apply Z.eqb_refl].
  - split; [discriminate | intros [y [E _]]; discriminate].
Qed.

Lemma is_in_true (loc : option Z) :
  is_in loc CONGESTION_ZONES = Some true <-> in_zone loc.
Proof. apply is_in_spec. Qed.

(** The leakage filter holds of the rows that start at a known location
    outside the zone and end inside it. *)
Lemma leakage_filter_true (t : Trip) :
  leakage_filter t = Some true ->
  pickup_loc (row t) <> None /\
  ~ in_zone (pickup_loc (row t)) /\ in_zone (dropoff_loc (row t)).
Proof.
  unfold leakage_filter. intros H.
  rewrite <- !is_in_true.
  destruct (is_in (pickup_loc (row t)) CONGESTION_ZONES) as [[|]|] eqn:Ep;
    destruct (is_in (dropoff_loc (row t)) CONGESTION_ZONES) as [[|]|] eqn:Ed;
    try discriminate.
  split; [|split; [discriminate | reflexivity]].
  intros E. rewrite E in Ep. discriminate.
Qed.

(** The engine's equality with zero is the IEEE one. *)
Lemma tot_eq_zero (s : float) : tot_eq s 0%float = PrimFloat.eqb s 0%float.
Proof.
  unfold tot_eq. destruct (PrimFloat.is_nan s) eqn:E; [|reflexivity].
  apply is_nan_spec in E. rewrite FloatAxioms.eqb_spec, E. reflexivity.
Qed.

Lemma surcharge_is_zero_unpaid (t : Trip) :
  keep (surcharge_is_zero t) = unpaid t.
Proof.
  unfold surcharge_is_zero, unpaid.
  destruct (congestion_surcharge (row t)) as [s|]; simpl; [|reflexivity].
  rewrite tot_eq_zero. now destruct (PrimFloat.eqb s 0%float).
Qed.

Lemma filter_length_le {A} (f : A -> bool) (l : list A) :
  (length (List.filter f l) <= length l)%nat.
Proof.
  induction l as [|a l IH]; simpl; [lia|]. destruct (f a); simpl; lia.
Qed.

(** What a row of the grouped frame says about the clean rows. *)
Lemma leakage_groups_spec (clean : list Trip) (lr : LeakageRow) :
  In lr (leakage_groups clean) ->
  l_pickup_loc lr <> None /\
  ~ in_zone (l_pickup_loc lr) /\
  leakage_members clean (l_pickup_loc lr) <> [] /\
  total_trips lr = length (leakage_members clean (l_pickup_loc lr)) /\
  missing_surcharge_count lr =
    length (List.filter unpaid (leakage_members clean (l_pickup_loc lr))).
Proof.
  unfold leakage_groups. intros H. apply in_map_iff in H as [[k xs] [<- H]].
  destruct (group_by_spec (fun t => pickup_loc (row t))
              (Polars.filter leakage_filter clean)) as (_ & Hgrp & _).
  destruct (Hgrp _ _ H) as [Hxs Hne]. simpl. fold (leakage_members clean k) in Hxs.
  subst xs.
  assert (Hk : k <> None /\ ~ in_zone k).
  { destruct (leakage_members clean k) as [|t ts] eqn:E; [congruence|].
    assert (Ht : In t (leakage_members clean k)) by (rewrite E; now left).
    unfold leakage_members in Ht. apply filter_In in Ht as [Ht Hkey].
    apply key_eqb_eq in Hkey. apply in_filter in Ht as [_ Ht].
    apply leakage_filter_true in Ht. rewrite Hkey in Ht. tauto. }
  repeat split; try tauto.
  unfold Polars.filter. f_equal. apply filter_ext. intros t.
  apply surcharge_is_zero_unpaid.
Qed.

Lemma leakage_members_spec (clean : list Trip) (p : option Z) (t : Trip) :
  In t (leakage_members clean p) ->
  In t clean /\ pickup_loc (row t) = p /\ in_zone (dropoff_loc (row t)).
Proof.
  unfold leakage_members. intros H. apply filter_In in H as [H Hk].
  apply key_eqb_eq in Hk. apply in_filter in H as [Hin H].
  apply leakage_filter_true in H. tauto.
Qed.

(** Sorting and the limit. *)
Lemma insert_desc_perm (x : LeakageRow) (l : list LeakageRow) :
  Permutation (insert_desc x l) (x :: l).
Proof.
  induction l as [|y l IH]; simpl; [apply Permutation_refl|].
  destruct (_ <? _)%nat; [|apply Permutation_refl].
  eapply Permutation_trans; [apply perm_skip, IH | apply perm_swap].
Qed.

Lemma sort_desc_perm (l : list LeakageRow) : Permutation (sort_desc l) l.
Proof.
  induction l as [|x l IH]; simpl; [constructor|].
  eapply Permutation_trans; [apply insert_desc_perm | now constructor].
Qed.

Lemma insert_desc_sorted (x : LeakageRow) (l : list LeakageRow) :
  non_increasing l -> non_increasing (insert_desc x l).
Proof.
  unfold non_increasing. induction l as [|y l IH]; simpl; intros H.
  - repeat constructor.
  - inversion H as [|? ? Hl Hy]; subst.
    destruct (missing_surcharge_count x <? missing_surcharge_count y)%nat eqn:E.
    + apply Nat.ltb_lt in E. constructor; [auto|].
      rewrite Forall_forall in *. intros z Hz.
      apply (Permutation_in _ (insert_desc_perm x l)) in Hz as [<-|Hz];
        [lia | auto].
    + apply Nat.ltb_ge in E. constructor; [exact H|].
      constructor; [lia|]. rewrite Forall_forall in *. intros z Hz.
      specialize (Hy z Hz). lia.
Qed.

Lemma sort_desc_sorted (l : list LeakageRow) : non_increasing (sort_desc l).
Proof.
  induction l as [|x l IH]; simpl; [constructor | now apply insert_desc_sorted].
Qed.

Lemma limit_in {A} (n : nat) (l : list A) (a : A) :
  In a (limit n l) -> In a l.
Proof.
  unfold limit. intros H. rewrite <- (firstn_skipn n l).
  apply in_or_app. now left.
Qed.

Lemma limit_sorted (n : nat) (l : list LeakageRow) :
  non_increasing l -> non_increasing (limit n l).
Proof.
  unfold non_increasing, limit. revert l.
  induction n as [|n IH]; intros l H; simpl; [constructor|].
  destruct l as [|x l]; [constructor|].
  inversion H as [|? ? Hl Hx]; subst. constructor; [auto|].
  rewrite Forall_forall in *. intros z Hz. apply Hx.
  now apply (limit_in n).
Qed.

(** The table the model computes is one of the tables the engine may give. *)
Lemma leakage_agg_is_leakage_agg (clean : list Trip) :
  is_leakage_agg clean (leakage_agg clean).
Proof.
  exists (sort_desc (leakage_groups clean)).
  split; [apply sort_desc_perm|]. split; [apply sort_desc_sorted | reflexivity].
Qed.

Lemma is_leakage_agg_in (clean : list Trip) (out : list LeakageRow) lr :
  is_leakage_agg clean out -> In lr out -> In lr (leakage_groups clean).
Proof.
  intros (sorted & Hperm & _ & ->) H.
  apply (Permutation_in _ Hperm). now apply (limit_in 10).
Qed.

Lemma non_increasing_nth (l : list LeakageRow) (i j : nat) (d : LeakageRow) :
  non_increasing l -> (i <= j < length l)%nat ->
  (missing_surcharge_count (nth j l d) <= missing_surcharge_count (nth i l d))%nat.
Proof.
  unfold non_increasing. intros H. revert i j.
  induction H as [|x l Hl IH Hx]; intros i j Hij; simpl in *; [lia|].
  destruct j as [|j]; destruct i as [|i]; try lia.
  - rewrite Forall_forall in Hx. apply Hx, nth_In. lia.
  - apply IH. lia.
Qed.

(** The table a run writes is one of these tables. *)
Lemma run_pipeline_leakage (tu : TimeUnit) (w : World) (o : Outputs)
      (q : list Row) :
  run_pipeline tu w = Ok o -> ingest_and_unify (sources w) = Ok q ->
  is_leakage_agg (q_clean (with_features tu q)) (leakage_audit o).
Proof.
  unfold run_pipeline. intros H Hq. rewrite Hq in H. simpl in H.
  destruct (fetch_weather (precipitation_sum w)); simpl in H; try discriminate.
  injection H as <-. apply leakage_agg_is_leakage_agg.
Qed.

(** C4: in the leakage table [leakage_agg] computes from the clean rows of a
    run, and in any other table the engine may give for them (it fixes no
    order among groups or equal counts), every row's pickup_loc is outside
    the congestion zones; its total_trips counts exactly the clean rows that
    start there and pass the leakage filter, all of which end in a congestion
    zone; its missing_surcharge_count counts those of them whose surcharge
    equals 0.0; the table has at most 10 rows; and missing_surcharge_count
    does not increase from the first row to the last. *)
Theorem leakage_table_sound (tu : TimeUnit) (q : list Row)
        (out : list LeakageRow) :
  out = leakage_agg (q_clean (with_features tu q)) \/
  is_leakage_agg (q_clean (with_features tu q)) out ->
  (forall lr, In lr out ->
     ~ in_zone (l_pickup_loc lr) /\
     total_trips lr =
       length (leakage_members (q_clean (with_features tu q)) (l_pickup_loc lr)) /\
     missing_surcharge_count lr =
       length (List.filter unpaid
                 (leakage_members (q_clean (with_features tu q))
                                  (l_pickup_loc lr))) /\
     (forall t,
        In t (leakage_members (q_clean (with_features tu q)) (l_pickup_loc lr)) ->
        In t (q_clean (with_features tu q)) /\
        pickup_loc (row t) = l_pickup_loc lr /\
        in_zone (dropoff_loc (row t)))) /\
  (length out <= 10)%nat /\
  non_increasing out /\
  (forall i j d, (i <= j < length out)%nat ->
     (missing_surcharge_count (nth j out d)
      <= missing_surcharge_count (nth i out d))%nat).
Proof.
  intros [->|H].
  - split; [|split; [|split]].
    + intros lr Hlr. unfold leakage_agg in Hlr.
      apply limit_in in Hlr.
      apply (Permutation_in _ (sort_desc_perm _)) in Hlr.
      destruct (leakage_groups_spec _ _ Hlr) as (_ & Hz & _ & Ht & Hm).
      split; [exact Hz|]. split; [exact Ht|]. split; [exact Hm|].
      intros t. apply leakage_members_spec.
    + unfold leakage_agg, limit. rewrite length_firstn. lia.
    + apply limit_sorted, sort_desc_sorted.
    + intros i j d Hij. apply non_increasing_nth; [|exact Hij].
      apply limit_sorted, sort_desc_sorted.
  - assert (Hs : non_increasing out).
    { destruct H as (sorted & _ & Hs & ->). now apply limit_sorted. }
    split; [|split; [|split]].
    + intros lr Hlr. apply (is_leakage_agg_in _ _ _ H) in Hlr.
      destruct (leakage_groups_spec _ _ Hlr) as (_ & Hz & _ & Ht & Hm).
      split; [exact Hz|]. split; [exact Ht|]. split; [exact Hm|].
      intros t. apply leakage_members_spec.
    + destruct H as (sorted & _ & _ & ->). unfold limit.
      rewrite length_firstn. lia.
    + exact Hs.
    + intros i j d Hij. now apply non_increasing_nth.
Qed.

Lemma leakage_table_sound_witness :
  leakage_agg (q_clean (with_features Microseconds sample_trips)) =
    [ mkLeakageRow (Some 7) 3 2; mkLeakageRow (Some 8) 1 1 ] /\
  (length (leakage_agg (q_clean (with_features Microseconds sample_trips)))
   <= 10)%nat.
Proof.
  split; [reflexivity|].
  apply (leakage_table_sound Microseconds sample_trips).
  left. reflexivity.
Defined.

(** C9: in every row of a leakage table, missing_surcharge_count lies between
    0 and total_trips: it counts some of the rows total_trips counts. *)
Theorem leakage_missing_le_total (tu : TimeUnit) (q : list Row)
        (out : list LeakageRow) (lr : LeakageRow) :
  is_leakage_agg (q_clean (with_features tu q)) out ->
  In lr out ->
  (0 <= missing_surcharge_count lr <= total_trips lr)%nat.
Proof.
  intros H Hlr. apply (is_leakage_agg_in _ _ _ H) in Hlr.
  destruct (leakage_groups_spec _ _ Hlr) as (_ & _ & _ & -> & ->).
  split; [lia | apply filter_length_le].
Qed.

Lemma leakage_missing_le_total_witness :
  (0 <= 2 <= 3)%nat.
Proof.
  apply (leakage_missing_le_total Microseconds sample_trips
           (leakage_agg (q_clean (with_features Microseconds sample_trips)))
           (mkLeakageRow (Some 7) 3 2)).
  - exists (sort_desc (leakage_groups
                         (q_clean (with_features Microseconds sample_trips)))).
    split; [|split]; [| |reflexivity].
    + vm_compute. apply Permutation_refl.
    + vm_compute. repeat constructor.
  - left. reflexivity.
Defined.

(** ** The weather join *)

Lemma join_eqb_true (a b : option Z) :
  join_eqb a b = true <-> exists z, a = Some z /\ b = Some z.
Proof.
  destruct a as [x|], b as [y|]; simpl;
    try (split; [discriminate | intros [z [H1 H2]]; discriminate]).
  rewrite Z.eqb_eq. split.
  - intros ->. eauto.
  - intros [z [H1 H2]]. congruence.
Qed.

Lemma join_eqb_sym (a b : option Z) : join_eqb a b = join_eqb b a.
Proof. destruct a, b; simpl; auto using Z.eqb_sym. Qed.

Section Join.
Context {L R : Type} (lkey : L -> option Z) (rkey : R -> option Z).

Lemma in_join_inner (left : list L) (right : list R) (l : L) (r : R) :
  In (l, r) (join_inner lkey rkey left right) <->
  In l left /\ In r right /\ join_eqb (lkey l) (rkey r) = true.
Proof.
  unfold join_inner. rewrite in_flat_map. split.
  - intros [l' [Hl H]]. apply in_map_iff in H as [r' [E H]].
    injection E as -> ->. apply filter_In in H. tauto.
  - intros (Hl & Hr & E). exists l. split; [exact Hl|].
    apply in_map. apply filter_In. auto.
Qed.

Lemma join_inner_cons (l : L) (left : list L) (right : list R) :
  length (join_inner lkey rkey (l :: left) right) =
  (length (List.filter (fun r => join_eqb (lkey l) (rkey r)) right) +
   length (join_inner lkey rkey left right))%nat.
Proof. unfold join_inner. simpl. now rewrite length_app, length_map. Qed.

(** A key matches at most one row of a frame whose keys are distinct. *)
Lemma matches_le_one (k : option Z) (right : list R) :
  NoDup (map rkey right) ->
  (length (List.filter (fun r => join_eqb k (rkey r)) right) <= 1)%nat.
Proof.
  induction right as [|r right IH]; simpl; intros Hnd; [lia|].
  inversion Hnd as [|? ? Hr Hnd']; subst.
  destruct (join_eqb k (rkey r)) eqn:E; [|auto].
  rewrite filter_none; [simpl; lia|].
  intros r' Hr'. destruct (join_eqb k (rkey r')) eqn:E'; [|reflexivity].
  apply join_eqb_true in E as [z [Hk Hz]].
  apply join_eqb_true in E' as [z' [Hk' Hz']].
  exfalso. apply Hr. rewrite Hz. replace z with z' by congruence.
  rewrite <- Hz'. now apply in_map.
Qed.

Lemma join_inner_length_left (left : list L) (right : list R) :
  NoDup (map rkey right) ->
  (length (join_inner lkey rkey left right) <= length left)%nat.
Proof.
  intros Hnd. induction left as [|l left IH]; [simpl; lia|].
  rewrite join_inner_cons. pose proof (matches_le_one (lkey l) right Hnd).
  simpl. lia.
Qed.

End Join.

Lemma join_inner_snoc {L R} (lkey : L -> option Z) (rkey : R -> option Z)
      (left : list L) (r : R) (right : list R) :
  length (join_inner lkey rkey left (r :: right)) =
  (length (List.filter (fun l => join_eqb (rkey r) (lkey l)) left) +
   length (join_inner lkey rkey left right))%nat.
Proof.
  induction left as [|l left IH]; [reflexivity|].
  rewrite !join_inner_cons, IH. simpl.
  rewrite (join_eqb_sym (rkey r) (lkey l)).
  destruct (join_eqb (lkey l) (rkey r)); simpl; lia.
Qed.

Lemma join_inner_length_swap {L R} (lkey : L -> option Z) (rkey : R -> option Z)
      (left : list L) (right : list R) :
  length (join_inner lkey rkey left right) =
  length (join_inner rkey lkey right left).
Proof.
  induction right as [|r right IH].
  - induction left as [|l left IHl]; [reflexivity|].
    rewrite join_inner_cons, IHl. reflexivity.
  - rewrite join_inner_snoc, join_inner_cons, IH. reflexivity.
Qed.

Lemma join_inner_length {L R} (lkey : L -> option Z) (rkey : R -> option Z)
      (left : list L) (right : list R) :
  NoDup (map lkey left) -> NoDup (map rkey right) ->
  (length (join_inner lkey rkey left right)
   <= Nat.min (length left) (length right))%nat.
Proof.
  intros Hl Hr. apply Nat.min_glb.
  - now apply join_inner_length_left.
  - rewrite join_inner_length_swap. now apply join_inner_length_left.
Qed.

(** The weather frame. *)
Lemma weather_dates_2025 :
  weather_dates = map (fun i => Some (20089 + Z.of_nat i)) (seq 0 365).
Proof. vm_compute. reflexivity. Qed.

Lemma weather_dates_NoDup : NoDup weather_dates.
Proof.
  rewrite weather_dates_2025. apply Injective_map_NoDup.
  - intros i j H.
    assert (20089 + Z.of_nat i = 20089 + Z.of_nat j) by congruence. lia.
  - apply seq_NoDup.
Qed.

Lemma year_2025_days (d : Z) :
  In (Some d) weather_dates ->
  days_from_civil 2025 1 1 <= d <= days_from_civil 2025 12 31 /\
  year_of_days d = 2025.
Proof.
  rewrite weather_dates_2025. intros H.
  apply in_map_iff in H as [i [E Hi]].
  assert (Hd : d = 20089 + Z.of_nat i) by congruence.
  apply in_seq in Hi. split.
  - change (days_from_civil 2025 1 1) with 20089.
    change (days_from_civil 2025 12 31) with 20453. lia.
  - assert (Hall : forallb (fun i => year_of_days (20089 + Z.of_nat i) =? 2025)
                           (seq 0 365) = true) by (vm_compute; reflexivity).
    rewrite forallb_forall in Hall. rewrite Hd.
    apply Z.eqb_eq, (Hall i), in_seq. lia.
Qed.

Lemma combine_columns {A B} (l : list A) (l' : list B) :
  length l = length l' ->
  map fst (combine l l') = l /\ map snd (combine l l') = l'.
Proof.
  revert l'. induction l as [|a l IH]; intros [|b l'] H; simpl in *;
    try discriminate; [auto|].
  destruct (IH l') as [H1 H2]; [lia|]. now rewrite H1, H2.
Qed.

Lemma fetch_weather_dates (values : list float) (weather_df : list WeatherRow) :
  fetch_weather values = Ok weather_df ->
  map w_date weather_df = weather_dates /\
  map precipitation_mm weather_df = values.
Proof.
  unfold fetch_weather. generalize weather_dates. intros dates.
  destruct (Nat.eqb _ _) eqn:E; [|discriminate].
  apply Nat.eqb_eq in E. intros H. injection H as <-.
  rewrite !map_map. cbn [w_date precipitation_mm].
  exact (combine_columns dates values E).
Qed.

(** The daily counts: one row per pickup date among the clean rows. *)
Lemma daily_counts_dates (clean : list Trip) :
  NoDup (map d_date (daily_counts clean)) /\
  (forall tr, In tr (daily_counts clean) ->
     exists t, In t clean /\ d_date tr = date (timed t) /\
       trip_count tr =
         length (List.filter (fun t' => key_eqb (date (timed t')) (d_date tr))
                             clean)).
Proof.
  unfold daily_counts.
  destruct (group_by_spec (fun t => date (timed t)) clean) as (Hnd & Hgrp & _).
  split.
  - rewrite map_map. simpl. exact Hnd.
  - intros tr H. apply in_map_iff in H as [[k xs] [<- H]]. simpl.
    destruct (Hgrp _ _ H) as [Hxs Hne]. rewrite <- Hxs.
    destruct xs as [|t xs']; [congruence|].
    assert (Ht : In t (t :: xs')) by now left.
    rewrite Hxs in Ht. apply filter_In in Ht as [Ht Hk].
    apply key_eqb_eq in Hk. exists t. auto.
Qed.

Lemma run_pipeline_ok (tu : TimeUnit) (w : World) (o : Outputs) :
  run_pipeline tu w = Ok o ->
  exists q weather_df,
    ingest_and_unify (sources w) = Ok q /\
    fetch_weather (precipitation_sum w) = Ok weather_df /\
    ghost_audit o = ghost_stats (with_features tu q) /\
    leakage_audit o = leakage_agg (q_clean (with_features tu q)) /\
    weather_elasticity o =
      weather_join weather_df (daily_counts (q_clean (with_features tu q))).
Proof.
  unfold run_pipeline. intros H.
  destruct (ingest_and_unify (sources w)) as [q| |]; simpl in H; try discriminate.
  destruct (fetch_weather (precipitation_sum w)) as [wdf| |]; simpl in H;
    try discriminate.
  injection H as <-. exists q, wdf. simpl. auto.
Qed.

Lemma in_weather_join (weather_df : list WeatherRow)
      (trips_df : list DailyCount) (e : ElasticityRow) :
  In e (weather_join weather_df trips_df) <->
  exists wr tr d,
    In wr weather_df /\ In tr trips_df /\
    w_date wr = Some d /\ d_date tr = Some d /\
    e = mkElasticityRow (Some d) (precipitation_mm wr) (trip_count tr).
Proof.
  unfold weather_join. rewrite in_map_iff. split.
  - intros [[wr tr] [<- H]]. apply in_join_inner in H as (Hw & Ht & E).
    apply join_eqb_true in E as [d [E1 E2]]. exists wr, tr, d. simpl.
    rewrite E1. auto.
  - intros (wr & tr & d & Hw & Ht & E1 & E2 & ->). exists (wr, tr). simpl.
    rewrite E1. split; [reflexivity|]. apply in_join_inner.
    repeat split; auto. apply join_eqb_true. eauto.
Qed.

(** C6: the weather-elasticity table of a run is the inner join of the
    weather frame and the daily trip counts on their Date keys: a row is in
    the table exactly when it pairs a weather row and a daily-count row of one
    and the same date, so every row's date is in both frames and a date
    missing from either frame has no row; every daily-count key is the
    calendar date of a clean row's pickup; and the table has at most
    min(days with trips, days with weather) rows. *)
Theorem weather_elasticity_inner_join (tu : TimeUnit) (w : World) (o : Outputs)
        (q : list Row) (weather_df : list WeatherRow) :
  run_pipeline tu w = Ok o ->
  ingest_and_unify (sources w) = Ok q ->
  fetch_weather (precipitation_sum w) = Ok weather_df ->
  (forall e, In e (weather_elasticity o) <->
     exists wr tr d,
       In wr weather_df /\
       In tr (daily_counts (q_clean (with_features tu q))) /\
       w_date wr = Some d /\ d_date tr = Some d /\
       e = mkElasticityRow (Some d) (precipitation_mm wr) (trip_count tr)) /\
  (forall e, In e (weather_elasticity o) ->
     In (e_date e) (map w_date weather_df) /\
     In (e_date e) (map d_date (daily_counts (q_clean (with_features tu q))))) /\
  (forall d,
     ~ In d (map w_date weather_df) \/
     ~ In d (map d_date (daily_counts (q_clean (with_features tu q)))) ->
     ~ In d (map e_date (weather_elasticity o))) /\
  (forall tr, In tr (daily_counts (q_clean (with_features tu q))) ->
     exists t, In t (q_clean (with_features tu q)) /\
               d_date tr = lift1 (dt_date tu) (pickup_time (row t))) /\
  (length (weather_elasticity o)
   <= Nat.min (length (daily_counts (q_clean (with_features tu q))))
              (length weather_df))%nat.
Proof.
  intros Hrun Hq Hw.
  destruct (run_pipeline_ok tu w o Hrun) as (q' & wdf' & Hq' & Hw' & _ & _ & Ho).
  rewrite Hq in Hq'. injection Hq' as <-.
  rewrite Hw in Hw'. injection Hw' as <-.
  rewrite Ho. clear Ho Hrun.
  set (trips_df := daily_counts (q_clean (with_features tu q))).
  assert (Hboth : forall e, In e (weather_join weather_df trips_df) ->
            In (e_date e) (map w_date weather_df) /\
            In (e_date e) (map d_date trips_df)).
  { intros e He. apply in_weather_join in He
      as (wr & tr & d & Hwr & Htr & E1 & E2 & ->). simpl.
    rewrite <- E1 at 1. rewrite <- E2. split; now apply in_map. }
  split; [intros e; apply in_weather_join|].
  split; [exact Hboth|].
  split; [|split].
  - intros d Hd Hin. apply in_map_iff in Hin as [e [<- He]].
    apply Hboth in He. tauto.
  - intros tr Htr.
    destruct (proj2 (daily_counts_dates _) tr Htr) as [t [Ht [E _]]].
    exists t. split; [exact Ht|]. rewrite E.
    apply in_q_clean in Ht as [Ht _].
    apply in_with_features in Ht as [r [_ ->]]. reflexivity.
  - unfold weather_join. rewrite length_map, Nat.min_comm.
    apply join_inner_length.
    + rewrite (proj1 (fetch_weather_dates _ _ Hw)). apply weather_dates_NoDup.
    + apply daily_counts_dates.
Qed.

Lemma weather_elasticity_inner_join_witness :
  run_pipeline Microseconds january_world = Ok january_outputs /\
  (length (weather_elasticity january_outputs)
   <= Nat.min
        (length (daily_counts (q_clean (with_features Microseconds january_rows))))
        (length january_weather))%nat.
Proof.
  assert (Hrun : run_pipeline Microseconds january_world = Ok january_outputs)
    by (vm_compute; reflexivity).
  split; [exact Hrun|].
  apply (weather_elasticity_inner_join Microseconds january_world
           january_outputs january_rows january_weather Hrun).
  - reflexivity.
  - vm_compute. reflexivity.
Defined.

(** C10: every date in the weather-elasticity table of a run is a day of the
    calendar year 2025, from 2025-01-01 to 2025-12-31. *)
Theorem weather_elasticity_in_2025 (tu : TimeUnit) (w : World) (o : Outputs)
        (e : ElasticityRow) :
  run_pipeline tu w = Ok o ->
  In e (weather_elasticity o) ->
  exists d, e_date e = Some d /\
            days_from_civil 2025 1 1 <= d <= days_from_civil 2025 12 31 /\
            year_of_days d = 2025.
Proof.
  intros Hrun He.
  destruct (run_pipeline_ok tu w o Hrun) as (q & wdf & _ & Hw & _ & _ & Ho).
  rewrite Ho in He. apply in_weather_join in He
    as (wr & tr & d & Hwr & _ & E & _ & ->).
  exists d. split; [reflexivity|]. apply year_2025_days.
  rewrite <- (proj1 (fetch_weather_dates _ _ Hw)), <- E. now apply in_map.
Qed.

Lemma weather_elasticity_in_2025_witness :
  exists d, Some 20089 = Some d /\
            days_from_civil 2025 1 1 <= d <= days_from_civil 2025 12 31 /\
            year_of_days d = 2025.
Proof.
  apply (weather_elasticity_in_2025 Microseconds january_world january_outputs
           (mkElasticityRow (Some 20089) 0%float 2)).
  - vm_compute. reflexivity.
  - left. reflexivity.
Defined.

(** ** What the clean rows look like *)

Lemma and3_false (a b : option bool) :
  and3 a b = Some false <-> a = Some false \/ b = Some false.
Proof.
  destruct a as [[|]|], b as [[|]|]; simpl; split;
    try tauto; try congruence; intros [H|H]; congruence.
Qed.

Lemma or3_false (a b : option bool) :
  or3 a b = Some false <-> a = Some false /\ b = Some false.
Proof.
  destruct a as [[|]|], b as [[|]|]; simpl; split;
    try tauto; try congruence; intros [H1 H2]; congruence.
Qed.

(** Against a bound that is a number, "not above" in the engine's order is
    the IEEE "at most". *)
Lemma tot_gt_false (x bound : float) :
  PrimFloat.is_nan bound = false ->
  tot_gt x bound = false <-> PrimFloat.leb x bound = true.
Proof.
  intros Hb. unfold tot_gt, tot_lt, tot_ge. rewrite Hb. simpl.
  apply negb_false_iff.
Qed.

(** A row kept by the negated predicate passed none of the three tests. *)
Lemma q_clean_tests (q : list Trip) (t : Trip) :
  In t (q_clean q) ->
  (exists s, speed_mph t = Some s /\ PrimFloat.leb s 65%float = true) /\
  ((exists m, duration_min (timed t) = Some m /\ 1 <= m) \/
   (exists f, fare (row t) = Some f /\ PrimFloat.leb f 20%float = true)) /\
  ((exists d, trip_distance (row t) = Some d /\
              PrimFloat.eqb d 0%float = false) \/
   (exists f, fare (row t) = Some f /\ PrimFloat.leb f 0%float = true)).
Proof.
  intros Hc. apply in_q_clean in Hc as [Hin Hc].
  unfold ghost_criteria in Hc.
  apply or3_false in Hc as [Hc H3]. apply or3_false in Hc as [H1 H2].
  apply and3_false in H2. apply and3_false in H3.
  split; [|split].
  - destruct (speed_mph t) as [s|]; [|discriminate]. exists s.
    split; [reflexivity|]. simpl in H1. injection H1 as H1.
    now apply (tot_gt_false s 65%float eq_refl).
  - destruct H2 as [H2|H2]; [left | right].
    + destruct (duration_min (timed t)) as [m|]; [|discriminate].
      exists m. split; [reflexivity|]. simpl in H2. injection H2 as H2.
      apply Z.ltb_ge in H2. exact H2.
    + destruct (fare (row t)) as [f|]; [|discriminate].
      exists f. split; [reflexivity|]. simpl in H2. injection H2 as H2.
      now apply (tot_gt_false f 20%float eq_refl).
  - destruct H3 as [H3|H3]; [left | right].
    + destruct (trip_distance (row t)) as [d|]; [|discriminate].
      exists d. split; [reflexivity|]. simpl in H3. injection H3 as H3.
      now rewrite tot_eq_zero in H3.
    + destruct (fare (row t)) as [f|]; [|discriminate].
      exists f. split; [reflexivity|]. simpl in H3. injection H3 as H3.
      now apply (tot_gt_false f 0%float eq_refl).
Qed.

(** A derived row with a speed has its distance and both timestamps. *)
Lemma speed_needs_fields (tu : TimeUnit) (r : Row) (s : float) :
  speed_mph (derive tu r) = Some s ->
  pickup_time r <> None /\ dropoff_time r <> None /\ trip_distance r <> None.
Proof.
  simpl. destruct (trip_distance r); [|discriminate].
  destruct (dropoff_time r); [|discriminate].
  destruct (pickup_time r); [|discriminate].
  intros _. repeat split; discriminate.
Qed.

(** X1: A clean row passed none of the three tests: its speed is present and at
    most 65 (so it is no NaN), and so are its timestamps and its distance;
    its duration is at least a minute or its fare at most 20; its distance is
    not zero or its fare at most 0. *)
Theorem clean_row_tests (tu : TimeUnit) (q : list Row) (t : Trip) :
  In t (q_clean (with_features tu q)) ->
  (exists s, speed_mph t = Some s /\ PrimFloat.leb s 65%float = true) /\
  ((exists m, duration_min (timed t) = Some m /\ 1 <= m) \/
   (exists f, fare (row t) = Some f /\ PrimFloat.leb f 20%float = true)) /\
  ((exists d, trip_distance (row t) = Some d /\
              PrimFloat.eqb d 0%float = false) \/
   (exists f, fare (row t) = Some f /\ PrimFloat.leb f 0%float = true)) /\
  pickup_time (row t) <> None /\ dropoff_time (row t) <> None /\
  trip_distance (row t) <> None.
Proof.
  intros Hc. destruct (q_clean_tests _ t Hc) as (Hs & H2 & H3).
  split; [exact Hs|]. split; [exact H2|]. split; [exact H3|].
  destruct Hs as [s [Hs _]].
  apply in_q_clean in Hc as [Hin _].
  apply in_with_features in Hin as [r [_ ->]].
  exact (speed_needs_fields tu r s Hs).
Qed.

Lemma clean_row_tests_witness :
  exists s, speed_mph (derive Microseconds plain_trip) = Some s /\
            PrimFloat.leb s 65%float = true.
Proof.
  apply (clean_row_tests Microseconds [plain_trip] (derive Microseconds plain_trip)).
  left. reflexivity.
Defined.

(** X2: A trip whose timestamps are less than a minute apart, in either
    direction, has duration_min 0; with a distance that is present and not
    below zero it is a ghost, whatever its fare. *)
Theorem sub_minute_trip_is_ghost (tu : TimeUnit) (r : Row) (p d : Z) (x : float) :
  pickup_time r = Some p -> dropoff_time r = Some d ->
  Z.abs (d - p) < ticks_per_minute tu ->
  trip_distance r = Some x -> PrimFloat.ltb x 0%float = false ->
  duration_min (timed (derive tu r)) = Some 0 /\
  ghost_criteria (derive tu r) = Some true.
Proof.
  intros Hp Hd Habs Hx Hneg.
  assert (Hdur : duration_min (timed (derive tu r)) = Some 0).
  { rewrite duration_min_derive, Hd, Hp. f_equal.
    assert (Hb : ticks_per_minute tu < 2 ^ 62) by (destruct tu; reflexivity).
    rewrite wrap64_small by lia.
    destruct (Z.le_gt_cases 0 (d - p)) as [H|H].
    - apply Z.quot_small. lia.
    - rewrite <- (Z.opp_involutive (d - p)), Z.quot_opp_l
        by (pose proof (ticks_per_minute_pos tu); lia).
      rewrite Z.quot_small by lia. reflexivity. }
  split; [exact Hdur|].
  destruct (zero_duration_speed (add_calendar tu r) x Hdur Hx Hneg)
    as [s [Hs Hcls]].
  exact (speed_test_top _ s Hs Hcls).
Qed.

Lemma sub_minute_trip_is_ghost_witness :
  ghost_criteria
    (derive Microseconds
       (trip_row jan1_1pm (jan1_1pm + 59000000) 7 161 0.5 4 0)) = Some true.
Proof.
  apply (sub_minute_trip_is_ghost Microseconds
           (trip_row jan1_1pm (jan1_1pm + 59000000) 7 161 0.5 4 0)
           jan1_1pm (jan1_1pm + 59000000) 0.5%float eq_refl eq_refl).
  - vm_compute. reflexivity.
  - reflexivity.
  - reflexivity.
Defined.

(** ** The calendar columns *)

Lemma ticks_per_day_hours (tu : TimeUnit) :
  ticks_per_day tu = 24 * ticks_per_hour tu /\ 0 < ticks_per_hour tu.
Proof. destruct tu; split; reflexivity. Qed.

(** The arithmetic of the calendar columns: [dt_hour] is between 0 and 23
    and [dt_weekday] between 1 and 7; the timestamp lies in the hour
    [dt_hour] of the day [dt_date]; and a week later the weekday is the
    same. *)
Lemma calendar_columns_range (tu : TimeUnit) (t : Z) :
  0 <= dt_hour tu t <= 23 /\
  1 <= dt_weekday tu t <= 7 /\
  dt_date tu t * ticks_per_day tu + dt_hour tu t * ticks_per_hour tu <= t /\
  t < dt_date tu t * ticks_per_day tu + (dt_hour tu t + 1) * ticks_per_hour tu /\
  dt_weekday tu (t + 7 * ticks_per_day tu) = dt_weekday tu t /\
  dt_date tu (t + ticks_per_day tu) = dt_date tu t + 1.
Proof.
  destruct (ticks_per_day_hours tu) as [Hd Hh].
  unfold dt_hour, dt_weekday, dt_date.
  set (D := ticks_per_day tu) in *. set (H := ticks_per_hour tu) in *.
  assert (HD : 0 < D) by lia.
  pose proof (Z.mod_pos_bound t D HD) as Hm.
  pose proof (Z.div_mod t D ltac:(lia)) as Ht.
  pose proof (Z.div_mod (t mod D) H ltac:(lia)) as Hq.
  pose proof (Z.mod_pos_bound (t mod D) H Hh) as Hr.
  pose proof (Z.mod_pos_bound (t / D + 3) 7 ltac:(lia)) as Hw.
  assert (0 <= t mod D / H <= 23).
  { split; [apply Z.div_pos; lia|].
    assert (t mod D / H < 24); [|lia].
    apply Z.div_lt_upper_bound; lia. }
  split; [lia|]. split; [lia|]. split; [nia|]. split; [nia|]. split.
  - replace (t + 7 * D) with (t + 7 * D) by reflexivity.
    rewrite Z.div_add by lia.
    replace (t / D + 7 + 3) with (t / D + 3 + 1 * 7) by lia.
    now rewrite Z.mod_add by lia.
  - replace (t + D) with (t + 1 * D) by lia. apply Z.div_add. lia.
Qed.

Lemma in_calendar_range_date (tu : TimeUnit) (r : Row) (p : Z) :
  in_calendar_range tu r = true -> pickup_time r = Some p ->
  days_from_civil 1970 1 1 <= dt_date tu p < days_from_civil 10000 1 1.
Proof.
  unfold in_calendar_range, datetime, dt_date. intros H Hp. rewrite Hp in H.
  apply andb_true_iff in H as [H1 H2].
  apply Z.leb_le in H1. apply Z.ltb_lt in H2.
  destruct (ticks_per_day_hours tu) as [Hd Hh].
  change (days_from_civil 1970 1 1) with 0.
  split; [apply Z.div_pos; lia|].
  apply Z.div_lt_upper_bound; lia.
Qed.

(** X3: Every row whose pickup time lies between 1970-01-01 and the end of
    year 9999 gets its calendar columns: a date in that range, an hour from
    0 to 23 and a weekday from 1 to 7, with the pickup time inside that hour
    of that date; a row without a pickup time gets nulls. *)
Theorem derived_calendar (tu : TimeUnit) (r : Row) :
  in_calendar_range tu r = true ->
  match pickup_time r with
  | Some p =>
      exists d h w,
        date (timed (derive tu r)) = Some d /\
        hour (timed (derive tu r)) = Some h /\
        weekday (timed (derive tu r)) = Some w /\
        days_from_civil 1970 1 1 <= d < days_from_civil 10000 1 1 /\
        0 <= h <= 23 /\ 1 <= w <= 7 /\ w = (d + 3) mod 7 + 1 /\
        d * ticks_per_day tu + h * ticks_per_hour tu <= p
          < d * ticks_per_day tu + (h + 1) * ticks_per_hour tu
  | None =>
      date (timed (derive tu r)) = None /\
      hour (timed (derive tu r)) = None /\
      weekday (timed (derive tu r)) = None
  end.
Proof.
  intros Hr. pose proof (in_calendar_range_date tu r) as Hd.
  simpl. destruct (pickup_time r) as [p|]; simpl; [|auto].
  exists (dt_date tu p), (dt_hour tu p), (dt_weekday tu p).
  pose proof (calendar_columns_range tu p) as (H1 & H2 & H3 & H4 & _).
  specialize (Hd p Hr eq_refl).
  repeat split; try tauto; reflexivity.
Qed.

Lemma derived_calendar_witness :
  exists d h w,
    date (timed (derive Microseconds plain_trip)) = Some d /\
    hour (timed (derive Microseconds plain_trip)) = Some h /\
    weekday (timed (derive Microseconds plain_trip)) = Some w /\
    d = days_from_civil 2025 1 1 /\ h = 13 /\ w = 3.
Proof.
  destruct (derived_calendar Microseconds plain_trip eq_refl)
    as (d & h & w & Hd & Hh & Hw & _).
  exists d, h, w. split; [exact Hd|]. split; [exact Hh|]. split; [exact Hw|].
  vm_compute in Hd, Hh, Hw.
  injection Hd as <-. injection Hh as <-. injection Hw as <-.
  split; [|split]; reflexivity.
Defined.

(** ** Group counts *)

Lemma insert_group_concat {A} (k : option Z) (x : A) gs :
  Permutation (concat (map snd (insert_group k x gs)))
              (x :: concat (map snd gs)).
Proof.
  induction gs as [|[k' xs] gs IH]; simpl; [apply Permutation_refl|].
  destruct (key_eqb k k'); simpl.
  - rewrite <- app_assoc. simpl.
    apply Permutation_sym, Permutation_middle.
  - eapply Permutation_trans; [apply Permutation_app_head, IH|].
    apply Permutation_sym, Permutation_middle.
Qed.

(** The groups together are the input rows. *)
Lemma group_by_concat {A} (key : A -> option Z) (l : list A) :
  Permutation (concat (map snd (group_by key l))) l.
Proof.
  induction l as [|x l IH] using rev_ind; [apply Permutation_refl|].
  rewrite group_by_snoc.
  eapply Permutation_trans; [apply insert_group_concat|].
  eapply Permutation_trans; [apply perm_skip, IH|].
  apply Permutation_cons_append.
Qed.

Lemma length_concat_sum {A} (ls : list (list A)) :
  length (concat ls) = list_sum (map (@length A) ls).
Proof.
  induction ls as [|l ls IH]; simpl; [reflexivity|].
  now rewrite length_app, IH.
Qed.

Lemma group_by_counts {A} (key : A -> option Z) (l : list A) :
  list_sum (map (fun g => length (snd g)) (group_by key l)) = length l.
Proof.
  rewrite <- (Permutation_length (group_by_concat key l)).
  rewrite length_concat_sum, map_map. reflexivity.
Qed.

(** X4: The ghost table has one row per vendor among the ghost trips; a row's
    count is the number of ghost trips of that vendor, at least one; and the
    counts add up to the number of ghost trips. *)
Theorem ghost_stats_counts (q : list Trip) :
  NoDup (map fst (ghost_stats q)) /\
  (forall v n, In (v, n) (ghost_stats q) ->
     n = length (List.filter (fun t => key_eqb (VendorID (row t)) v)
                             (ghost_trips q)) /\
     (1 <= n)%nat) /\
  (forall t, In t (ghost_trips q) ->
     In (VendorID (row t)) (map fst (ghost_stats q))) /\
  list_sum (map snd (ghost_stats q)) = length (ghost_trips q).
Proof.
  unfold ghost_stats.
  destruct (group_by_spec (fun t => VendorID (row t)) (ghost_trips q))
    as (Hnd & Hgrp & Hkey).
  rewrite !map_map. simpl. split; [exact Hnd|]. split; [|split].
  - intros v n H. apply in_map_iff in H as [[k xs] [E H]].
    injection E as <- <-. destruct (Hgrp _ _ H) as [Hxs Hne]. simpl.
    split; [now rewrite <- Hxs|].
    destruct xs; [congruence | simpl; lia].
  - exact Hkey.
  - apply group_by_counts.
Qed.

Lemma daily_counts_spec (clean : list Trip) :
  NoDup (map d_date (daily_counts clean)) /\
  (forall tr, In tr (daily_counts clean) ->
     trip_count tr =
       length (List.filter (fun t => key_eqb (date (timed t)) (d_date tr)) clean) /\
     (1 <= trip_count tr)%nat) /\
  (forall t, In t clean -> In (date (timed t)) (map d_date (daily_counts clean))).
Proof.
  split; [apply daily_counts_dates|].
  unfold daily_counts.
  destruct (group_by_spec (fun t => date (timed t)) clean) as (_ & Hgrp & Hkey).
  rewrite !map_map. simpl. split.
  - intros tr H. apply in_map_iff in H as [[k xs] [<- H]]. simpl.
    destruct (Hgrp _ _ H) as [Hxs Hne].
    split; [now rewrite <- Hxs|].
    destruct xs; [congruence | simpl; lia].
  - exact Hkey.
Qed.

(** X5: The daily counts have one row per pickup date among the clean trips, each
    count at least one, and the counts add up to the number of clean trips. *)
Theorem daily_counts_total (clean : list Trip) :
  NoDup (map d_date (daily_counts clean)) /\
  (forall tr, In tr (daily_counts clean) ->
     trip_count tr =
       length (List.filter (fun t => key_eqb (date (timed t)) (d_date tr)) clean) /\
     (1 <= trip_count tr)%nat) /\
  (forall t, In t clean -> In (date (timed t)) (map d_date (daily_counts clean))) /\
  list_sum (map trip_count (daily_counts clean)) = length clean.
Proof.
  destruct (daily_counts_spec clean) as (H1 & H2 & H3).
  split; [exact H1|]. split; [exact H2|]. split; [exact H3|].
  unfold daily_counts. rewrite map_map. simpl. apply group_by_counts.
Qed.

(** ** The ten rows of the leakage table *)

Lemma non_increasing_app (l1 l2 : list LeakageRow) :
  non_increasing (l1 ++ l2) ->
  forall a b, In a l1 -> In b l2 ->
    (missing_surcharge_count b <= missing_surcharge_count a)%nat.
Proof.
  unfold non_increasing. induction l1 as [|x l1 IH]; simpl; intros H a b Ha Hb.
  - contradiction.
  - inversion H as [|? ? Hl Hx]; subst. destruct Ha as [<-|Ha].
    + rewrite Forall_forall in Hx. apply Hx, in_or_app. now right.
    + now apply IH.
Qed.

Lemma leakage_groups_keys (clean : list Trip) :
  NoDup (map l_pickup_loc (leakage_groups clean)).
Proof.
  unfold leakage_groups. rewrite map_map. simpl.
  apply (group_by_spec (fun t => pickup_loc (row t))).
Qed.

Lemma NoDup_firstn {A} (n : nat) (l : list A) : NoDup l -> NoDup (firstn n l).
Proof.
  intros H. rewrite <- (firstn_skipn n l) in H.
  now apply NoDup_app_remove_r in H.
Qed.

(** X6: The leakage table [leakage_agg] computes, and any other table the
    engine may give for the same clean rows, holds min(10, number of groups)
    rows with distinct pickup locations, each a group of at least one trip,
    and no group left out of it has a larger missing_surcharge_count than a
    row in it. *)
Theorem leakage_top_ten (clean : list Trip) (out : list LeakageRow) :
  out = leakage_agg clean \/ is_leakage_agg clean out ->
  length out = Nat.min 10 (length (leakage_groups clean)) /\
  NoDup (map l_pickup_loc out) /\
  (forall lr, In lr out ->
     In lr (leakage_groups clean) /\ (1 <= total_trips lr)%nat) /\
  (forall lr g, In lr out -> In g (leakage_groups clean) -> ~ In g out ->
     (missing_surcharge_count g <= missing_surcharge_count lr)%nat).
Proof.
  intros Hout.
  assert (H : exists sorted,
             Permutation sorted (leakage_groups clean) /\
             non_increasing sorted /\ out = limit 10 sorted).
  { destruct Hout as [->|H]; [|exact H].
    exists (sort_desc (leakage_groups clean)).
    split; [apply sort_desc_perm|].
    split; [apply sort_desc_sorted | reflexivity]. }
  clear Hout. pose proof H as (sorted & Hperm & Hs & ->).
  split; [|split; [|split]].
  - unfold limit. rewrite length_firstn, (Permutation_length Hperm).
    reflexivity.
  - unfold limit. rewrite <- firstn_map. apply NoDup_firstn.
    apply (Permutation_NoDup (Permutation_map l_pickup_loc (Permutation_sym Hperm))).
    apply leakage_groups_keys.
  - intros lr Hlr. pose proof (is_leakage_agg_in _ _ _ H Hlr) as Hg.
    split; [exact Hg|].
    destruct (leakage_groups_spec _ _ Hg) as (_ & _ & Hne & -> & _).
    destruct (leakage_members clean (l_pickup_loc lr)); [congruence|simpl; lia].
  - intros lr g Hlr Hg Hout.
    apply (Permutation_in _ (Permutation_sym Hperm)) in Hg.
    rewrite <- (firstn_skipn 10 sorted) in Hg, Hs.
    apply in_app_or in Hg as [Hg|Hg]; [contradiction|].
    exact (non_increasing_app _ _ Hs lr g Hlr Hg).
Qed.

Lemma leakage_top_ten_witness :
  length (leakage_agg (q_clean (with_features Microseconds sample_trips))) =
  Nat.min 10
    (length (leakage_groups (q_clean (with_features Microseconds sample_trips)))).
Proof.
  exact (proj1 (leakage_top_ten
                  (q_clean (with_features Microseconds sample_trips)) _
                  (or_introl eq_refl))).
Defined.

(** ** When ingestion and the run succeed *)

Lemma downloaded_concat {A} (file : nat -> option (list A)) :
  concat (downloaded file) = month_rows file.
Proof.
  unfold downloaded, month_rows. generalize months. intros ms.
  induction ms as [|m ms IH]; simpl; [reflexivity|].
  rewrite concat_app, IH. destruct (file m); simpl; [|reflexivity].
  now rewrite app_nil_r.
Qed.

Lemma downloaded_nonempty {A} (file : nat -> option (list A)) :
  downloaded file <> [] <-> has_month file.
Proof.
  unfold downloaded, has_month. generalize months. intros ms.
  induction ms as [|m ms IH]; simpl.
  - split; [congruence | intros [m [[] _]]].
  - destruct (file m) as [f|] eqn:E; simpl.
    + split; [|discriminate]. intros _. exists m. split; [now left|].
      congruence.
    + rewrite IH. split.
      * intros [m' [H1 H2]]. exists m'. auto.
      * intros [m' [[<-|H1] H2]]; [congruence|]. exists m'. auto.
Qed.

Lemma ingest_months_ok (s : Sources) :
  has_month (yellow_tripdata s) -> has_month (green_tripdata s) ->
  ingest_and_unify s =
  Ok (map select_yellow (month_rows (yellow_tripdata s)) ++
      map select_green (month_rows (green_tripdata s))).
Proof.
  intros Hy Hg. rewrite <- !downloaded_concat.
  apply ingest_and_unify_ok; now apply downloaded_nonempty.
Qed.

Lemma ingest_months_err (s : Sources) :
  ~ (has_month (yellow_tripdata s) /\ has_month (green_tripdata s)) ->
  ingest_and_unify s = ComputeError.
Proof.
  intros Hn. destruct (yellow_files s) as [|y ys] eqn:Ey.
  - now apply ingest_and_unify_no_yellow.
  - destruct (green_files s) as [|g gs] eqn:Eg.
    + now apply ingest_and_unify_no_green.
    + exfalso. apply Hn. split; apply downloaded_nonempty.
      * unfold yellow_files in Ey. rewrite Ey. discriminate.
      * unfold green_files in Eg. rewrite Eg. discriminate.
Qed.

Lemma ingest_months_iff (s : Sources) :
  (exists q, ingest_and_unify s = Ok q) <->
  has_month (yellow_tripdata s) /\ has_month (green_tripdata s).
Proof.
  split.
  - intros [q Hq].
    destruct (yellow_files s) as [|y ys] eqn:Ey.
    { rewrite ingest_and_unify_no_yellow in Hq by assumption. discriminate. }
    destruct (green_files s) as [|g gs] eqn:Eg.
    { rewrite ingest_and_unify_no_green in Hq by assumption. discriminate. }
    split; apply downloaded_nonempty.
    + unfold yellow_files in Ey. rewrite Ey. discriminate.
    + unfold green_files in Eg. rewrite Eg. discriminate.
  - intros [Hy Hg]. eexists. now apply ingest_months_ok.
Qed.

(** Listed files: a scan of files that are all Parquet files is the scan of
    their rows, and a scan that meets another file raises. *)
Lemma listed_readable {A} (file : nat -> option (Listed A)) (ms : list nat) :
  (forall m, In m ms -> file m <> Some NotParquet) ->
  read_parquet
    (flat_map (fun m => match file m with Some f => [f] | None => [] end) ms) =
  Ok (concat
        (flat_map (fun m => match rows_of file m with
                            | Some f => [f] | None => [] end) ms)) /\
  (flat_map (fun m => match file m with Some f => [f] | None => [] end) ms = []
   <-> flat_map (fun m => match rows_of file m with
                          | Some f => [f] | None => [] end) ms = []).
Proof.
  unfold rows_of. induction ms as [|m ms IH]; intros H.
  - split; [reflexivity | tauto].
  - destruct IH as [IH1 IH2]; [intros m' Hm'; apply H; now right|].
    cbn [flat_map]. specialize (H m (or_introl eq_refl)).
    destruct (file m) as [[rows|]|]; [| congruence |].
    + cbn [app read_parquet concat]. rewrite IH1. cbn [bind].
      split; [reflexivity|]. split; discriminate.
    + cbn [app]. split; [exact IH1 | exact IH2].
Qed.

Lemma listed_unreadable {A} (file : nat -> option (Listed A)) (ms : list nat) :
  (exists m, In m ms /\ file m = Some NotParquet) ->
  read_parquet
    (flat_map (fun m => match file m with Some f => [f] | None => [] end) ms) =
  ComputeError /\
  flat_map (fun m => match file m with Some f => [f] | None => [] end) ms <> [].
Proof.
  induction ms as [|m ms IH]; intros [m' [Hin Hm']]; [contradiction|].
  cbn [flat_map].
  destruct (file m) as [[rows|]|] eqn:E.
  - destruct Hin as [<-|Hin]; [congruence|].
    destruct IH as [IH _]; [eauto|].
    cbn [app read_parquet]. rewrite IH. split; [reflexivity | discriminate].
  - split; [reflexivity | discriminate].
  - destruct Hin as [<-|Hin]; [congruence|]. cbn [app]. apply IH. eauto.
Qed.

Lemma readable_dec {A} (file : nat -> option (Listed A)) (ms : list nat) :
  (forall m, In m ms -> file m <> Some NotParquet) \/
  (exists m, In m ms /\ file m = Some NotParquet).
Proof.
  induction ms as [|m ms [IH|[m' [H1 H2]]]].
  - left. intros m [].
  - destruct (file m) as [[rows|]|] eqn:E.
    + left. intros m' [<-|H]; [congruence | auto].
    + right. exists m. split; [now left | exact E].
    + left. intros m' [<-|H]; [congruence | auto].
  - right. exists m'. split; [now right | exact H2].
Qed.

Lemma scan_parquet_files_readable {A} (file : nat -> option (Listed A)) :
  readable file ->
  scan_parquet_files (listed file) = scan_parquet (downloaded (rows_of file)).
Proof.
  intros H. destruct (listed_readable file months H) as [H1 H2].
  unfold scan_parquet_files, scan_parquet, listed, downloaded.
  destruct (flat_map _ months) as [|f fs] eqn:E.
  - rewrite (proj1 H2 eq_refl). reflexivity.
  - destruct (flat_map (fun m => match rows_of file m with
                                 | Some f => [f] | None => [] end) months)
      as [|g gs] eqn:E'.
    + destruct H2 as [_ H2]. specialize (H2 eq_refl). discriminate.
    + exact H1.
Qed.

Lemma scan_parquet_files_unreadable {A} (file : nat -> option (Listed A)) :
  ~ readable file -> scan_parquet_files (listed file) = ComputeError.
Proof.
  intros H. destruct (readable_dec file months) as [Hr|Hu]; [contradiction|].
  destruct (listed_unreadable file months Hu) as [H1 H2].
  unfold scan_parquet_files, listed.
  destruct (flat_map _ months); [reflexivity | exact H1].
Qed.

Lemma ingest_files_readable (l : Listing) :
  readable (yellow_paths l) -> readable (green_paths l) ->
  ingest_and_unify_files l = ingest_and_unify (sources_of l).
Proof.
  intros Hy Hg.
  unfold ingest_and_unify_files, ingest_and_unify, q_yellow, q_green,
    yellow_files, green_files, sources_of.
  cbn [yellow_tripdata green_tripdata].
  now rewrite (scan_parquet_files_readable _ Hy),
    (scan_parquet_files_readable _ Hg).
Qed.

Lemma ingest_files_unreadable (l : Listing) :
  ~ (readable (yellow_paths l) /\ readable (green_paths l)) ->
  ingest_and_unify_files l = ComputeError.
Proof.
  intros H. unfold ingest_and_unify_files.
  destruct (readable_dec (yellow_paths l) months) as [Hy|Hy].
  - destruct (readable_dec (green_paths l) months) as [Hg|Hg].
    + exfalso. apply H. split; assumption.
    + rewrite (scan_parquet_files_unreadable (green_paths l)).
      * rewrite (scan_parquet_files_readable _ Hy). unfold scan_parquet.
        destruct (downloaded _); reflexivity.
      * intros Hr. destruct Hg as [m [H1 H2]]. now apply (Hr m).
  - rewrite (scan_parquet_files_unreadable (yellow_paths l)); [reflexivity|].
    intros Hr. destruct Hy as [m [H1 H2]]. now apply (Hr m).
Qed.

Lemma has_month_rows_of {A} (file : nat -> option (Listed A)) :
  readable file -> (has_month (rows_of file) <-> is_listed file).
Proof.
  intros Hr. unfold has_month, is_listed, rows_of.
  split; intros [m [Hm H]]; exists m; (split; [exact Hm|]);
    specialize (Hr m Hm); destruct (file m) as [[rows|]|]; congruence.
Qed.

Lemma ingest_files_iff (l : Listing) :
  (exists q, ingest_and_unify_files l = Ok q) <->
  (is_listed (yellow_paths l) /\ readable (yellow_paths l)) /\
  (is_listed (green_paths l) /\ readable (green_paths l)).
Proof.
  split.
  - intros [q Hq].
    destruct (readable_dec (yellow_paths l) months) as [Hy|Hy].
    + destruct (readable_dec (green_paths l) months) as [Hg|Hg].
      * rewrite (ingest_files_readable l Hy Hg) in Hq.
        destruct (proj1 (ingest_months_iff (sources_of l))
                        (ex_intro _ q Hq)) as [H1 H2].
        apply (has_month_rows_of _ Hy) in H1.
        apply (has_month_rows_of _ Hg) in H2. tauto.
      * rewrite ingest_files_unreadable in Hq; [discriminate|].
        intros [_ Hr]. destruct Hg as [m [H1 H2]]. now apply (Hr m).
    + rewrite ingest_files_unreadable in Hq; [discriminate|].
      intros [Hr _]. destruct Hy as [m [H1 H2]]. now apply (Hr m).
  - intros [[Ly Hy] [Lg Hg]]. rewrite (ingest_files_readable l Hy Hg).
    apply ingest_months_iff. split; now apply has_month_rows_of.
Qed.

(** X7: Ingestion over the listed files succeeds exactly when each class has
    a listed file for some month and every listed file is a Parquet file of
    its class.  It then yields the projected rows of the yellow months that
    are listed, in month order, followed by those of the green months; a
    month that is missing contributes no row and no error.  Otherwise it
    raises: with no file of a class, or with a listed file that is no
    Parquet file, such as a broken download leaves.  When every listed file
    can be read, it is [ingest_and_unify] on the rows of the files. *)
Theorem ingest_and_unify_months (l : Listing) :
  ((exists q, ingest_and_unify_files l = Ok q) <->
   (is_listed (yellow_paths l) /\ readable (yellow_paths l)) /\
   (is_listed (green_paths l) /\ readable (green_paths l))) /\
  (is_listed (yellow_paths l) /\ readable (yellow_paths l) ->
   is_listed (green_paths l) /\ readable (green_paths l) ->
   ingest_and_unify_files l =
   Ok (map select_yellow (month_rows (rows_of (yellow_paths l))) ++
       map select_green (month_rows (rows_of (green_paths l))))) /\
  (~ ((is_listed (yellow_paths l) /\ readable (yellow_paths l)) /\
      (is_listed (green_paths l) /\ readable (green_paths l))) ->
   ingest_and_unify_files l = ComputeError) /\
  (readable (yellow_paths l) -> readable (green_paths l) ->
   ingest_and_unify_files l = ingest_and_unify (sources_of l)).
Proof.
  split; [apply ingest_files_iff|]. split; [|split].
  - intros [Ly Hy] [Lg Hg]. rewrite (ingest_files_readable l Hy Hg).
    apply (ingest_months_ok (sources_of l)); now apply has_month_rows_of.
  - intros Hn.
    destruct (readable_dec (yellow_paths l) months) as [Hy|Hy].
    + destruct (readable_dec (green_paths l) months) as [Hg|Hg].
      * rewrite (ingest_files_readable l Hy Hg).
        apply ingest_months_err. intros [H1 H2]. apply Hn.
        apply (has_month_rows_of _ Hy) in H1.
        apply (has_month_rows_of _ Hg) in H2. tauto.
      * apply ingest_files_unreadable.
        intros [_ Hr]. destruct Hg as [m [H1 H2]]. now apply (Hr m).
    + apply ingest_files_unreadable.
      intros [Hr _]. destruct Hy as [m [H1 H2]]. now apply (Hr m).
  - apply ingest_files_readable.
Qed.

Lemma ingest_and_unify_months_witness :
  ingest_and_unify_files january_listing =
    Ok (map select_yellow (month_rows (rows_of (yellow_paths january_listing))) ++
        map select_green (month_rows (rows_of (green_paths january_listing)))) /\
  ingest_and_unify_files january_broken = ComputeError.
Proof.
  split.
  - apply (proj1 (proj2 (ingest_and_unify_months january_listing))).
    + split; [exists 1%nat; split; [now left | discriminate]|].
      intros m _. simpl. destruct (Nat.eqb m 1); discriminate.
    + split; [exists 1%nat; split; [now left | discriminate]|].
      intros m _. simpl. destruct (Nat.eqb m 1); discriminate.
  - apply (proj1 (proj2 (proj2 (ingest_and_unify_months january_broken)))).
    intros [[_ Hr] _]. apply (Hr 1%nat); [now left | reflexivity].
Defined.

(** The weather frame. *)
Lemma length_weather_dates : length weather_dates = 365%nat.
Proof. reflexivity. Qed.

Lemma combine_map_seq {A B} (f : nat -> A) (d : B) (n a : nat) (vs : list B) :
  length vs = n ->
  combine (map f (seq a n)) vs =
  map (fun i => (f i, nth (i - a) vs d)) (seq a n).
Proof.
  revert a vs. induction n as [|n IH]; intros a vs H; simpl.
  - reflexivity.
  - destruct vs as [|v vs]; [discriminate|]. simpl.
    rewrite Nat.sub_diag. f_equal. rewrite (IH (S a) vs) by (simpl in H; lia).
    apply map_ext_in. intros i Hi. apply in_seq in Hi.
    replace (i - a)%nat with (S (i - S a)) by lia. reflexivity.
Qed.

Lemma fetch_weather_eq (values : list float) :
  fetch_weather values =
  if Nat.eqb (length values) 365
  then Ok (map (fun i =>
                  mkWeatherRow (Some (days_from_civil 2025 1 1 + Z.of_nat i))
                               (nth i values 0%float))
               (seq 0 365))
  else ShapeError.
Proof.
  unfold fetch_weather. rewrite length_weather_dates, Nat.eqb_sym.
  destruct (Nat.eqb (length values) 365) eqn:E; [|reflexivity].
  apply Nat.eqb_eq in E. f_equal. rewrite weather_dates_2025.
  rewrite (combine_map_seq _ 0%float 365 0 values E), map_map.
  apply map_ext. intros i. cbn [fst snd]. now rewrite Nat.sub_0_r.
Qed.

(** X8: [fetch_weather] answers a frame exactly when the archive gave 365 values:
    the frame then has 365 rows, row [i] being the [i]-th day of 2025 with
    the [i]-th value.  With any other number of values the frame cannot be
    built. *)
Theorem fetch_weather_shape (values : list float) :
  (length values = 365%nat ->
   exists df,
     fetch_weather values = Ok df /\ length df = 365%nat /\
     map precipitation_mm df = values /\
     forall i, (i < 365)%nat ->
       nth_error df i =
       Some (mkWeatherRow (Some (days_from_civil 2025 1 1 + Z.of_nat i))
                          (nth i values 0%float))) /\
  (length values <> 365%nat -> fetch_weather values = ShapeError).
Proof.
  split.
  - intros Hl. pose proof (fetch_weather_eq values) as H.
    rewrite Hl in H. cbn [Nat.eqb] in H.
    eexists. split; [exact H|]. split; [|split].
    + now rewrite length_map, length_seq.
    + apply (fetch_weather_dates _ _ H).
    + intros i Hi.
      rewrite (nth_error_map
                 (fun i => mkWeatherRow (Some (days_from_civil 2025 1 1 + Z.of_nat i))
                                        (nth i values 0%float))).
      rewrite nth_error_nth' with (d := 0%nat) by (rewrite length_seq; lia).
      rewrite seq_nth by lia. reflexivity.
  - intros Hl. rewrite fetch_weather_eq.
    apply Nat.eqb_neq in Hl. now rewrite Hl.
Qed.

Lemma fetch_weather_shape_witness :
  exists df, fetch_weather dry_year = Ok df /\ length df = 365%nat.
Proof.
  destruct (proj1 (fetch_weather_shape dry_year) eq_refl) as [df [H1 [H2 _]]].
  exists df. split; assumption.
Defined.

(** X9: A run that succeeds had a file of each class for some month and 365
    daily values from the archive.  Without a file of one class it raises
    the scan's error, whatever the archive gave.  With files of both classes
    (each a Parquet file of its class, as [Sources] describes them) and
    every pickup time between 1970-01-01 and the end of year 9999, so that
    no collect of the engine can fail on the calendar, it succeeds when the
    archive gave 365 values and raises the frame's error when it gave
    another number. *)
Theorem run_pipeline_succeeds (tu : TimeUnit) (w : World) :
  ((exists o, run_pipeline tu w = Ok o) ->
   has_month (yellow_tripdata (sources w)) /\
   has_month (green_tripdata (sources w)) /\
   length (precipitation_sum w) = 365%nat) /\
  (~ (has_month (yellow_tripdata (sources w)) /\
      has_month (green_tripdata (sources w))) ->
   run_pipeline tu w = ComputeError) /\
  (has_month (yellow_tripdata (sources w)) ->
   has_month (green_tripdata (sources w)) ->
   (forall q, ingest_and_unify (sources w) = Ok q ->
              forallb (in_calendar_range tu) q = true) ->
   (length (precipitation_sum w) = 365%nat ->
    exists o, run_pipeline tu w = Ok o) /\
   (length (precipitation_sum w) <> 365%nat ->
    run_pipeline tu w = ShapeError)).
Proof.
  pose proof (ingest_months_iff (sources w)) as Hiff.
  pose proof (ingest_months_ok (sources w)) as Hok.
  pose proof (ingest_months_err (sources w)) as Herr.
  unfold run_pipeline. rewrite fetch_weather_eq.
  split; [|split].
  - intros [o Ho].
    destruct (ingest_and_unify (sources w)) as [q| |] eqn:Eq;
      try discriminate.
    destruct (proj1 Hiff (ex_intro _ q eq_refl)) as [Hy Hg].
    split; [exact Hy|]. split; [exact Hg|]. cbn [bind] in Ho.
    destruct (Nat.eqb _ 365) eqn:E; [|discriminate].
    now apply Nat.eqb_eq.
  - intros Hn. now rewrite (Herr Hn).
  - intros Hy Hg _. rewrite (Hok Hy Hg). cbn [bind]. split.
    + intros Hl. rewrite Hl. cbn [Nat.eqb bind]. eexists. reflexivity.
    + intros Hl. apply Nat.eqb_neq in Hl. now rewrite Hl.
Qed.

Lemma run_pipeline_succeeds_witness :
  run_pipeline Microseconds
    {| sources := january; precipitation_sum := [] |} = ShapeError.
Proof.
  apply (run_pipeline_succeeds Microseconds
           {| sources := january; precipitation_sum := [] |}).
  - exists 1%nat. split; [now left | discriminate].
  - exists 1%nat. split; [now left | discriminate].
  - intros q Hq. vm_compute in Hq. injection Hq as <-. reflexivity.
  - discriminate.
Defined.

(** ** Trips counted in the weather table *)

Lemma list_sum_app (l1 l2 : list nat) :
  list_sum (l1 ++ l2) = (list_sum l1 + list_sum l2)%nat.
Proof. induction l1; simpl; lia. Qed.

Lemma weather_join_cons (wr : WeatherRow) (wdf : list WeatherRow)
      (trips : list DailyCount) :
  weather_join (wr :: wdf) trips =
  map (fun tr => mkElasticityRow (w_date wr) (precipitation_mm wr) (trip_count tr))
      (List.filter (fun tr => join_eqb (w_date wr) (d_date tr)) trips)
  ++ weather_join wdf trips.
Proof.
  unfold weather_join, join_inner. simpl. rewrite map_app, map_map. reflexivity.
Qed.

Lemma weather_join_sum (wdf : list WeatherRow) (trips : list DailyCount) :
  list_sum (map e_trip_count (weather_join wdf trips)) =
  list_sum
    (map (fun wr =>
            list_sum (map trip_count
                          (List.filter (fun tr => join_eqb (w_date wr) (d_date tr))
                                       trips)))
         wdf).
Proof.
  induction wdf as [|wr wdf IH]; [reflexivity|].
  rewrite weather_join_cons, map_app, list_sum_app, IH, map_map. reflexivity.
Qed.

(** In a frame with distinct keys, the rows matching a key of one of its rows
    are that row alone. *)
Lemma filter_unique {A} (key : A -> option Z) (f : A -> bool) (l : list A) (x : A) :
  NoDup (map key l) -> In x l ->
  (forall y, In y l -> f y = true <-> key y = key x) ->
  List.filter f l = [x].
Proof.
  induction l as [|a l IH]; simpl; intros Hnd Hin Hf; [contradiction|].
  inversion Hnd as [|? ? Ha Hnd']; subst.
  destruct Hin as [->|Hin].
  - rewrite (proj2 (Hf x (or_introl eq_refl)) eq_refl). f_equal.
    apply filter_none. intros y Hy.
    destruct (f y) eqn:E; [|reflexivity].
    apply (Hf y (or_intror Hy)) in E. exfalso. apply Ha. rewrite <- E.
    now apply in_map.
  - destruct (f a) eqn:E.
    + apply (Hf a (or_introl eq_refl)) in E. exfalso. apply Ha. rewrite E.
      now apply in_map.
    + apply IH; auto.
Qed.

(** The daily counts matching a date add up to the clean trips of that
    date. *)
Lemma daily_counts_match (clean : list Trip) (d : Z) :
  list_sum (map trip_count
                (List.filter (fun tr => join_eqb (Some d) (d_date tr))
                             (daily_counts clean))) =
  length (List.filter (fun t => key_eqb (date (timed t)) (Some d)) clean).
Proof.
  destruct (daily_counts_spec clean) as (Hnd & Hcnt & Hkey).
  assert (Hdec : forall a b : option Z, {a = b} + {a <> b})
    by (decide equality; apply Z.eq_dec).
  destruct (in_dec Hdec (Some d) (map d_date (daily_counts clean)))
    as [Hin|Hnin].
  - apply in_map_iff in Hin as [tr [Hd Htr]].
    rewrite (filter_unique d_date _ _ tr Hnd Htr).
    + simpl. rewrite Nat.add_0_r, (proj1 (Hcnt tr Htr)), Hd. reflexivity.
    + intros y _. rewrite Hd, join_eqb_true. split.
      * intros [z [E1 E2]]. congruence.
      * intros E. eauto.
  - rewrite !filter_none; [reflexivity| |].
    + intros t Ht. destruct (key_eqb _ _) eqn:E; [|reflexivity].
      apply key_eqb_eq in E. exfalso. apply Hnin. rewrite <- E. now apply Hkey.
    + intros tr Htr. destruct (join_eqb _ _) eqn:E; [|reflexivity].
      apply join_eqb_true in E as [z [E1 E2]]. exfalso. apply Hnin.
      rewrite E1, <- E2. now apply in_map.
Qed.

Lemma filter_orb_length {A} (f g : A -> bool) (l : list A) :
  (forall a, In a l -> f a && g a = false) ->
  length (List.filter (fun a => f a || g a) l) =
  (length (List.filter f l) + length (List.filter g l))%nat.
Proof.
  induction l as [|a l IH]; simpl; intros H; [reflexivity|].
  pose proof (H a (or_introl eq_refl)) as Ha.
  specialize (IH (fun b Hb => H b (or_intror Hb))).
  destruct (f a), (g a); simpl in *; try discriminate; lia.
Qed.

(** Over distinct dates, the clean trips of each date add up to the clean
    trips of any of them. *)
Lemma count_by_dates (clean : list Trip) (ks : list Z) :
  NoDup ks ->
  list_sum
    (map (fun d => length (List.filter
                             (fun t => key_eqb (date (timed t)) (Some d)) clean))
         ks) =
  length (List.filter
            (fun t => match date (timed t) with
                      | Some n => existsb (Z.eqb n) ks
                      | None => false
                      end) clean).
Proof.
  induction ks as [|k ks IH]; intros Hnd; simpl.
  - rewrite filter_none; [reflexivity|]. intros t _.
    now destruct (date (timed t)).
  - inversion Hnd as [|? ? Hk Hnd']; subst. rewrite IH by assumption.
    rewrite <- filter_orb_length.
    + f_equal. apply filter_ext. intros t.
      destruct (date (timed t)) as [n|]; simpl; [|reflexivity].
      reflexivity.
    + intros t _. destruct (date (timed t)) as [n|]; simpl; [|reflexivity].
      destruct (n =? k) eqn:E; [|reflexivity]. apply Z.eqb_eq in E. subst n.
      simpl. destruct (existsb (Z.eqb k) ks) eqn:E'; [|reflexivity].
      apply existsb_exists in E' as [y [Hy E']]. apply Z.eqb_eq in E'.
      subst y. contradiction.
Qed.

Lemma existsb_2025 (n : Z) :
  existsb (Z.eqb n) (map (fun i => 20089 + Z.of_nat i) (seq 0 365)) =
  in_2025 (Some n).
Proof.
  change (in_2025 (Some n)) with ((20089 <=? n) && (n <=? 20453)).
  destruct ((20089 <=? n) && (n <=? 20453)) eqn:E.
  - apply andb_true_iff in E as [E1 E2].
    apply Z.leb_le in E1. apply Z.leb_le in E2.
    apply existsb_exists. exists n. split; [|apply Z.eqb_refl].
    apply in_map_iff. exists (Z.to_nat (n - 20089)). split; [lia|].
    apply in_seq. lia.
  - destruct (existsb _ _) eqn:E'; [|reflexivity].
    apply existsb_exists in E' as [y [Hy E']]. apply Z.eqb_eq in E'. subst y.
    apply in_map_iff in Hy as [i [Hi Hs]]. apply in_seq in Hs.
    apply andb_false_iff in E as [E|E]; [apply Z.leb_gt in E | apply Z.leb_gt in E];
      lia.
Qed.

(** X10: The weather-elasticity table of a run has one row for each day of 2025 on
    which a clean trip was picked up: its trip_count is the number of clean
    trips picked up that day, its precipitation_mm the archive's value for
    that day.  Its trip counts add up to the clean trips picked up in 2025;
    clean trips picked up on another date are in no row. *)
Theorem weather_elasticity_totals (tu : TimeUnit) (w : World) (o : Outputs)
        (q : list Row) :
  run_pipeline tu w = Ok o ->
  ingest_and_unify (sources w) = Ok q ->
  NoDup (map e_date (weather_elasticity o)) /\
  (forall e, In e (weather_elasticity o) ->
     exists i, (i < 365)%nat /\
       e_date e = Some (days_from_civil 2025 1 1 + Z.of_nat i) /\
       e_precipitation_mm e = nth i (precipitation_sum w) 0%float /\
       e_trip_count e =
         length (List.filter (fun t => key_eqb (date (timed t)) (e_date e))
                             (q_clean (with_features tu q))) /\
       (1 <= e_trip_count e)%nat) /\
  (forall t, In t (q_clean (with_features tu q)) ->
     in_2025 (date (timed t)) = true ->
     In (date (timed t)) (map e_date (weather_elasticity o))) /\
  list_sum (map e_trip_count (weather_elasticity o)) =
    length (List.filter (fun t => in_2025 (date (timed t)))
                        (q_clean (with_features tu q))).
Proof.
  intros Hrun Hq.
  destruct (run_pipeline_ok tu w o Hrun) as (q' & wdf & Hq' & Hw & _ & _ & Ho).
  rewrite Hq in Hq'. injection Hq' as <-. rewrite Ho. clear Ho.
  set (clean := q_clean (with_features tu q)).
  destruct (daily_counts_spec clean) as (Hnd & Hcnt & Hkey).
  pose proof Hw as Hshape. rewrite fetch_weather_eq in Hshape.
  destruct (Nat.eqb _ 365) eqn:Elen; [|discriminate].
  assert (Hwdf : map (fun i =>
                  mkWeatherRow (Some (days_from_civil 2025 1 1 + Z.of_nat i))
                               (nth i (precipitation_sum w) 0%float))
               (seq 0 365) = wdf) by congruence.
  clear Hshape.
  destruct (fetch_weather_dates _ _ Hw) as [Hdates _].
  split; [|split; [|split]].
  - (* distinct dates *)
    assert (Hsub : forall wdf', NoDup (map w_date wdf') ->
              NoDup (map e_date (weather_join wdf' (daily_counts clean)))).
    { induction wdf' as [|wr wdf' IH]; intros Hn; [constructor|].
      inversion Hn as [|? ? Hwr Hn']; subst.
      rewrite weather_join_cons, map_app, map_map. simpl.
      pose proof (matches_le_one d_date (w_date wr) (daily_counts clean) Hnd) as Hle.
      remember (List.filter (fun tr => join_eqb (w_date wr) (d_date tr))
                            (daily_counts clean)) as ms eqn:Ems.
      clear Ems. destruct ms as [|tr [|tr' rest]];
        cbn [map app length] in *; [now apply IH| |lia].
      constructor; [|now apply IH].
      intros Hin. apply in_map_iff in Hin as [e [He Hin]].
      apply in_weather_join in Hin as (wr' & tr' & d & Hwr' & _ & E1 & _ & ->).
      simpl in He. apply Hwr. rewrite <- He, <- E1. now apply in_map. }
    apply Hsub. rewrite Hdates. apply weather_dates_NoDup.
  - intros e He. apply in_weather_join in He
      as (wr & tr & d & Hwr & Htr & E1 & E2 & ->).
    rewrite <- Hwdf in Hwr. apply in_map_iff in Hwr as [i [<- Hi]].
    apply in_seq in Hi. cbn [w_date precipitation_mm] in *. exists i.
    cbn [e_date e_precipitation_mm e_trip_count].
    split; [lia|]. split; [congruence|]. split; [reflexivity|].
    destruct (Hcnt tr Htr) as [Hc H1].
    split; [now rewrite Hc, E2 | exact H1].
  - intros t Ht H25.
    destruct (date (timed t)) as [n|] eqn:En; [|discriminate].
    apply in_map_iff.
    assert (Hd : In (Some n) (map d_date (daily_counts clean))).
    { rewrite <- En. now apply Hkey. }
    apply in_map_iff in Hd as [tr [Hd Htr]].
    assert (Hwd : In (Some n) (map w_date wdf)).
    { rewrite Hdates, weather_dates_2025. rewrite <- existsb_2025 in H25.
      apply existsb_exists in H25 as [y [Hy E]]. apply Z.eqb_eq in E. subst y.
      apply in_map_iff in Hy as [i [<- Hi]]. apply in_map_iff. eauto. }
    apply in_map_iff in Hwd as [wr [Hwd Hwr]].
    exists (mkElasticityRow (Some n) (precipitation_mm wr) (trip_count tr)).
    split; [reflexivity|]. apply in_weather_join. exists wr, tr, n. auto.
  - rewrite weather_join_sum.
    rewrite (map_ext_in _
      (fun wr => match w_date wr with
                 | Some d => length (List.filter
                                (fun t => key_eqb (date (timed t)) (Some d)) clean)
                 | None => 0%nat
                 end)).
    + rewrite <- (map_map w_date
        (fun k => match k with
                  | Some d => length (List.filter
                                (fun t => key_eqb (date (timed t)) (Some d)) clean)
                  | None => 0%nat
                  end)).
      rewrite Hdates, weather_dates_2025.
      rewrite <- (map_map (fun i => 20089 + Z.of_nat i) Some), map_map.
      rewrite count_by_dates.
      * f_equal. apply filter_ext. intros t.
        destruct (date (timed t)) as [n|]; [apply existsb_2025 | reflexivity].
      * apply Injective_map_NoDup; [|apply seq_NoDup].
        intros i j H. lia.
    + intros wr Hwr. destruct (w_date wr) as [d|] eqn:E.
      * apply daily_counts_match.
      * rewrite filter_none; [reflexivity|]. intros tr _. reflexivity.
Qed.

Lemma weather_elasticity_totals_witness :
  list_sum (map e_trip_count (weather_elasticity january_outputs)) =
  length (List.filter (fun t => in_2025 (date (timed t)))
                      (q_clean (with_features Microseconds january_rows))).
Proof.
  apply (weather_elasticity_totals Microseconds january_world january_outputs
           january_rows).
  - vm_compute. reflexivity.
  - reflexivity.
Defined.

(** ** Months *)

Lemma all_from_spec (p : positive) (start : Z) (f : Z -> bool) :
  all_from p start f = true ->
  forall z, start <= z < start + Z.pos p -> f z = true.
Proof.
  revert start. induction p as [p IH|p IH|]; simpl; intros start H z Hz.
  - apply andb_true_iff in H as [H H3]. apply andb_true_iff in H as [H1 H2].
    destruct (Z.eq_dec z start) as [->|Hne]; [exact H1|].
    destruct (Z_lt_le_dec z (start + 1 + Z.pos p)).
    + apply (IH _ H2). lia.
    + apply (IH _ H3). lia.
  - apply andb_true_iff in H as [H1 H2].
    destruct (Z_lt_le_dec z (start + Z.pos p)).
    + apply (IH _ H1). lia.
    + apply (IH _ H2). lia.
  - replace z with start by lia. exact H.
Qed.

Lemma era_year_mono (a b : Z) :
  0 <= a <= b -> b <= 146096 -> era_year a <= era_year b.
Proof.
  intros Hab Hb. unfold era_year. apply Z.div_le_mono; [lia|].
  Z.div_mod_to_equations. lia.
Qed.

Lemma era_years_checked : all_from 400 0 era_year_ok = true.
Proof. vm_compute. reflexivity. Qed.

Lemma year_days_checked : all_from 366 0 year_day_ok = true.
Proof. vm_compute. reflexivity. Qed.

Lemma era_year_ok_spec (y : Z) :
  0 <= y <= 399 ->
  era_year (year_start y) = y /\
  era_year (year_start (y + 1) - 1) = y /\
  year_start (y + 1) - year_start y <= 366 /\
  year_start y <= year_start (y + 1).
Proof.
  intros Hy.
  pose proof (all_from_spec _ _ _ era_years_checked y ltac:(lia)) as H.
  unfold era_year_ok in H.
  repeat (apply andb_true_iff in H as [H ?]).
  repeat split; try (now apply Z.eqb_eq); now apply Z.leb_le.
Qed.

Lemma year_start_bounds (y : Z) :
  0 <= y <= 399 -> 0 <= year_start y <= 145731.
Proof. intros H. unfold year_start. Z.div_mod_to_equations. lia. Qed.

(** A day of the era lies in its year, the year has at most 366 days, and
    every day from the first of the year up to it has the same year. *)
Lemma era_year_spec (doe : Z) :
  0 <= doe <= 146096 ->
  0 <= era_year doe <= 399 /\
  0 <= doe - year_start (era_year doe) <= 365 /\
  (forall doe', year_start (era_year doe) <= doe' <= doe ->
     era_year doe' = era_year doe).
Proof.
  intros Hd.
  assert (H0 : era_year 0 = 0) by reflexivity.
  assert (Htop : era_year 146096 = 399) by reflexivity.
  assert (Hy : 0 <= era_year doe <= 399).
  { split.
    - rewrite <- H0. apply era_year_mono; lia.
    - rewrite <- Htop. apply era_year_mono; lia. }
  set (y := era_year doe) in *.
  assert (Hlo : year_start y <= doe).
  { destruct (Z_le_gt_dec (year_start y) doe) as [H|H]; [exact H|exfalso].
    assert (Hy1 : 1 <= y).
    { destruct (Z.eq_dec y 0) as [E|E]; [|lia].
      rewrite E in H. change (year_start 0) with 0 in H. lia. }
    destruct (era_year_ok_spec (y - 1) ltac:(lia)) as (_ & Hend & _ & _).
    replace (y - 1 + 1) with y in Hend by lia.
    pose proof (year_start_bounds y Hy) as Hb.
    assert (Hmono : era_year doe <= era_year (year_start y - 1))
      by (apply era_year_mono; lia).
    fold y in Hmono. lia. }
  pose proof (year_start_bounds y Hy) as Hstart.
  assert (Hhi : doe - year_start y <= 365).
  { destruct (Z.eq_dec y 399) as [E|E].
    - rewrite E. change (year_start 399) with 145731. lia.
    - destruct (era_year_ok_spec y ltac:(lia)) as (_ & _ & Hlen & Hle).
      destruct (era_year_ok_spec (y + 1) ltac:(lia)) as (Hnext & _ & _ & _).
      destruct (Z_lt_le_dec doe (year_start (y + 1))) as [H|H]; [lia|exfalso].
      assert (Hmono : era_year (year_start (y + 1)) <= era_year doe)
        by (apply era_year_mono; lia).
      fold y in Hmono. lia. }
  split; [exact Hy|]. split; [lia|].
  intros doe' Hd'.
  destruct (era_year_ok_spec y Hy) as (Hfirst & _ & _ & _).
  assert (Hm1 : era_year (year_start y) <= era_year doe')
    by (apply era_year_mono; lia).
  assert (Hm2 : era_year doe' <= era_year doe) by (apply era_year_mono; lia).
  fold y in Hm2. lia.
Qed.

Lemma year_day_ok_spec (doy : Z) :
  0 <= doy <= 365 ->
  let '(mp, m, d) := year_parts doy in
  0 <= mp <= 11 /\ 1 <= d <= 31 /\ (m + 9) mod 12 = mp /\ 1 <= m <= 12 /\
  year_parts ((153 * mp + 2) / 5) = (mp, m, 1) /\
  doy - (d - 1) = (153 * mp + 2) / 5.
Proof.
  intros Hd.
  pose proof (all_from_spec _ _ _ year_days_checked doy ltac:(lia)) as H.
  unfold year_day_ok in H.
  destruct (year_parts doy) as [[mp m] d] eqn:E.
  destruct (year_parts (doy - (d - 1))) as [[mp1 m1] d1] eqn:E1.
  repeat (apply andb_true_iff in H as [H ?]).
  repeat match goal with
         | H : (_ <=? _) = true |- _ => apply Z.leb_le in H
         | H : (_ =? _) = true |- _ => apply Z.eqb_eq in H
         end.
  subst mp1 d1.
  assert (m1 = m).
  { unfold year_parts in E, E1. injection E as Emp Em _. injection E1 as Emp1 Em1 _.
    rewrite Emp1 in Em1. rewrite Emp in Em. congruence. }
  subst m1.
  repeat split; try lia. congruence.
Qed.

Lemma era_day_range (n : Z) :
  0 <= n + 719468 - (n + 719468) / 146097 * 146097 <= 146096.
Proof. Z.div_mod_to_equations. lia. Qed.

Lemma civil_from_days_parts (n : Z) :
  civil_from_days n =
  let era := (n + 719468) / 146097 in
  let doe := n + 719468 - era * 146097 in
  let yoe := era_year doe in
  let '(mp, m, d) := year_parts (doe - year_start yoe) in
  (if m <=? 2 then yoe + era * 400 + 1 else yoe + era * 400, m, d).
Proof. reflexivity. Qed.

Lemma days_from_civil_parts (era yoe mp m d : Z) :
  0 <= yoe <= 399 -> (m + 9) mod 12 = mp ->
  days_from_civil (if m <=? 2 then yoe + era * 400 + 1 else yoe + era * 400) m d =
  era * 146097 + year_start yoe + (153 * mp + 2) / 5 + d - 1 - 719468.
Proof.
  intros Hy Hm. unfold days_from_civil, year_start.
  replace (if m <=? 2
           then (if m <=? 2 then yoe + era * 400 + 1 else yoe + era * 400) - 1
           else (if m <=? 2 then yoe + era * 400 + 1 else yoe + era * 400))
    with (yoe + era * 400) by (destruct (m <=? 2); lia).
  cbv zeta. rewrite Z.div_add, (Z.div_small yoe 400), Hm by lia.
  replace (yoe + era * 400 - (0 + era) * 400) with yoe by lia. lia.
Qed.

(** The day number of the civil date of a day number is that day number; the
    first day of its month is the day number less the days of the month gone
    by, and has the same year and month, and day 1. *)
Lemma civil_round_trip (n : Z) :
  let '(y, m, d) := civil_from_days n in
  days_from_civil y m d = n /\
  1 <= m <= 12 /\ 1 <= d <= 31 /\
  truncate_1mo n = n - (d - 1) /\
  civil_from_days (truncate_1mo n) = (y, m, 1).
Proof.
  pose proof (era_day_range n) as Hdoe.
  assert (Htr : truncate_1mo n =
                let '(y, m, _) := civil_from_days n in days_from_civil y m 1)
    by reflexivity.
  rewrite civil_from_days_parts in *. cbv zeta in *.
  set (era := (n + 719468) / 146097) in *.
  set (doe := n + 719468 - era * 146097) in *.
  destruct (era_year_spec doe Hdoe) as (Hy & Hdoy & Hsame).
  set (yoe := era_year doe) in *.
  pose proof (year_day_ok_spec (doe - year_start yoe) Hdoy) as Hparts.
  destruct (year_parts (doe - year_start yoe)) as [[mp m] d] eqn:E.
  destruct Hparts as (Hmp & Hd & Hm9 & Hm & Hfirst & Hdoy1).
  assert (Hd_eq : d = doe - year_start yoe - (153 * mp + 2) / 5 + 1).
  { unfold year_parts in E. injection E as Emp _ Ed. rewrite Emp in Ed. lia. }
  rewrite !(days_from_civil_parts era yoe mp m) by assumption.
  rewrite (days_from_civil_parts era yoe mp m 1) in Htr by assumption.
  split; [lia|]. split; [exact Hm|]. split; [exact Hd|].
  split; [lia|].
  rewrite Htr, civil_from_days_parts. cbv zeta.
  set (doe1 := year_start yoe + (153 * mp + 2) / 5).
  assert (Hx : 0 <= (153 * mp + 2) / 5) by (apply Z.div_pos; lia).
  assert (Hdoe1 : year_start yoe <= doe1 <= doe) by (unfold doe1; lia).
  pose proof (year_start_bounds yoe Hy) as Hys.
  assert (Hera : (era * 146097 + year_start yoe + (153 * mp + 2) / 5 + 1 - 1
                  - 719468 + 719468) / 146097 = era).
  { replace (era * 146097 + year_start yoe + (153 * mp + 2) / 5 + 1 - 1
             - 719468 + 719468) with (doe1 + era * 146097) by (unfold doe1; lia).
    rewrite Z.div_add, Z.div_small by lia. lia. }
  rewrite Hera.
  replace (era * 146097 + year_start yoe + (153 * mp + 2) / 5 + 1 - 1
           - 719468 + 719468 - era * 146097) with doe1 by (unfold doe1; lia).
  rewrite (Hsame doe1 Hdoe1). fold yoe.
  replace (doe1 - year_start yoe) with ((153 * mp + 2) / 5) by (unfold doe1; lia).
  rewrite Hfirst. reflexivity.
Qed.

Lemma truncate_1mo_spec (n : Z) :
  n - 30 <= truncate_1mo n <= n /\
  truncate_1mo (truncate_1mo n) = truncate_1mo n /\
  (exists y m d d1,
     civil_from_days n = (y, m, d) /\
     civil_from_days (truncate_1mo n) = (y, m, d1) /\ d1 = 1 /\
     truncate_1mo n = n - (d - 1) /\ 1 <= m <= 12).
Proof.
  pose proof (civil_round_trip n) as H.
  destruct (civil_from_days n) as [[y m] d] eqn:E.
  destruct H as (Hrt & Hm & Hd & Htr & Hciv).
  split; [lia|]. split.
  - unfold truncate_1mo at 1. rewrite Hciv.
    unfold truncate_1mo. now rewrite E.
  - exists y, m, d, 1. auto.
Qed.

(** ** Grouping on several columns *)

Section GroupByWith.
Context {K A : Type} (eqb : K -> K -> bool).
Hypothesis eqb_eq : forall a b, eqb a b = true <-> a = b.





End GroupByWith.


(** ** The velocity table *)

(** A clean row has its pickup time, and so its date, hour and weekday. *)
Lemma clean_row_calendar (tu : TimeUnit) (q : list Row) (t : Trip) :
  In t (q_clean (with_features tu q)) ->
  exists p,
    pickup_time (row t) = Some p /\
    date (timed t) = Some (dt_date tu p) /\
    hour (timed t) = Some (dt_hour tu p) /\
    weekday (timed t) = Some (dt_weekday tu p).
Proof.
  intros Hc. destruct (q_clean_tests _ t Hc) as ([s [Hs _]] & _).
  apply in_q_clean in Hc as [Hin _].
  apply in_with_features in Hin as [r [_ ->]].
  destruct (speed_needs_fields tu r s Hs) as (Hp & _).
  unfold row. simpl.
  destruct (pickup_time r) as [p|]; [|congruence]. exists p. auto.
Qed.

Section Tables.
Variable mean : list float -> float.



End Tables.


(** ** The economics table *)

Lemma same_month_iff (n first y m : Z) :
  civil_from_days first = (y, m, 1) ->
  truncate_1mo n = first <-> exists d, civil_from_days n = (y, m, d).
Proof.
  intros Hf. pose proof (civil_round_trip first) as Hrt. rewrite Hf in Hrt.
  destruct Hrt as (Hrt & _).
  destruct (truncate_1mo_spec n) as (_ & _ & (y' & m' & d' & d1 & E & E1 & -> & _)).
  split.
  - intros Ht. rewrite Ht, Hf in E1. injection E1 as <- <-. eauto.
  - intros [d Ed]. unfold truncate_1mo. rewrite Ed. exact Hrt.
Qed.

(** The civil year of a date from 1970-01-01 to the end of year 9999. *)
Lemma civil_year_range (n y m d : Z) :
  days_from_civil 1970 1 1 <= n < days_from_civil 10000 1 1 ->
  civil_from_days n = (y, m, d) -> 1970 <= y <= 9999.
Proof.
  intros Hn E. pose proof (civil_round_trip n) as H. rewrite E in H.
  destruct H as (Hd & Hm & Hday & _).
  change (days_from_civil 1970 1 1) with 0 in Hn.
  change (days_from_civil 10000 1 1) with 2932897 in Hn.
  rewrite <- Hd in Hn. clear Hd E. unfold days_from_civil in Hn.
  destruct (m <=? 2) eqn:Em; [apply Z.leb_le in Em | apply Z.leb_gt in Em];
    Z.div_mod_to_equations; lia.
Qed.

Section Economics.
Variable mean : list float -> float.
Variable truncates : Z -> bool.
Hypothesis truncates_range :
  forall d, days_from_civil 1970 1 1 <= d < days_from_civil 10000 1 1 ->
            truncates d = true.

Lemma economics_collect_range (tu : TimeUnit) (q : list Row) :
  forallb (in_calendar_range tu) q = true ->
  economics_collect mean truncates (q_clean (with_features tu q)) =
  Some (economics_agg mean (q_clean (with_features tu q))).
Proof.
  intros Hr. unfold economics_collect.
  replace (forallb _ (q_clean (with_features tu q))) with true; [reflexivity|].
  symmetry. apply forallb_forall. intros t Ht.
  apply in_q_clean in Ht as [Hin _].
  apply in_with_features in Hin as [r [Hq ->]].
  rewrite forallb_forall in Hr. specialize (Hr r Hq).
  pose proof (in_calendar_range_date tu r) as Hd.
  cbn [derive add_speed add_calendar timed date].
  destruct (pickup_time r) as [p|]; [|reflexivity].
  cbn [lift1]. apply truncates_range. now apply Hd.
Qed.

(** X12: When every pickup time lies between 1970-01-01 and the end of year
    9999, where the engine truncates every date, the economics collect
    succeeds, and its table has one row per calendar month in which a clean
    trip was picked up, keyed by the first day of that month, a month of a
    year from 1970 to 9999; the trips averaged into a row are the clean
    trips picked up in that year and month, at least one; and every clean
    trip is in the row of its month. *)
Theorem economics_table (tu : TimeUnit) (q : list Row) :
  forallb (in_calendar_range tu) q = true ->
  economics_collect mean truncates (q_clean (with_features tu q)) =
    Some (economics_agg mean (q_clean (with_features tu q))) /\
  NoDup (map month (economics_agg mean (q_clean (with_features tu q)))) /\
  (forall e, In e (economics_agg mean (q_clean (with_features tu q))) ->
     exists first y m,
       month e = Some first /\ civil_from_days first = (y, m, 1) /\
       1 <= m <= 12 /\ 1970 <= y <= 9999 /\
       let grp := List.filter
                    (fun t => key_eqb (lift1 truncate_1mo (date (timed t)))
                                      (Some first))
                    (q_clean (with_features tu q)) in
       grp <> [] /\
       avg_surcharge e =
         col_mean mean (map (fun t => congestion_surcharge (row t)) grp) /\
       avg_tip_amt e =
         col_mean mean
           (map (fun t => lift2 PrimFloat.sub (total_amount (row t)) (fare (row t)))
                grp) /\
       (forall t, In t (q_clean (with_features tu q)) ->
          In t grp <->
          exists n d, date (timed t) = Some n /\ civil_from_days n = (y, m, d)) /\
       (forall t n, In t grp -> date (timed t) = Some n -> n - 30 <= first <= n)) /\
  (forall t, In t (q_clean (with_features tu q)) ->
     exists n, date (timed t) = Some n /\
               In (Some (truncate_1mo n))
                  (map month (economics_agg mean (q_clean (with_features tu q))))).
Proof.
  intros Hr. split; [now apply economics_collect_range|].
  assert (Hrange : forall t p,
            In t (q_clean (with_features tu q)) ->
            pickup_time (row t) = Some p ->
            days_from_civil 1970 1 1 <= dt_date tu p < days_from_civil 10000 1 1).
  { intros t p Ht Hp. apply in_q_clean in Ht as [Hin _].
    apply in_with_features in Hin as [r [Hq ->]].
    rewrite forallb_forall in Hr.
    exact (in_calendar_range_date tu r p (Hr r Hq) Hp). }
  set (clean := q_clean (with_features tu q)) in *.
  unfold economics_agg.
  destruct (group_by_spec (fun t => lift1 truncate_1mo (date (timed t))) clean)
    as (Hnd & Hgrp & Hkey).
  rewrite !map_map. cbn [month]. split; [exact Hnd|]. split.
  - intros e He. apply in_map_iff in He as [[k xs] [<- Hg]].
    destruct (Hgrp _ _ Hg) as [Hxs Hne].
    cbn [fst snd month avg_surcharge avg_tip_amt].
    destruct xs as [|t0 xs0] eqn:Exs; [congruence|].
    assert (Ht0 : In t0 (List.filter
                           (fun x => key_eqb (lift1 truncate_1mo (date (timed x))) k)
                           clean)) by (rewrite <- Hxs; now left).
    apply filter_In in Ht0 as [Hc0 Hk0]. apply key_eqb_eq in Hk0.
    destruct (clean_row_calendar tu q t0 Hc0) as (p0 & Hp0 & Hd0 & _).
    rewrite Hd0 in Hk0. simpl in Hk0.
    destruct (truncate_1mo_spec (dt_date tu p0))
      as (_ & _ & (y & m & d & d1 & E & E1 & -> & _ & Hm)).
    exists (truncate_1mo (dt_date tu p0)), y, m.
    split; [now rewrite <- Hk0|]. split; [exact E1|]. split; [exact Hm|].
    split; [exact (civil_year_range _ y m d (Hrange t0 p0 Hc0 Hp0) E)|].
    cbv zeta. rewrite Hk0, <- Hxs.
    split; [discriminate|]. split; [reflexivity|]. split; [reflexivity|].
    split.
    + intros t Ht. rewrite Hxs, filter_In, key_eqb_eq, <- Hk0.
      destruct (clean_row_calendar tu q t Ht) as (p & _ & Hd & _).
      rewrite Hd. simpl. split.
      * intros [_ Et]. exists (dt_date tu p).
        assert (Etr : truncate_1mo (dt_date tu p) = truncate_1mo (dt_date tu p0))
          by congruence.
        apply (same_month_iff _ _ y m E1) in Etr as [d' Ed']. eauto.
      * intros (n & d' & En & Ec). injection En as <-.
        split; [exact Ht|]. f_equal. apply (same_month_iff _ _ y m E1). eauto.
    + intros t n Ht En. rewrite Hxs in Ht. apply filter_In in Ht as [_ Hk].
      apply key_eqb_eq in Hk. rewrite En, <- Hk0 in Hk. simpl in Hk.
      injection Hk as Hk. rewrite <- Hk.
      apply (truncate_1mo_spec n).
  - intros t Ht. destruct (clean_row_calendar tu q t Ht) as (p & _ & Hd & _).
    exists (dt_date tu p). split; [exact Hd|].
    pose proof (Hkey t Ht) as Hin. rewrite Hd in Hin. exact Hin.
Qed.

End Economics.

Lemma economics_table_witness :
  economics_collect (fun _ => 0%float) (fun _ => true)
    (q_clean (with_features Microseconds sample_trips)) =
  Some (economics_agg (fun _ => 0%float)
          (q_clean (with_features Microseconds sample_trips))).
Proof.
  exact (proj1 (economics_table (fun _ => 0%float) (fun _ => true)
                  (fun _ _ => eq_refl) Microseconds sample_trips eq_refl)).
Defined.

(** ** download_file *)

Lemma path_exists_write (path content p : string) (st : Machine) :
  files (write_file path content st) p =
  if String.eqb p path then Some content else files st p.
Proof. reflexivity. Qed.

Lemma download_file_cached (out : Outside) (url path : string) (st : Machine) :
  path_exists st path = true -> download_file out url path st = (true, st).
Proof. intros H. unfold download_file. now rewrite H. Qed.

Lemma download_file_frame (out : Outside) (url path : string) (st : Machine) :
  forall p, p <> path ->
    files (snd (download_file out url path st)) p = files st p.
Proof.
  intros p Hp. unfold download_file.
  destruct (path_exists st path); [reflexivity|].
  destruct (http_get out url) as [code chunks breaks|]; [|reflexivity].
  destruct (code =? 200); [|reflexivity].
  destruct (can_open out path); [|reflexivity].
  apply String.eqb_neq in Hp.
  destruct breaks; simpl; now rewrite Hp.
Qed.

Lemma download_file_keeps (out : Outside) (url path : string) (st : Machine) :
  forall p, path_exists st p = true ->
    files (snd (download_file out url path st)) p = files st p.
Proof.
  intros p Hp. destruct (String.eqb p path) eqn:E.
  - apply String.eqb_eq in E. subst p.
    now rewrite download_file_cached.
  - apply String.eqb_neq in E. now apply download_file_frame.
Qed.

Lemma download_file_fresh (out : Outside) (url path : string) (st : Machine) :
  path_exists st path = false ->
  requests (snd (download_file out url path st)) = requests st ++ [url] /\
  (fst (download_file out url path st) = true <->
   exists chunks, http_get out url = Answer 200 chunks false /\
                  can_open out path = true) /\
  (forall code chunks breaks,
     http_get out url = Answer code chunks breaks ->
     code = 200 -> can_open out path = true ->
     files (snd (download_file out url path st)) path =
       Some (String.concat "" chunks)) /\
  (path_exists (snd (download_file out url path st)) path = true <->
   exists chunks breaks, http_get out url = Answer 200 chunks breaks /\
                         can_open out path = true).
Proof.
  intros Hp. unfold download_file, path_exists in *. rewrite Hp.
  destruct (files st path) eqn:Ef; [discriminate|].
  destruct (http_get out url) as [code chunks breaks|] eqn:Eg.
  - destruct (code =? 200) eqn:Ec.
    + apply Z.eqb_eq in Ec. subst code.
      destruct (can_open out path) eqn:Eo.
      * destruct breaks; simpl; rewrite String.eqb_refl.
        -- split; [reflexivity|]. split; [|split].
           ++ split; [discriminate|]. intros [c [E _]]. congruence.
           ++ intros code' chunks' breaks' E _ _. congruence.
           ++ split; eauto.
        -- split; [reflexivity|]. split; [|split].
           ++ split; eauto.
           ++ intros code' chunks' breaks' E _ _. congruence.
           ++ split; eauto.
      * simpl. rewrite Ef. split; [reflexivity|]. split; [|split].
        -- split; [discriminate|]. intros [c [_ E]]. discriminate.
        -- intros ? ? ? _ _ E. discriminate.
        -- split; [discriminate|]. intros [c [b [_ E]]]. discriminate.
    + apply Z.eqb_neq in Ec. simpl. rewrite Ef.
      split; [reflexivity|]. split; [|split].
      * split; [discriminate|]. intros [c [E _]]. congruence.
      * intros ? ? ? E E' _. congruence.
      * split; [discriminate|]. intros [c [b [E _]]]. congruence.
  - simpl. rewrite Ef. split; [reflexivity|]. split; [|split].
    + split; [discriminate|]. intros [c [E _]]. discriminate.
    + intros ? ? ? E. discriminate.
    + split; [discriminate|]. intros [c [b [E _]]]. discriminate.
Qed.

Lemma download_file_true (out : Outside) (url path : string) (st : Machine) :
  fst (download_file out url path st) = true ->
  path_exists (snd (download_file out url path st)) path = true.
Proof.
  intros H. destruct (path_exists st path) eqn:E.
  - now rewrite download_file_cached.
  - destruct (download_file_fresh out url path st E) as (_ & Hok & _ & Hex).
    apply Hex. apply Hok in H as [chunks [H1 H2]]. eauto.
Qed.

(** X13: The contract of [download_file].  It changes no file but the one at its
    path, and never one that exists.  With the file on disk it answers True
    and does nothing: no request, no write, no line.  Otherwise it sends one
    request, and answers True exactly when the answer is 200, the file can be
    opened and the body streams to its end; the file then holds the body.
    After a True the file exists, and any later call answers True and does
    nothing. *)
Theorem download_file_contract (out : Outside) (url path : string) (st : Machine) :
  (forall p, p <> path ->
     files (snd (download_file out url path st)) p = files st p) /\
  (forall p, path_exists st p = true ->
     files (snd (download_file out url path st)) p = files st p) /\
  (path_exists st path = true -> download_file out url path st = (true, st)) /\
  (path_exists st path = false ->
   requests (snd (download_file out url path st)) = requests st ++ [url] /\
   (fst (download_file out url path st) = true <->
    exists chunks, http_get out url = Answer 200 chunks false /\
                   can_open out path = true /\
                   files (snd (download_file out url path st)) path =
                     Some (String.concat "" chunks))) /\
  (fst (download_file out url path st) = true ->
   path_exists (snd (download_file out url path st)) path = true /\
   forall out',
     download_file out' url path (snd (download_file out url path st)) =
     (true, snd (download_file out url path st))).
Proof.
  split; [apply download_file_frame|].
  split; [apply download_file_keeps|].
  split; [apply download_file_cached|].
  split.
  - intros Hp. destruct (download_file_fresh out url path st Hp)
      as (Hreq & Hok & Hfile & _).
    split; [exact Hreq|]. split.
    + intros H. apply Hok in H as [chunks [H1 H2]]. exists chunks.
      split; [exact H1|]. split; [exact H2|]. now apply (Hfile 200 chunks false).
    + intros [chunks [H1 [H2 _]]]. apply Hok. eauto.
  - intros H. pose proof (download_file_true out url path st H) as Hex.
    split; [exact Hex|]. intros out'. now apply download_file_cached.
Qed.

Lemma download_file_contract_witness :
  download_file broken_january (url_of (g_name 1)) (path_of (g_name 1))
                (write_file (path_of (g_name 1)) "PAR1" empty_machine) =
  (true, write_file (path_of (g_name 1)) "PAR1" empty_machine).
Proof.
  apply (download_file_contract broken_january (url_of (g_name 1))
           (path_of (g_name 1))
           (write_file (path_of (g_name 1)) "PAR1" empty_machine)).
  reflexivity.
Defined.

(** X14: A download that breaks midway: with the file absent, the answer 200 and
    the body breaking after some chunks, [download_file] answers False, yet
    the file is left on disk with the chunks received; the next call, whatever
    the network then says, finds it, answers True and sends no request. *)
Theorem download_file_partial (out : Outside) (url path : string) (st : Machine)
        (chunks : list string) :
  path_exists st path = false ->
  http_get out url = Answer 200 chunks true ->
  can_open out path = true ->
  fst (download_file out url path st) = false /\
  files (snd (download_file out url path st)) path =
    Some (String.concat "" chunks) /\
  In (DownloadError url) (console (snd (download_file out url path st))) /\
  forall out',
    download_file out' url path (snd (download_file out url path st)) =
    (true, snd (download_file out url path st)).
Proof.
  intros Hp Hg Ho.
  destruct (download_file_fresh out url path st Hp) as (_ & Hok & Hfile & Hex).
  assert (Hfalse : fst (download_file out url path st) = false).
  { apply not_true_is_false. intros E.
    apply Hok in E as [c [E _]]. congruence. }
  split; [exact Hfalse|].
  split; [now apply (Hfile 200 chunks true)|]. split.
  - unfold download_file. rewrite Hp, Hg, Ho. simpl.
    apply in_or_app. right. now left.
  - intros out'. apply download_file_cached. apply Hex. eauto.
Qed.

Lemma download_file_partial_witness :
  fst (download_file broken_january (url_of (y_name 1)) (path_of (y_name 1))
                     empty_machine) = false /\
  files (snd (download_file broken_january (url_of (y_name 1))
                            (path_of (y_name 1)) empty_machine))
        (path_of (y_name 1)) = Some "PAR1"%string.
Proof.
  destruct (download_file_partial broken_january (url_of (y_name 1))
              (path_of (y_name 1)) empty_machine ["PAR1"%string]
              eq_refl eq_refl eq_refl) as (H1 & H2 & _).
  split; [exact H1 | exact H2].
Defined.

(** ** The download loop *)

Lemma distinct_NoDup (l : list string) : distinct l = true -> NoDup l.
Proof.
  induction l as [|s l IH]; simpl; intros H; [constructor|].
  apply andb_true_iff in H as [H1 H2]. constructor; [|auto].
  intros Hin. apply negb_true_iff in H1.
  assert (existsb (String.eqb s) l = true); [|congruence].
  apply existsb_exists. exists s. split; [exact Hin | apply String.eqb_refl].
Qed.

Lemma loop_paths_distinct : NoDup (map path_of loop_names).
Proof. apply distinct_NoDup. vm_compute. reflexivity. Qed.

Lemma loop_urls_distinct : NoDup (map url_of loop_names).
Proof. apply distinct_NoDup. vm_compute. reflexivity. Qed.

Lemma path_exists_files (st st' : Machine) (p : string) :
  files st' p = files st p -> path_exists st' p = path_exists st p.
Proof. unfold path_exists. now intros ->. Qed.

(** One call of the loop, on a named file. *)
Lemma download_name (out : Outside) (name : string) (st : Machine) :
  fst (download_file out (url_of name) (path_of name) st) = available out st name /\
  requests (snd (download_file out (url_of name) (path_of name) st)) =
    requests st ++ (if path_exists st (path_of name) then [] else [url_of name]) /\
  (In DecemberMissing
      (console (snd (download_file out (url_of name) (path_of name) st))) <->
   In DecemberMissing (console st)).
Proof.
  unfold available, downloads, download_file.
  destruct (path_exists st (path_of name)) eqn:E; simpl.
  - rewrite app_nil_r. tauto.
  - assert (Hc : forall l ls,
              l <> DecemberMissing ->
              In DecemberMissing (ls ++ [l]) <-> In DecemberMissing ls).
    { intros l ls Hl. rewrite in_app_iff. simpl. intuition congruence. }
    destruct (http_get out (url_of name)) as [code chunks breaks|].
    + destruct (code =? 200); simpl.
      * destruct (can_open out (path_of name)); simpl.
        -- destruct breaks; simpl; split; try reflexivity; split;
             try reflexivity; rewrite ?Hc by discriminate; tauto.
        -- split; [reflexivity|]. split; [reflexivity|].
           rewrite !Hc by discriminate. tauto.
      * split; [reflexivity|]. split; [reflexivity|].
        rewrite !Hc by discriminate. tauto.
    + simpl. split; [reflexivity|]. split; [reflexivity|].
      rewrite !Hc by discriminate. tauto.
Qed.

Lemma available_files (out : Outside) (st st' : Machine) (name : string) :
  files st' (path_of name) = files st (path_of name) ->
  available out st' name = available out st name.
Proof.
  intros H. unfold available. now rewrite (path_exists_files _ _ _ H).
Qed.

(** One turn of the loop. *)
Lemma download_month_spec (out : Outside) (m : nat) (ys gs : list string)
      (st : Machine) :
  path_of (y_name m) <> path_of (g_name m) ->
  exists st',
    download_month out m (ys, gs, st) =
      (ys ++ (if available out st (y_name m) then [path_of (y_name m)] else []),
       gs ++ (if available out st (g_name m) then [path_of (g_name m)] else []),
       st') /\
    (forall p, p <> path_of (y_name m) -> p <> path_of (g_name m) ->
               files st' p = files st p) /\
    (forall p, path_exists st p = true -> files st' p = files st p) /\
    (forall name, name = y_name m \/ name = g_name m ->
       available out st name = true -> path_exists st' (path_of name) = true) /\
    requests st' =
      requests st ++
      map url_of (List.filter (fun name => negb (path_exists st (path_of name)))
                              [y_name m; g_name m]) /\
    (In DecemberMissing (console st') <->
     In DecemberMissing (console st) \/
     (m = 12%nat /\ path_exists st' (path_of (y_name m)) = false)).
Proof.
  intros Hne. unfold download_month.
  pose proof (download_name out (y_name m) st) as (Hy1 & Hy2 & Hy3).
  pose proof (download_file_frame out (url_of (y_name m)) (path_of (y_name m)) st)
    as Hyf.
  pose proof (download_file_keeps out (url_of (y_name m)) (path_of (y_name m)) st)
    as Hyk.
  pose proof (download_file_true out (url_of (y_name m)) (path_of (y_name m)) st)
    as Hyt.
  destruct (download_file out (url_of (y_name m)) (path_of (y_name m)) st)
    as [y_ok st1]. cbn [fst snd] in *.
  pose proof (download_name out (g_name m) st1) as (Hg1 & Hg2 & Hg3).
  pose proof (download_file_frame out (url_of (g_name m)) (path_of (g_name m)) st1)
    as Hgf.
  pose proof (download_file_keeps out (url_of (g_name m)) (path_of (g_name m)) st1)
    as Hgk.
  pose proof (download_file_true out (url_of (g_name m)) (path_of (g_name m)) st1)
    as Hgt.
  destruct (download_file out (url_of (g_name m)) (path_of (g_name m)) st1)
    as [g_ok st2]. cbn [fst snd] in *.
  assert (Hg_same : files st1 (path_of (g_name m)) = files st (path_of (g_name m)))
    by (apply Hyf; congruence).
  rewrite (available_files out st st1 (g_name m) Hg_same) in Hg1.
  rewrite (path_exists_files _ _ _ Hg_same) in Hg2.
  set (st3 := if Nat.eqb m 12 && negb (path_exists st2 (path_of (y_name m)))
              then print DecemberMissing st2 else st2).
  assert (Hfiles3 : files st3 = files st2).
  { unfold st3. now destruct (_ && _). }
  assert (Hreq3 : requests st3 = requests st2).
  { unfold st3. now destruct (_ && _). }
  exists st3. split; [|split; [|split; [|split; [|split]]]].
  - subst y_ok g_ok.
    destruct (available out st (y_name m)), (available out st (g_name m));
      rewrite ?app_nil_r; reflexivity.
  - intros p H1 H2. rewrite Hfiles3, Hgf, Hyf; auto.
  - intros p Hp. rewrite Hfiles3, Hgk, Hyk; auto.
    unfold path_exists. now rewrite Hyk.
  - intros name [->| ->] Hav; unfold path_exists; rewrite Hfiles3.
    + rewrite Hgf by congruence. apply Hyt. congruence.
    + apply Hgt. congruence.
  - rewrite Hreq3, Hg2, Hy2, <- app_assoc. f_equal. simpl.
    destruct (path_exists st (path_of (y_name m))),
             (path_exists st (path_of (g_name m))); reflexivity.
  - assert (Hex3 : path_exists st3 (path_of (y_name m)) =
                   path_exists st2 (path_of (y_name m)))
      by (unfold path_exists; now rewrite Hfiles3).
    rewrite Hex3. unfold st3.
    destruct (Nat.eqb m 12) eqn:Em; simpl.
    + apply Nat.eqb_eq in Em.
      destruct (path_exists st2 (path_of (y_name m))) eqn:Ex; simpl.
      * rewrite Hg3, Hy3. intuition congruence.
      * rewrite in_app_iff, Hg3, Hy3. simpl. tauto.
    + apply Nat.eqb_neq in Em. rewrite Hg3, Hy3. tauto.
Qed.

Lemma filter_ext_in' {A} (f g : A -> bool) (l : list A) :
  (forall a, In a l -> f a = g a) -> List.filter f l = List.filter g l.
Proof.
  induction l as [|a l IH]; simpl; intros H; [reflexivity|].
  rewrite (H a (or_introl eq_refl)), IH; auto.
Qed.

(** The turns of the loop over months whose paths are pairwise different. *)
Lemma download_fold (out : Outside) (ms : list nat) :
  NoDup (map path_of (flat_map (fun m => [y_name m; g_name m]) ms)) ->
  forall ys gs st,
  exists st',
    fold_left (fun acc m => download_month out m acc) ms (ys, gs, st) =
      (ys ++ map (fun m => path_of (y_name m))
                 (List.filter (fun m => available out st (y_name m)) ms),
       gs ++ map (fun m => path_of (g_name m))
                 (List.filter (fun m => available out st (g_name m)) ms),
       st') /\
    (forall p, ~ In p (map path_of (flat_map (fun m => [y_name m; g_name m]) ms)) ->
               files st' p = files st p) /\
    (forall p, path_exists st p = true -> files st' p = files st p) /\
    (forall name, In name (flat_map (fun m => [y_name m; g_name m]) ms) ->
       available out st name = true -> path_exists st' (path_of name) = true) /\
    requests st' =
      requests st ++
      map url_of (List.filter (fun name => negb (path_exists st (path_of name)))
                              (flat_map (fun m => [y_name m; g_name m]) ms)) /\
    (In DecemberMissing (console st') <->
     In DecemberMissing (console st) \/
     (In 12%nat ms /\ path_exists st' (path_of (y_name 12)) = false)).
Proof.
  induction ms as [|m ms IH]; intros Hnd ys gs st.
  - exists st. simpl. rewrite !app_nil_r. repeat split; auto; tauto.
  - cbn [flat_map app map] in Hnd.
    inversion Hnd as [|? ? Hy Hnd1]; subst.
    inversion Hnd1 as [|? ? Hg Hnd2]; subst.
    assert (Hne : path_of (y_name m) <> path_of (g_name m)).
    { intros E. apply Hy. rewrite E. now left. }
    destruct (download_month_spec out m ys gs st Hne)
      as (st1 & Hstep & Hframe1 & Hkeep1 & Hav1 & Hreq1 & Hdec1).
    cbn [fold_left]. rewrite Hstep.
    destruct (IH Hnd2 (ys ++ (if available out st (y_name m)
                              then [path_of (y_name m)] else []))
                 (gs ++ (if available out st (g_name m)
                         then [path_of (g_name m)] else [])) st1)
      as (st' & Hfold & Hframe & Hkeep & Hav & Hreq & Hdec).
    exists st'.
    assert (Hrest : forall name,
              In name (flat_map (fun m => [y_name m; g_name m]) ms) ->
              files st1 (path_of name) = files st (path_of name)).
    { intros name Hin. apply Hframe1.
      - intros E. apply Hy. right. rewrite <- E. now apply in_map.
      - intros E. apply Hg. rewrite <- E. now apply in_map. }
    assert (Hym : forall m', In m' ms ->
              In (y_name m') (flat_map (fun m => [y_name m; g_name m]) ms)).
    { intros m' Hm'. apply in_flat_map. exists m'. split; [exact Hm'|now left]. }
    assert (Hgm : forall m', In m' ms ->
              In (g_name m') (flat_map (fun m => [y_name m; g_name m]) ms)).
    { intros m' Hm'. apply in_flat_map. exists m'.
      split; [exact Hm'|right; now left]. }
    split; [|split; [|split; [|split; [|split]]]].
    + rewrite Hfold. cbn [List.filter].
      rewrite (filter_ext_in' (fun m0 => available out st1 (y_name m0))
                              (fun m0 => available out st (y_name m0)) ms)
        by (intros m' Hm'; apply available_files, Hrest, Hym, Hm').
      rewrite (filter_ext_in' (fun m0 => available out st1 (g_name m0))
                              (fun m0 => available out st (g_name m0)) ms)
        by (intros m' Hm'; apply available_files, Hrest, Hgm, Hm').
      rewrite <- !app_assoc.
      destruct (available out st (y_name m)), (available out st (g_name m));
        reflexivity.
    + intros p Hp. cbn [flat_map app map] in Hp.
      rewrite Hframe, Hframe1; auto.
      * intros E. apply Hp. now left.
      * intros E. apply Hp. right. now left.
      * intros Hin. apply Hp. right. right. exact Hin.
    + intros p Hp. rewrite Hkeep, Hkeep1; auto.
      unfold path_exists. now rewrite Hkeep1.
    + intros name Hin Havail. cbn [flat_map app] in Hin.
      assert (Hmono : forall p, path_exists st1 p = true -> path_exists st' p = true).
      { intros p Hp. unfold path_exists. rewrite Hkeep by exact Hp. exact Hp. }
      destruct Hin as [<-|[<-|Hin]].
      * apply Hmono, Hav1; auto.
      * apply Hmono, Hav1; auto.
      * apply Hav; [exact Hin|].
        now rewrite (available_files out st st1 name (Hrest name Hin)).
    + rewrite Hreq, Hreq1, <- app_assoc. f_equal.
      rewrite <- map_app. f_equal.
      change (flat_map (fun m0 => [y_name m0; g_name m0]) (m :: ms))
        with ([y_name m; g_name m] ++ flat_map (fun m0 => [y_name m0; g_name m0]) ms).
      rewrite filter_app. f_equal.
      apply filter_ext_in'. intros name Hin.
      now rewrite (path_exists_files _ _ _ (Hrest name Hin)).
    + rewrite Hdec, Hdec1. cbn [In].
      assert (Hsame : m = 12%nat ->
                path_exists st' (path_of (y_name 12)) =
                path_exists st1 (path_of (y_name m))).
      { intros Em. rewrite Em in Hy |- *. apply path_exists_files, Hframe.
        intros Hin. apply Hy. now right. }
      split.
      * intros [[H|[Hm Hx]]|[Hin Hx]]; auto.
        right. split; [now left|]. now rewrite Hsame.
      * intros [H|[[Hm|Hin] Hx]]; auto.
        left. right. split; [exact Hm|]. now rewrite <- Hsame.
Qed.

(** X15: The download loop of [ingest_and_unify].  The yellow list holds, in
    month order, the paths of the months whose file was on disk or downloads
    to its end, and so does the green list; every listed path exists after the
    loop.  No file that existed is changed and no file outside the 24 paths is
    touched; one request is sent for each of the 24 files not on disk, in loop
    order, and none for a file on disk.  The December line is printed exactly
    when the yellow December path does not exist after the loop. *)
Theorem download_loop_spec (out : Outside) (st : Machine) :
  exists st',
    download_loop out st =
      (map (fun m => path_of (y_name m))
           (List.filter (fun m => available out st (y_name m)) months),
       map (fun m => path_of (g_name m))
           (List.filter (fun m => available out st (g_name m)) months),
       st') /\
    (forall name, In name loop_names -> available out st name = true ->
       path_exists st' (path_of name) = true) /\
    (forall p, path_exists st p = true -> files st' p = files st p) /\
    (forall p, ~ In p (map path_of loop_names) -> files st' p = files st p) /\
    requests st' =
      requests st ++
      map url_of (List.filter (fun name => negb (path_exists st (path_of name)))
                              loop_names) /\
    (~ In DecemberMissing (console st) ->
     In DecemberMissing (console st') <->
     path_exists st' (path_of (y_name 12)) = false).
Proof.
  destruct (download_fold out months loop_paths_distinct [] [] (print Phase1 st))
    as (st' & Hfold & Hframe & Hkeep & Hav & Hreq & Hdec).
  unfold download_loop, loop_names.
  unfold available, path_exists in Hfold, Hav, Hkeep, Hreq |- *.
  cbn [print files requests app] in Hfold, Hframe, Hkeep, Hav, Hreq.
  exists st'. split; [exact Hfold|].
  split; [exact Hav|]. split; [exact Hkeep|]. split; [exact Hframe|].
  split; [exact Hreq|].
  intros Hno. rewrite Hdec. cbn [print console]. rewrite in_app_iff. cbn [In].
  fold (path_exists st' (path_of (y_name 12))).
  split.
  - intros [[H|[H|[]]]|[_ H]]; [contradiction|discriminate|exact H].
  - intros H. right. split; [|exact H]. unfold months. apply in_seq. lia.
Qed.

(** ** The elasticity banner *)

Lemma SFcompare_antisym (x y : spec_float) :
  SFcompare y x = option_map CompOpp (SFcompare x y).
Proof.
  destruct x as [sx|sx| |sx mx ex], y as [sy|sy| |sy my ey]; simpl;
    try reflexivity;
    try (destruct sx; reflexivity); try (destruct sy; reflexivity);
    try (destruct sx, sy; reflexivity).
  rewrite (Z.compare_antisym ey ex).
  assert (H : Pos.compare_cont Eq mx my = CompOpp (Pos.compare_cont Eq my mx))
    by (symmetry; apply (Pos.compare_cont_antisym my mx Eq)).
  rewrite H.
  destruct sx, sy; simpl; try reflexivity;
    destruct (ey ?= ex)%Z; simpl; try reflexivity;
    now rewrite CompOpp_involutive.
Qed.

(** Below a positive bound in absolute value is between the bound and its
    opposite. *)
Lemma abs_ltb (x b : float) (mb : positive) (eb : Z) :
  Prim2SF b = S754_finite false mb eb ->
  PrimFloat.ltb (PrimFloat.abs x) b =
  PrimFloat.ltb (PrimFloat.opp b) x && PrimFloat.ltb x b.
Proof.
  intros Hb.
  rewrite !FloatAxioms.ltb_spec, FloatAxioms.abs_spec, FloatAxioms.opp_spec, Hb.
  unfold SFltb.
  rewrite (SFcompare_antisym (Prim2SF x) (SFopp (S754_finite false mb eb))).
  destruct (Prim2SF x) as [s|s| |s m e]; simpl; try reflexivity;
    destruct s; simpl; try reflexivity;
    destruct (e ?= eb)%Z; simpl; try reflexivity;
    destruct (Pos.compare_cont Eq m mb); reflexivity.
Qed.

Lemma ltb_not_nan (x y : float) :
  PrimFloat.ltb x y = true ->
  PrimFloat.is_nan x = false /\ PrimFloat.is_nan y = false.
Proof.
  rewrite FloatAxioms.ltb_spec. unfold SFltb. intros H.
  split; apply not_true_is_false; intros E; apply is_nan_spec in E;
    rewrite E in H; [discriminate|].
  now destruct (Prim2SF x).
Qed.

Lemma ltb_false_leb (x y : float) :
  PrimFloat.is_nan x = false -> PrimFloat.is_nan y = false ->
  PrimFloat.ltb x y = false -> PrimFloat.leb y x = true.
Proof.
  intros Hx Hy. rewrite FloatAxioms.ltb_spec, FloatAxioms.leb_spec.
  unfold SFltb, SFleb. rewrite (SFcompare_antisym (Prim2SF x) (Prim2SF y)).
  assert (Hx' : Prim2SF x <> S754_nan)
    by (intros E; apply is_nan_spec in E; congruence).
  assert (Hy' : Prim2SF y <> S754_nan)
    by (intros E; apply is_nan_spec in E; congruence).
  destruct (SFcompare (Prim2SF x) (Prim2SF y)) as [[| |]|] eqn:E; simpl;
    try reflexivity; try discriminate.
  destruct (Prim2SF x) as [s|s| |s m e], (Prim2SF y) as [s'|s'| |s' m' e'];
    simpl in E; congruence.
Qed.

(** X16: The banner says inelastic demand exactly when the score is strictly
    between -0.3 and 0.3.  Every other score, NaN included (which is what the
    correlation is when a column does not vary or has fewer than two days),
    gets the elastic-demand warning. *)
Theorem elasticity_banner_spec (corr : float) :
  (elasticity_banner corr = InelasticDemand <->
   PrimFloat.ltb (-0x1.3333333333333p-2)%float corr = true /\
   PrimFloat.ltb corr 0x1.3333333333333p-2%float = true) /\
  (elasticity_banner corr = ElasticDemand <->
   PrimFloat.is_nan corr = true \/
   PrimFloat.leb corr (-0x1.3333333333333p-2)%float = true \/
   PrimFloat.leb 0x1.3333333333333p-2%float corr = true).
Proof.
  assert (Hb : Prim2SF 0x1.3333333333333p-2%float =
               S754_finite false 5404319552844595 (-54)) by reflexivity.
  assert (Habs := abs_ltb corr _ _ _ Hb).
  change (PrimFloat.opp 0x1.3333333333333p-2%float)
    with (-0x1.3333333333333p-2)%float in Habs.
  unfold elasticity_banner. rewrite Habs.
  assert (Hin : (if PrimFloat.ltb (-0x1.3333333333333p-2)%float corr
                    && PrimFloat.ltb corr 0x1.3333333333333p-2%float
                 then InelasticDemand else ElasticDemand) = InelasticDemand <->
                PrimFloat.ltb (-0x1.3333333333333p-2)%float corr = true /\
                PrimFloat.ltb corr 0x1.3333333333333p-2%float = true).
  { rewrite <- andb_true_iff.
    destruct (_ && _); split; intros H; congruence. }
  split; [exact Hin|].
  destruct (PrimFloat.is_nan corr) eqn:En.
  - split; [auto|]. intros _.
    destruct (PrimFloat.ltb (-0x1.3333333333333p-2)%float corr) eqn:E1;
      [|reflexivity].
    apply ltb_not_nan in E1 as [_ E1]. congruence.
  - destruct (PrimFloat.ltb (-0x1.3333333333333p-2)%float corr) eqn:E1;
      destruct (PrimFloat.ltb corr 0x1.3333333333333p-2%float) eqn:E2; simpl.
    + split; [discriminate|]. intros [H|[H|H]]; [discriminate| |].
      * assert (PrimFloat.ltb (-0x1.3333333333333p-2)%float corr = false);
          [|congruence].
        rewrite FloatAxioms.ltb_spec. rewrite FloatAxioms.leb_spec in H.
        unfold SFltb, SFleb in *.
        rewrite (SFcompare_antisym (Prim2SF corr)
                                   (Prim2SF (-0x1.3333333333333p-2)%float)).
        destruct (SFcompare (Prim2SF corr) _) as [[| |]|]; simpl in *;
          congruence.
      * assert (PrimFloat.ltb corr 0x1.3333333333333p-2%float = false);
          [|congruence].
        rewrite FloatAxioms.ltb_spec. rewrite FloatAxioms.leb_spec in H.
        unfold SFltb, SFleb in *.
        rewrite (SFcompare_antisym (Prim2SF 0x1.3333333333333p-2%float)
                                   (Prim2SF corr)).
        destruct (SFcompare (Prim2SF 0x1.3333333333333p-2%float) _)
          as [[| |]|]; simpl in *; congruence.
    + split; [|reflexivity]. intros _. right. right.
      now apply ltb_false_leb.
    + split; [|reflexivity]. intros _. right. left.
      now apply ltb_false_leb.
    + split; [|reflexivity]. intros _. right. left.
      now apply ltb_false_leb.
Qed.

(** ** The output files and what the dashboard shows *)

Lemma write_csv_same (path : string) (f : Frame) (dir : OutDir) :
  write_csv path f dir path = Some f.
Proof. unfold write_csv. now rewrite String.eqb_refl. Qed.

Lemma write_csv_other (path : string) (f : Frame) (dir : OutDir) (p : string) :
  p <> path -> write_csv path f dir p = dir p.
Proof. intros H. unfold write_csv. apply String.eqb_neq in H. now rewrite H. Qed.

Ltac other_path :=
  rewrite write_csv_other by (let E := fresh in intros E; vm_compute in E; discriminate E).

Lemma output_paths_distinct :
  NoDup [output_path "ghost_audit.csv"; output_path "leakage_audit.csv";
         output_path "velocity_heatmap.csv"; output_path "economics.csv";
         output_path "weather_elasticity.csv"].
Proof. apply distinct_NoDup. reflexivity. Qed.

(** [load_data] answers five frames or five times None, so the page never
    reaches a tab with a frame missing; it shows the error exactly when one
    of the five files is not there. *)
Lemma dashboard_cases (dir : OutDir) :
  dashboard dir <> TabFails /\
  (dashboard dir = DataNotFound <->
   exists name,
     In name ["leakage_audit.csv"; "velocity_heatmap.csv";
              "weather_elasticity.csv"; "economics.csv";
              "ghost_audit.csv"]%string /\
     dir (output_path name) = None).
Proof.
  unfold dashboard, view, load_data_cached, render, load_data. cbn [fst].
  change (output_path "leakage_audit.csv") with "./outputs/leakage_audit.csv"%string.
  destruct (dir "./outputs/leakage_audit.csv"%string) as [l|] eqn:El;
  destruct (dir "./outputs/velocity_heatmap.csv"%string) as [v|] eqn:Ev;
  destruct (dir "./outputs/weather_elasticity.csv"%string) as [w|] eqn:Ew;
  destruct (dir "./outputs/economics.csv"%string) as [e|] eqn:Ee;
  destruct (dir "./outputs/ghost_audit.csv"%string) as [g|] eqn:Eg;
  (split; [discriminate|]);
  try (split; [discriminate|];
       intros [name [Hin Hn]]; cbn [In] in Hin;
       repeat (destruct Hin as [<-|Hin]; [vm_compute in Hn; congruence|]);
       contradiction);
  (split; [intros _|reflexivity]).
  all: try (exists "leakage_audit.csv"%string; split; [now left|exact El]).
  all: try (exists "velocity_heatmap.csv"%string;
            split; [right; now left|exact Ev]).
  all: try (exists "weather_elasticity.csv"%string;
            split; [right; right; now left|exact Ew]).
  all: try (exists "economics.csv"%string;
            split; [right; right; right; now left|exact Ee]).
  all: try (exists "ghost_audit.csv"%string;
            split; [right; right; right; right; now left|exact Eg]).
Qed.

(** What the page shows when the five files are there, and when the weather
    file is not. *)
Lemma dashboard_tabs (dir : OutDir) (lk v w e g : Frame) :
  dir (output_path "leakage_audit.csv") = Some lk ->
  dir (output_path "velocity_heatmap.csv") = Some v ->
  dir (output_path "weather_elasticity.csv") = Some w ->
  dir (output_path "economics.csv") = Some e ->
  dir (output_path "ghost_audit.csv") = Some g ->
  dashboard dir = Tabs lk v w e g.
Proof.
  intros Hl Hv Hw He Hg.
  unfold dashboard, view, load_data_cached, render, load_data. cbn [fst].
  change "./outputs/leakage_audit.csv"%string
    with (output_path "leakage_audit.csv").
  change "./outputs/velocity_heatmap.csv"%string
    with (output_path "velocity_heatmap.csv").
  change "./outputs/weather_elasticity.csv"%string
    with (output_path "weather_elasticity.csv").
  change "./outputs/economics.csv"%string with (output_path "economics.csv").
  change "./outputs/ghost_audit.csv"%string with (output_path "ghost_audit.csv").
  now rewrite Hl, Hv, Hw, He, Hg.
Qed.

Lemma dashboard_no_weather (dir : OutDir) :
  dir (output_path "weather_elasticity.csv") = None ->
  dashboard dir = DataNotFound.
Proof.
  intros Hw. apply dashboard_cases.
  exists "weather_elasticity.csv"%string. split; [|exact Hw].
  right. right. now left.
Qed.

Lemma dashboard_same_files (dir dir' : OutDir) :
  (forall name, In name OUTPUT_FILES ->
     dir' (output_path name) = dir (output_path name)) ->
  dashboard dir' = dashboard dir.
Proof.
  intros H.
  unfold dashboard, view, load_data_cached, render, load_data. cbn [fst].
  change "./outputs/leakage_audit.csv"%string
    with (output_path "leakage_audit.csv").
  change "./outputs/velocity_heatmap.csv"%string
    with (output_path "velocity_heatmap.csv").
  change "./outputs/weather_elasticity.csv"%string
    with (output_path "weather_elasticity.csv").
  change "./outputs/economics.csv"%string with (output_path "economics.csv").
  change "./outputs/ghost_audit.csv"%string with (output_path "ghost_audit.csv").
  rewrite !H; [reflexivity| | | | |]; unfold OUTPUT_FILES; cbn [In]; tauto.
Qed.

Section RunFiles.
Variable mean : list float -> float.
Variable truncates : Z -> bool.

(** The run, ending by ending. *)
Lemma run_files_scan_raises (tu : TimeUnit) (l : Listing)
      (archive : option (list float)) (dir : OutDir) :
  (forall q, ingest_and_unify_files l <> Ok q) ->
  run_pipeline_files mean truncates tu l archive dir = (ScanRaises, dir).
Proof.
  intros Hq. unfold run_pipeline_files.
  destruct (ingest_and_unify_files l) as [q| |]; [|reflexivity|reflexivity].
  exfalso. now apply (Hq q).
Qed.

Lemma run_files_truncate_raises (tu : TimeUnit) (l : Listing)
      (archive : option (list float)) (dir : OutDir) (q0 : list Row) :
  ingest_and_unify_files l = Ok q0 ->
  economics_collect mean truncates (q_clean (with_features tu q0)) = None ->
  run_pipeline_files mean truncates tu l archive dir =
  (TruncateRaises,
   write_csv (output_path "velocity_heatmap.csv")
     (VelocityFrame (velocity_agg mean (q_clean (with_features tu q0))))
     (write_csv (output_path "leakage_audit.csv")
        (LeakageFrame (leakage_agg (q_clean (with_features tu q0))))
        (write_csv (output_path "ghost_audit.csv")
           (GhostFrame (ghost_stats (with_features tu q0))) dir))).
Proof. intros Hq He. unfold run_pipeline_files. now rewrite Hq, He. Qed.

Lemma run_files_weather_raises (tu : TimeUnit) (l : Listing)
      (archive : option (list float)) (dir : OutDir) (q0 : list Row)
      (economics : list EconomicsRow) :
  ingest_and_unify_files l = Ok q0 ->
  economics_collect mean truncates (q_clean (with_features tu q0)) =
    Some economics ->
  (forall values, archive = Some values -> length values <> 365%nat) ->
  run_pipeline_files mean truncates tu l archive dir =
  (WeatherRaises,
   write_csv (output_path "economics.csv") (EconomicsFrame economics)
     (write_csv (output_path "velocity_heatmap.csv")
        (VelocityFrame (velocity_agg mean (q_clean (with_features tu q0))))
        (write_csv (output_path "leakage_audit.csv")
           (LeakageFrame (leakage_agg (q_clean (with_features tu q0))))
           (write_csv (output_path "ghost_audit.csv")
              (GhostFrame (ghost_stats (with_features tu q0))) dir)))).
Proof.
  intros Hq He Ha. unfold run_pipeline_files. rewrite Hq, He.
  destruct archive as [values|]; [|reflexivity].
  rewrite fetch_weather_eq.
  specialize (Ha values eq_refl). apply Nat.eqb_neq in Ha. now rewrite Ha.
Qed.

Lemma run_files_complete (tu : TimeUnit) (l : Listing) (dir : OutDir)
      (q0 : list Row) (economics : list EconomicsRow) (values : list float) :
  ingest_and_unify_files l = Ok q0 ->
  economics_collect mean truncates (q_clean (with_features tu q0)) =
    Some economics ->
  length values = 365%nat ->
  exists weather_df,
    fetch_weather values = Ok weather_df /\
    run_pipeline_files mean truncates tu l (Some values) dir =
    (PipelineComplete,
     write_csv (output_path "weather_elasticity.csv")
       (WeatherFrame (weather_join weather_df
                        (daily_counts (q_clean (with_features tu q0)))))
       (write_csv (output_path "economics.csv") (EconomicsFrame economics)
          (write_csv (output_path "velocity_heatmap.csv")
             (VelocityFrame (velocity_agg mean (q_clean (with_features tu q0))))
             (write_csv (output_path "leakage_audit.csv")
                (LeakageFrame (leakage_agg (q_clean (with_features tu q0))))
                (write_csv (output_path "ghost_audit.csv")
                   (GhostFrame (ghost_stats (with_features tu q0))) dir))))).
Proof.
  intros Hq He Hl. unfold run_pipeline_files. rewrite Hq, He.
  destruct (fetch_weather values) as [weather_df| |] eqn:Ew.
  - exists weather_df. split; reflexivity.
  - rewrite fetch_weather_eq, Hl in Ew. discriminate.
  - rewrite fetch_weather_eq, Hl in Ew. discriminate.
Qed.

Lemma economics_collect_none (clean : list Trip) :
  (exists t d, In t clean /\ date (timed t) = Some d /\ truncates d = false) ->
  economics_collect mean truncates clean = None.
Proof.
  intros (t & d & Ht & Hd & Hf). unfold economics_collect.
  destruct (forallb _ clean) eqn:E; [|reflexivity].
  rewrite forallb_forall in E. specialize (E t Ht). rewrite Hd in E.
  congruence.
Qed.

Lemma economics_collect_some (clean : list Trip) (e : list EconomicsRow) :
  economics_collect mean truncates clean = Some e ->
  e = economics_agg mean clean /\
  forall t d, In t clean -> date (timed t) = Some d -> truncates d = true.
Proof.
  unfold economics_collect. destruct (forallb _ clean) eqn:E; [|discriminate].
  intros H. injection H as <-. split; [reflexivity|].
  intros t d Ht Hd. rewrite forallb_forall in E. specialize (E t Ht).
  now rewrite Hd in E.
Qed.

Hypothesis truncates_range :
  forall d, days_from_civil 1970 1 1 <= d < days_from_civil 10000 1 1 ->
            truncates d = true.

(** X17: The run and the five files of the output directory.  With no file
    of a class, or a listed file that is no Parquet file, it raises at the
    first collect and leaves the five files as they were.  With every pickup
    time between 1970-01-01 and the end of year 9999 it writes the ghost,
    leakage, velocity and economics tables of the trips (in some order of
    their rows, the leakage file being a top ten of its groups); it then
    completes, writing the joined weather table, when the archive answers
    365 values, and otherwise raises with the weather file as it was.  When
    a clean trip has a date that the engine cannot truncate, it raises after
    writing the ghost, leakage and velocity files, the economics and weather
    files being as they were (dates being 32-bit day numbers).  A run that
    completes read Parquet files of both classes and 365 values, and
    truncated every date of a clean trip. *)
Theorem run_pipeline_files_spec (tu : TimeUnit) (l : Listing)
        (archive : option (list float)) (dir : OutDir) :
  ((forall q, ingest_and_unify_files l <> Ok q) ->
   fst (run_pipeline_files mean truncates tu l archive dir) = ScanRaises /\
   forall name, In name OUTPUT_FILES ->
     snd (run_pipeline_files mean truncates tu l archive dir) (output_path name)
     = dir (output_path name)) /\
  (forall q0,
     ingest_and_unify_files l = Ok q0 ->
     forallb (in_calendar_range tu) q0 = true ->
     holds_ghost
       (snd (run_pipeline_files mean truncates tu l archive dir)
            (output_path "ghost_audit.csv"))
       (with_features tu q0) /\
     holds_leakage
       (snd (run_pipeline_files mean truncates tu l archive dir)
            (output_path "leakage_audit.csv"))
       (q_clean (with_features tu q0)) /\
     holds_velocity mean
       (snd (run_pipeline_files mean truncates tu l archive dir)
            (output_path "velocity_heatmap.csv"))
       (q_clean (with_features tu q0)) /\
     holds_economics mean
       (snd (run_pipeline_files mean truncates tu l archive dir)
            (output_path "economics.csv"))
       (q_clean (with_features tu q0)) /\
     (forall values,
        archive = Some values -> length values = 365%nat ->
        fst (run_pipeline_files mean truncates tu l archive dir) =
          PipelineComplete /\
        holds_weather
          (snd (run_pipeline_files mean truncates tu l archive dir)
               (output_path "weather_elasticity.csv"))
          values (q_clean (with_features tu q0))) /\
     ((forall values, archive = Some values -> length values <> 365%nat) ->
      fst (run_pipeline_files mean truncates tu l archive dir) =
        WeatherRaises /\
      snd (run_pipeline_files mean truncates tu l archive dir)
          (output_path "weather_elasticity.csv") =
      dir (output_path "weather_elasticity.csv"))) /\
  (forall q0,
     ingest_and_unify_files l = Ok q0 ->
     forallb (date_fits tu) q0 = true ->
     (exists t d, In t (q_clean (with_features tu q0)) /\
                  date (timed t) = Some d /\ truncates d = false) ->
     fst (run_pipeline_files mean truncates tu l archive dir) =
       TruncateRaises /\
     holds_ghost
       (snd (run_pipeline_files mean truncates tu l archive dir)
            (output_path "ghost_audit.csv"))
       (with_features tu q0) /\
     holds_leakage
       (snd (run_pipeline_files mean truncates tu l archive dir)
            (output_path "leakage_audit.csv"))
       (q_clean (with_features tu q0)) /\
     (exists v,
        snd (run_pipeline_files mean truncates tu l archive dir)
            (output_path "velocity_heatmap.csv") = Some (VelocityFrame v)) /\
     snd (run_pipeline_files mean truncates tu l archive dir)
         (output_path "economics.csv") = dir (output_path "economics.csv") /\
     snd (run_pipeline_files mean truncates tu l archive dir)
         (output_path "weather_elasticity.csv") =
     dir (output_path "weather_elasticity.csv")) /\
  (fst (run_pipeline_files mean truncates tu l archive dir) = PipelineComplete ->
   exists q0 values,
     ingest_and_unify_files l = Ok q0 /\
     is_listed (yellow_paths l) /\ readable (yellow_paths l) /\
     is_listed (green_paths l) /\ readable (green_paths l) /\
     archive = Some values /\ length values = 365%nat /\
     (forallb (date_fits tu) q0 = true ->
      forall t d, In t (q_clean (with_features tu q0)) ->
                  date (timed t) = Some d -> truncates d = true)).
Proof.
  split; [|split; [|split]].
  - intros Hq. rewrite (run_files_scan_raises tu l archive dir Hq).
    split; reflexivity.
  - intros q0 Hq Hr.
    pose proof (economics_collect_range mean truncates truncates_range tu q0 Hr)
      as He.
    assert (Hfour :
      forall d4 : OutDir,
        (d4 = write_csv (output_path "economics.csv")
                (EconomicsFrame (economics_agg mean (q_clean (with_features tu q0))))
                (write_csv (output_path "velocity_heatmap.csv")
                   (VelocityFrame (velocity_agg mean (q_clean (with_features tu q0))))
                   (write_csv (output_path "leakage_audit.csv")
                      (LeakageFrame (leakage_agg (q_clean (with_features tu q0))))
                      (write_csv (output_path "ghost_audit.csv")
                         (GhostFrame (ghost_stats (with_features tu q0))) dir))) \/
         exists w,
         d4 = write_csv (output_path "weather_elasticity.csv") w
               (write_csv (output_path "economics.csv")
                (EconomicsFrame (economics_agg mean (q_clean (with_features tu q0))))
                (write_csv (output_path "velocity_heatmap.csv")
                   (VelocityFrame (velocity_agg mean (q_clean (with_features tu q0))))
                   (write_csv (output_path "leakage_audit.csv")
                      (LeakageFrame (leakage_agg (q_clean (with_features tu q0))))
                      (write_csv (output_path "ghost_audit.csv")
                         (GhostFrame (ghost_stats (with_features tu q0))) dir))))) ->
        holds_ghost (d4 (output_path "ghost_audit.csv")) (with_features tu q0) /\
        holds_leakage (d4 (output_path "leakage_audit.csv"))
                      (q_clean (with_features tu q0)) /\
        holds_velocity mean (d4 (output_path "velocity_heatmap.csv"))
                       (q_clean (with_features tu q0)) /\
        holds_economics mean (d4 (output_path "economics.csv"))
                        (q_clean (with_features tu q0))).
    { intros d4 [->|[w ->]].
      - split; [|split; [|split]].
        + eexists. split; [do 3 other_path; apply write_csv_same|].
          apply Permutation_refl.
        + eexists. split; [do 2 other_path; apply write_csv_same|].
          apply leakage_agg_is_leakage_agg.
        + eexists. split; [other_path; apply write_csv_same|].
          apply Permutation_refl.
        + eexists. split; [apply write_csv_same|]. apply Permutation_refl.
      - split; [|split; [|split]].
        + eexists. split; [do 4 other_path; apply write_csv_same|].
          apply Permutation_refl.
        + eexists. split; [do 3 other_path; apply write_csv_same|].
          apply leakage_agg_is_leakage_agg.
        + eexists. split; [do 2 other_path; apply write_csv_same|].
          apply Permutation_refl.
        + eexists. split; [other_path; apply write_csv_same|].
          apply Permutation_refl. }
    destruct archive as [values|].
    + destruct (Nat.eq_dec (length values) 365) as [Hl|Hl].
      * destruct (run_files_complete tu l dir q0 _ values Hq He Hl)
          as (wdf & Hw & Hrun).
        rewrite Hrun. cbn [fst snd].
        destruct (Hfour _ (or_intror
                    (ex_intro _
                       (WeatherFrame
                          (weather_join wdf
                             (daily_counts (q_clean (with_features tu q0)))))
                       eq_refl)))
          as (H1 & H2 & H3 & H4).
        split; [exact H1|]. split; [exact H2|]. split; [exact H3|].
        split; [exact H4|]. split.
        -- intros values' E _. injection E as <-. split; [reflexivity|].
           exists wdf. eexists. split; [exact Hw|].
           split; [apply write_csv_same | apply Permutation_refl].
        -- intros Hn. exfalso. exact (Hn values eq_refl Hl).
      * rewrite (run_files_weather_raises tu l (Some values) dir q0 _ Hq He).
        2:{ intros values' E. injection E as <-. exact Hl. }
        cbn [fst snd].
        destruct (Hfour _ (or_introl eq_refl)) as (H1 & H2 & H3 & H4).
        split; [exact H1|]. split; [exact H2|]. split; [exact H3|].
        split; [exact H4|]. split.
        -- intros values' E Hl'. injection E as <-. contradiction.
        -- intros _. split; [reflexivity|]. now do 4 other_path.
    + rewrite (run_files_weather_raises tu l None dir q0 _ Hq He).
      2:{ intros values' E. discriminate. }
      cbn [fst snd].
      destruct (Hfour _ (or_introl eq_refl)) as (H1 & H2 & H3 & H4).
      split; [exact H1|]. split; [exact H2|]. split; [exact H3|].
      split; [exact H4|]. split.
      * intros values' E. discriminate.
      * intros _. split; [reflexivity|]. now do 4 other_path.
  - intros q0 Hq _ Hbad.
    rewrite (run_files_truncate_raises tu l archive dir q0 Hq
               (economics_collect_none _ Hbad)).
    cbn [fst snd]. split; [reflexivity|].
    split; [|split; [|split; [|split]]].
    + eexists. split; [do 2 other_path; apply write_csv_same|].
      apply Permutation_refl.
    + eexists. split; [other_path; apply write_csv_same|].
      apply leakage_agg_is_leakage_agg.
    + eexists. apply write_csv_same.
    + now do 3 other_path.
    + now do 3 other_path.
  - unfold run_pipeline_files.
    destruct (ingest_and_unify_files l) as [q0| |] eqn:Hq;
      [|discriminate|discriminate].
    destruct (economics_collect mean truncates (q_clean (with_features tu q0)))
      as [e|] eqn:He; [|discriminate].
    destruct archive as [values|]; [|discriminate].
    rewrite fetch_weather_eq.
    destruct (Nat.eqb (length values) 365) eqn:El; [|discriminate].
    intros _. exists q0, values.
    destruct (proj1 (ingest_files_iff l) (ex_intro _ q0 Hq))
      as [[Ly Ry] [Lg Rg]].
    split; [reflexivity|].
    split; [exact Ly|]. split; [exact Ry|]. split; [exact Lg|].
    split; [exact Rg|]. split; [reflexivity|].
    split; [now apply Nat.eqb_eq|].
    intros _. apply (economics_collect_some _ _ He).
Qed.

(** X18: What a server started after a run shows on its first view, when
    every pickup time lies between 1970-01-01 and the end of year 9999.
    After a run that completed: the five tables of that run (in some order
    of their rows), whatever was there before.  After a run that raised at
    the weather: the error if there was no weather table from an earlier
    run, and otherwise the four new tables beside that old weather table.
    After a run that raised at the first collect: what was there before the
    run.  A server that has shown a view keeps showing it, whatever is
    written afterwards. *)
Theorem dashboard_after_run (tu : TimeUnit) (l : Listing)
        (archive : option (list float)) (dir : OutDir) :
  (forall q0 values,
     ingest_and_unify_files l = Ok q0 ->
     forallb (in_calendar_range tu) q0 = true ->
     archive = Some values -> length values = 365%nat ->
     exists lk v w e g,
       dashboard (snd (run_pipeline_files mean truncates tu l archive dir)) =
         Tabs lk v w e g /\
       holds_leakage (Some lk) (q_clean (with_features tu q0)) /\
       holds_velocity mean (Some v) (q_clean (with_features tu q0)) /\
       holds_weather (Some w) values (q_clean (with_features tu q0)) /\
       holds_economics mean (Some e) (q_clean (with_features tu q0)) /\
       holds_ghost (Some g) (with_features tu q0)) /\
  (forall q0,
     ingest_and_unify_files l = Ok q0 ->
     forallb (in_calendar_range tu) q0 = true ->
     (forall values, archive = Some values -> length values <> 365%nat) ->
     match dir (output_path "weather_elasticity.csv") with
     | None =>
         dashboard (snd (run_pipeline_files mean truncates tu l archive dir)) =
           DataNotFound
     | Some old =>
         exists lk v e g,
           dashboard (snd (run_pipeline_files mean truncates tu l archive dir)) =
             Tabs lk v old e g /\
           holds_leakage (Some lk) (q_clean (with_features tu q0)) /\
           holds_velocity mean (Some v) (q_clean (with_features tu q0)) /\
           holds_economics mean (Some e) (q_clean (with_features tu q0)) /\
           holds_ghost (Some g) (with_features tu q0)
     end) /\
  ((forall q, ingest_and_unify_files l <> Ok q) ->
   dashboard (snd (run_pipeline_files mean truncates tu l archive dir)) =
   dashboard dir) /\
  (forall cache page,
     view None dir = (page, cache) ->
     view cache (snd (run_pipeline_files mean truncates tu l archive dir)) =
     (page, cache)).
Proof.
  split; [|split; [|split]].
  - intros q0 values Hq Hr -> Hl.
    pose proof (economics_collect_range mean truncates truncates_range tu q0 Hr)
      as He.
    destruct (run_files_complete tu l dir q0 _ values Hq He Hl)
      as (wdf & Hw & Hrun).
    rewrite Hrun. cbn [snd].
    do 5 eexists. split.
    + apply dashboard_tabs.
      * do 3 other_path. apply write_csv_same.
      * do 2 other_path. apply write_csv_same.
      * apply write_csv_same.
      * other_path. apply write_csv_same.
      * do 4 other_path. apply write_csv_same.
    + split; [|split; [|split; [|split]]].
      * eexists. split; [reflexivity | apply leakage_agg_is_leakage_agg].
      * eexists. split; [reflexivity | apply Permutation_refl].
      * exists wdf. eexists. split; [exact Hw|].
        split; [reflexivity | apply Permutation_refl].
      * eexists. split; [reflexivity | apply Permutation_refl].
      * eexists. split; [reflexivity | apply Permutation_refl].
  - intros q0 Hq Hr Ha.
    pose proof (economics_collect_range mean truncates truncates_range tu q0 Hr)
      as He.
    rewrite (run_files_weather_raises tu l archive dir q0 _ Hq He Ha).
    cbn [snd].
    destruct (dir (output_path "weather_elasticity.csv")) as [old|] eqn:Eo.
    + do 4 eexists. split.
      * apply dashboard_tabs.
        -- do 2 other_path. apply write_csv_same.
        -- other_path. apply write_csv_same.
        -- do 4 other_path. exact Eo.
        -- apply write_csv_same.
        -- do 3 other_path. apply write_csv_same.
      * split; [|split; [|split]].
        -- eexists. split; [reflexivity | apply leakage_agg_is_leakage_agg].
        -- eexists. split; [reflexivity | apply Permutation_refl].
        -- eexists. split; [reflexivity | apply Permutation_refl].
        -- eexists. split; [reflexivity | apply Permutation_refl].
    + apply dashboard_no_weather. now do 4 other_path.
  - intros Hq. now rewrite (run_files_scan_raises tu l archive dir Hq).
  - intros cache page H. unfold view, load_data_cached in H. cbn [fst snd] in H.
    injection H as <- <-. reflexivity.
Qed.

End RunFiles.

Lemma run_pipeline_files_spec_witness :
  fst (run_pipeline_files (fun _ => 0%float) (fun _ => true) Microseconds
         january_listing (Some dry_year) no_outputs) = PipelineComplete /\
  fst (run_pipeline_files (fun _ => 0%float) (fun _ => true) Microseconds
         january_broken (Some dry_year) no_outputs) = ScanRaises.
Proof.
  split.
  - destruct (proj1 (proj2 (run_pipeline_files_spec (fun _ => 0%float)
                              (fun _ => true) (fun _ _ => eq_refl) Microseconds
                              january_listing (Some dry_year) no_outputs))
                january_rows eq_refl eq_refl) as (_ & _ & _ & _ & Hc & _).
    exact (proj1 (Hc dry_year eq_refl eq_refl)).
  - apply (proj1 (run_pipeline_files_spec (fun _ => 0%float)
                    (fun _ => true) (fun _ _ => eq_refl) Microseconds
                    january_broken (Some dry_year) no_outputs)).
    intros q. discriminate.
Defined.

Lemma dashboard_after_run_witness :
  dashboard (snd (run_pipeline_files (fun _ => 0%float) (fun _ => true)
                    Microseconds january_listing (Some []) no_outputs)) =
  DataNotFound.
Proof.
  assert (Ha : forall values : list float,
            Some (@nil float) = Some values -> length values <> 365%nat).
  { intros values E. injection E as <-. discriminate. }
  exact (proj1 (proj2 (dashboard_after_run (fun _ => 0%float) (fun _ => true)
                         (fun _ _ => eq_refl) Microseconds
                         january_listing (Some []) no_outputs))
           january_rows eq_refl eq_refl Ha).
Defined.
